(** * NewFileRepo: a file-backed munki repository

    A shallow embedding of [code/client/munkilib/munkirepo/NewFileRepo.py]
    (Python 2) and the properties of its connect/mount life cycle and of its
    item operations.

    Layout of the development:
    - [pystr], [posixpath], [urlparse]: the string functions of the Python 2.7
      runtime that the module calls, transcribed from CPython 2.7;
    - [errno], the file system and the [os] calls over it: POSIX behaviour on
      a file system without symbolic links, in which the process may read and
      write everything;
    - the module itself: [mount_share], [mount_share_with_credentials],
      [mount_share_url] and the methods of [NewFileRepo], written in a state
      and exception monad over the instance and the host;
    - the theorems.

    The module uses [errno], [sys] and [getpass] without importing them and
    raises the name [SomeSortOfError], which it does not define. The
    embedding follows the module as it is written: the statement that looks
    up one of these names raises [NameError]. *)

From stdpp Require Import gmap strings list fin_maps pretty.
From Stdlib Require Import ZArith Ascii String Lia.

Open Scope string_scope.
Open Scope Z_scope.

(** ** Python 2 [str] methods *)

Module pystr.

(** [s[n:]] for [0 <= n]. *)
Fixpoint slice_from (n : nat) (s : string) : string :=
  match n, s with
  | O, _ => s
  | S _, EmptyString => EmptyString
  | S n', String _ s' => slice_from n' s'
  end.

(** [s[:n]] for [0 <= n]. *)
Fixpoint slice_to (n : nat) (s : string) : string :=
  match n, s with
  | O, _ => EmptyString
  | S _, EmptyString => EmptyString
  | S n', String a s' => String a (slice_to n' s')
  end.

(** [s.startswith(p)] *)
Definition startswith (s p : string) : bool := String.prefix p s.

(** [s.endswith(p)] *)
Definition endswith (s p : string) : bool :=
  (String.length p <=? String.length s)%nat
  && String.eqb (slice_from (String.length s - String.length p) s) p.

(** [s.find(c)] for a one-character [c]; [None] stands for [-1]. *)
Fixpoint find (c : ascii) (s : string) : option nat :=
  match s with
  | EmptyString => None
  | String a s' =>
      if Ascii.eqb a c then Some O else S <$> find c s'
  end.

(** [s.find(c, start)] *)
Definition find_from (c : ascii) (start : nat) (s : string) : option nat :=
  (fun i => (start + i)%nat) <$> find c (slice_from start s).

(** [s.rfind(c)] *)
Fixpoint rfind (c : ascii) (s : string) : option nat :=
  match s with
  | EmptyString => None
  | String a s' =>
      match rfind c s' with
      | Some i => Some (S i)
      | None => if Ascii.eqb a c then Some O else None
      end
  end.

(** [c in s] *)
Definition contains (c : ascii) (s : string) : bool :=
  match find c s with Some _ => true | None => false end.

(** [s.lstrip(c)] *)
Fixpoint lstrip (c : ascii) (s : string) : string :=
  match s with
  | EmptyString => EmptyString
  | String a s' => if Ascii.eqb a c then lstrip c s' else s
  end.

(** [s.rstrip(c)] *)
Fixpoint rstrip (c : ascii) (s : string) : string :=
  match s with
  | EmptyString => EmptyString
  | String a s' =>
      match rstrip c s' with
      | EmptyString => if Ascii.eqb a c then EmptyString else String a EmptyString
      | r => String a r
      end
  end.

(** [s.split(c, 1)] when [c in s]: the text before and after the first [c]. *)
Definition split1 (c : ascii) (s : string) : string * string :=
  match find c s with
  | Some i => (slice_to i s, slice_from (S i) s)
  | None => (s, EmptyString)
  end.

Definition lower_ascii (a : ascii) : ascii :=
  let n := nat_of_ascii a in
  if (65 <=? n)%nat && (n <=? 90)%nat then ascii_of_nat (n + 32) else a.

(** [s.lower()] *)
Fixpoint lower (s : string) : string :=
  match s with
  | EmptyString => EmptyString
  | String a s' => String (lower_ascii a) (lower s')
  end.

(** [all(c in chars for c in s)] *)
Fixpoint all_in (chars : string) (s : string) : bool :=
  match s with
  | EmptyString => true
  | String a s' => contains a chars && all_in chars s'
  end.

(** The double quote character, as a one-character string. *)
Definition dquote : string := String (ascii_of_nat 34) EmptyString.

End pystr.

(** ** [posixpath] (CPython 2.7, [Lib/posixpath.py]) *)

Module posixpath.
Import pystr.

(** [join(a, b)]: an absolute [b] discards [a]. *)
Definition join (a b : string) : string :=
  if startswith b "/" then b
  else if String.eqb a "" || endswith a "/" then a +:+ b
  else a +:+ "/" +:+ b.

Definition all_slashes (s : string) : bool :=
  String.eqb (lstrip "/" s) "".

(** [split(p)]: (head, tail), the tail being what follows the last slash. *)
Definition split (p : string) : string * string :=
  let i := match rfind "/" p with Some k => S k | None => O end in
  let head := slice_to i p in
  let tail := slice_from i p in
  let head := if negb (String.eqb head "") && negb (all_slashes head)
              then rstrip "/" head else head in
  (head, tail).

Definition dirname (p : string) : string := fst (split p).

End posixpath.

(** ** [urlparse] (CPython 2.7, [Lib/urlparse.py]): scheme, netloc and path *)

Module urlparse.
Import pystr.

Record ParseResult := mkParseResult {
  scheme : string;
  netloc : string;
  path : string
}.

Definition uses_params : list string :=
  ["ftp"; "hdl"; "prospero"; "http"; "imap"; "https"; "shttp"; "rtsp";
   "rtspu"; "sip"; "sips"; "mms"; ""; "sftp"; "tel"].

Definition scheme_chars : string :=
  "abcdefghijklmnopqrstuvwxyzABCDEFGHIJKLMNOPQRSTUVWXYZ0123456789+-.".

Definition min_found (delim : nat) (w : option nat) : nat :=
  match w with Some k => Nat.min delim k | None => delim end.

(** [_splitnetloc(url, start)] *)
Definition _splitnetloc (url : string) (start : nat) : string * string :=
  let delim := String.length url in
  let delim := min_found delim (find_from "/" start url) in
  let delim := min_found delim (find_from "?" start url) in
  let delim := min_found delim (find_from "#" start url) in
  (slice_from start (slice_to delim url), slice_from delim url).

Definition bad_brackets (netloc : string) : bool :=
  (contains "[" netloc && negb (contains "]" netloc))
  || (contains "]" netloc && negb (contains "[" netloc)).

(** The tail of [urlsplit], after the scheme has been taken off: network
    location, then fragment and query are cut from the path. [None] is the
    [ValueError] for an unbalanced IPv6 bracket. *)
Definition split_rest (scheme url : string) : option ParseResult :=
  let '(netloc, url) :=
    if String.eqb (slice_to 2 url) "//" then _splitnetloc url 2
    else (EmptyString, url) in
  if bad_brackets netloc then None
  else
    let url := if contains "#" url then fst (split1 "#" url) else url in
    let url := if contains "?" url then fst (split1 "?" url) else url in
    Some (mkParseResult scheme netloc url).

(** [urlsplit(url)] with the default arguments. *)
Definition urlsplit (url : string) : option ParseResult :=
  match find ":" url with
  | Some (S i') =>
      let i := S i' in
      if String.eqb (slice_to i url) "http" then
        split_rest (lower (slice_to i url)) (slice_from (S i) url)
      else if all_in scheme_chars (slice_to i url) then
        let rest := slice_from (S i) url in
        if String.eqb rest "" || negb (all_in "0123456789" rest)
        then split_rest (lower (slice_to i url)) rest
        else split_rest EmptyString url
      else split_rest EmptyString url
  | _ => split_rest EmptyString url
  end.

(** [_splitparams(url)], first component. *)
Definition _splitparams (url : string) : string :=
  if contains "/" url then
    match rfind "/" url with
    | Some r =>
        match find_from ";" r url with
        | Some i => slice_to i url
        | None => url
        end
    | None => url
    end
  else
    match find ";" url with
    | Some i => slice_to i url
    | None => slice_to (String.length url - 1) url
    end.

Definition in_list (s : string) (l : list string) : bool :=
  existsb (String.eqb s) l.

(** [urlparse(url)] with the default arguments. *)
Definition urlparse (url : string) : option ParseResult :=
  match urlsplit url with
  | None => None
  | Some r =>
      if in_list (scheme r) uses_params && contains ";" (path r)
      then Some (mkParseResult (scheme r) (netloc r) (_splitparams (path r)))
      else Some r
  end.

End urlparse.


(** ** [errno]: the error numbers of the host platform (Darwin), as the
    calls of [os] and [open] report them *)

Module errno.
Definition EPERM : Z := 1.
Definition ENOENT : Z := 2.
Definition EBUSY : Z := 16.
Definition EEXIST : Z := 17.
Definition ENOTDIR : Z := 20.
Definition EISDIR : Z := 21.
Definition EINVAL : Z := 22.
Definition ENOTEMPTY : Z := 66.
End errno.

(** ** The host: file system, terminal and mount facilities *)

(** A file system without symbolic links: every object is a regular file or
    a directory, stored under its canonical path, the list of names that
    leads to it from the root directory [[]]. *)
Inductive inode :=
  | File (data : string)
  | Dir.

Global Instance inode_eq_dec : EqDecision inode.
Proof. solve_decision. Defined.

(** What the process does to the outside, in order of occurrence (the most
    recent event first). *)
Inductive Event :=
  | EvPrint (items : list string)
  | EvPrintStderr (line : string)
  | EvNetFSMountURLSync (url : string) (user passwd : option string)
  | EvRawInput (prompt : string)
  | EvSubprocessCall (cmd : list string).

Record World := mkWorld {
  nodes : gmap (list string) inode;
  cwd : list string;
  trace : list Event
}.

Definition set_nodes (f : gmap (list string) inode) (w : World) : World :=
  mkWorld f (cwd w) (trace w).

Definition log (e : Event) (w : World) : World :=
  mkWorld (nodes w) (cwd w) (e :: trace w).

(** The answers of the host. Each one may depend on everything that has
    happened so far; the mount calls also say what the file system looks
    like afterwards. The mount tools are there to be run, so that
    [subprocess.call] comes back with an exit code, and the terminal answers
    [raw_input]. *)
Record Host := mkHost {
  NETFSMOUNTURLSYNC_AVAILABLE : bool;
  NetFSMountURLSync :
    World -> string -> option string -> option string ->
    Z * list string * gmap (list string) inode;
  subprocess_call : World -> list string -> Z * gmap (list string) inode;
  raw_input : World -> string -> string;
  os_strerror : Z -> string
}.

(** ** Exceptions and the monad of Python code *)

Inductive exn :=
  | ShareMountException (msg : string)
  | ShareAuthenticationNeededException
  | NameError (name : string)
  | OSError (code : Z)
  | IOError (code : Z)
  | shutil_Error (msg : string)
  | IndexError
  | ValueError (msg : string).

Global Instance exn_eq_dec : EqDecision exn.
Proof. solve_decision. Defined.

(** What [raise SomeSortOfError] raises: the module defines no such name,
    and looking it up is a [NameError]. *)
Abbreviation SomeSortOfError := (NameError "SomeSortOfError").

(** [isinstance(e, ShareMountException)]: the authentication exception is a
    subclass. *)
Definition is_ShareMountException (e : exn) : bool :=
  match e with
  | ShareMountException _ | ShareAuthenticationNeededException => true
  | _ => false
  end.

Definition is_ShareAuthenticationNeededException (e : exn) : bool :=
  match e with
  | ShareAuthenticationNeededException => true
  | _ => false
  end.

(** [str(e)] *)
Definition str_exn (e : exn) : string :=
  match e with
  | ShareMountException msg | shutil_Error msg | ValueError msg => msg
  | NameError name => "global name '" +:+ name +:+ "' is not defined"
  | _ => EmptyString
  end.

(** A computation over a state [S] either returns a value or raises; the
    state survives an exception. *)
Definition M (S A : Type) : Type := S -> S * (exn + A).

Definition ret {S A} (a : A) : M S A := fun s => (s, inr a).

Definition raise {S A} (e : exn) : M S A := fun s => (s, inl e).

(** The value of a global name that the module neither defines nor
    imports: there is none, the lookup raises [NameError]. *)
Definition unbound {S A} (name : string) : M S A := raise (NameError name).

Definition bind {S A B} (m : M S A) (k : A -> M S B) : M S B :=
  fun s =>
    match m s with
    | (s', inr a) => k a s'
    | (s', inl e) => (s', inl e)
    end.

(** [try: m] with the exception, if any, handed to the caller as a value. *)
Definition catch {S A} (m : M S A) : M S (exn + A) :=
  fun s => let '(s', r) := m s in (s', inr r).

Definition gets {S A} (f : S -> A) : M S A := fun s => (s, inr (f s)).

Definition modify {S} (f : S -> S) : M S unit := fun s => (f s, inr tt).

Declare Scope py_scope.
Delimit Scope py_scope with py.
Notation "x <- m ;; k" := (bind m (fun x => k))
  (at level 100, m at next level, right associativity) : py_scope.
Notation "m ;; k" := (bind m (fun _ => k))
  (at level 100, right associativity) : py_scope.
Open Scope py_scope.

(** How a block of statements ends: by falling through to the next statement
    or by a [return]. *)
Inductive flow := Next | Return.

(** ** [os], [os.path] and [shutil] over the file system *)

Module os.
Import pystr.

(** [p.split('/')] *)
Fixpoint components (p : string) : list string :=
  match p with
  | EmptyString => [EmptyString]
  | String a p' =>
      if Ascii.eqb a "/" then EmptyString :: components p'
      else match components p' with
           | c :: cs => String a c :: cs
           | [] => [String a EmptyString]
           end
  end.

(** Path lookup from directory [cur]: every component is looked up in a
    directory; empty components and [.] stay, [..] goes up. The object the
    path ends at need not exist. *)
Fixpoint namei (f : gmap (list string) inode) (cur : list string)
    (comps : list string) : Z + list string :=
  match comps with
  | [] => inr cur
  | c :: rest =>
      match f !! cur with
      | Some Dir =>
          if String.eqb c "" || String.eqb c "." then namei f cur rest
          else if String.eqb c ".." then namei f (removelast cur) rest
          else namei f (cur ++ [c]) rest
      | Some (File _) => inl errno.ENOTDIR
      | None => inl errno.ENOENT
      end
  end.

Definition resolve (w : World) (p : string) : Z + list string :=
  if String.eqb p "" then inl errno.ENOENT
  else namei (nodes w) (if startswith p "/" then [] else cwd w) (components p).

(** [os.stat(p)], as far as the kind of object goes. *)
Definition stat (w : World) (p : string) : Z + inode :=
  match resolve w p with
  | inl e => inl e
  | inr k =>
      match nodes w !! k with
      | Some x => inr x
      | None => inl errno.ENOENT
      end
  end.

Definition exists_at (w : World) (p : string) : bool :=
  match stat w p with inr _ => true | inl _ => false end.

Definition isdir_at (w : World) (p : string) : bool :=
  match stat w p with inr Dir => true | _ => false end.

Fixpoint strip_prefix (k k' : list string) : option (list string) :=
  match k, k' with
  | [], _ => Some k'
  | a :: k1, b :: k1' => if String.eqb a b then strip_prefix k1 k1' else None
  | _ :: _, [] => None
  end.

Definition child_of (k k' : list string) : option string :=
  match strip_prefix k k' with
  | Some [n] => Some n
  | _ => None
  end.

(** The names in directory [k], in the order the file system keeps them. *)
Definition children (f : gmap (list string) inode) (k : list string)
    : list string :=
  omap (child_of k) (map_to_list f).*1.

Definition listdir_at (w : World) (p : string) : Z + list string :=
  match resolve w p with
  | inl e => inl e
  | inr k =>
      match nodes w !! k with
      | Some Dir => inr (children (nodes w) k)
      | Some (File _) => inl errno.ENOTDIR
      | None => inl errno.ENOENT
      end
  end.

(** Trailing slashes do not count when a directory is named. *)
Definition strip_trailing (p : string) : string :=
  if posixpath.all_slashes p then p else rstrip "/" p.

(** A new object at [k] needs its parent directory. *)
Definition create (f : gmap (list string) inode) (k : list string) (x : inode)
    : Z + gmap (list string) inode :=
  match k with
  | [] => inl errno.ENOENT
  | _ =>
      match f !! removelast k with
      | Some Dir => inr (<[k := x]> f)
      | Some (File _) => inl errno.ENOTDIR
      | None => inl errno.ENOENT
      end
  end.

Definition mkdir_at (w : World) (p : string)
    : Z + gmap (list string) inode :=
  match resolve w (strip_trailing p) with
  | inl e => inl e
  | inr k =>
      match nodes w !! k with
      | Some _ => inl errno.EEXIST
      | None => create (nodes w) k Dir
      end
  end.

Definition rmdir_at (w : World) (p : string)
    : Z + gmap (list string) inode :=
  match resolve w (strip_trailing p) with
  | inl e => inl e
  | inr k =>
      match nodes w !! k with
      | None => inl errno.ENOENT
      | Some (File _) => inl errno.ENOTDIR
      | Some Dir =>
          if String.eqb (List.last (components (strip_trailing p)) "") "."
          then inl errno.EINVAL
          else match k, children (nodes w) k with
               | [], _ => inl errno.EBUSY
               | _, [] => inr (delete k (nodes w))
               | _, _ :: _ => inl errno.ENOTEMPTY
               end
      end
  end.

Definition remove_at (w : World) (p : string)
    : Z + gmap (list string) inode :=
  match resolve w p with
  | inl e => inl e
  | inr k =>
      match nodes w !! k with
      | None => inl errno.ENOENT
      | Some Dir => inl errno.EPERM
      | Some (File _) => inr (delete k (nodes w))
      end
  end.

(** [open(p).read()] *)
Definition read_at (w : World) (p : string) : Z + string :=
  match resolve w p with
  | inl e => inl e
  | inr k =>
      match nodes w !! k with
      | None => inl errno.ENOENT
      | Some Dir => inl errno.EISDIR
      | Some (File data) => inr data
      end
  end.

(** [open(p, 'w')], [write(content)], [close()] *)
Definition write_at (w : World) (p : string) (content : string)
    : Z + gmap (list string) inode :=
  match resolve w p with
  | inl e => inl e
  | inr k =>
      match nodes w !! k with
      | Some Dir => inl errno.EISDIR
      | Some (File _) => inr (<[k := File content]> (nodes w))
      | None => create (nodes w) k (File content)
      end
  end.

(** The calls as Python sees them: [os] functions raise [OSError], [open]
    raises [IOError]. *)
Definition sys_call (mk : Z -> exn)
    (f : World -> Z + gmap (list string) inode) : M World unit :=
  fun w =>
    match f w with
    | inl e => (w, inl (mk e))
    | inr f' => (set_nodes f' w, inr tt)
    end.

Definition path_exists (p : string) : M World bool :=
  gets (fun w => exists_at w p).

Definition mkdir (p : string) : M World unit :=
  sys_call OSError (fun w => mkdir_at w p).

Definition rmdir (p : string) : M World unit :=
  sys_call OSError (fun w => rmdir_at w p).

Definition remove (p : string) : M World unit :=
  sys_call OSError (fun w => remove_at w p).

Definition open_write (p content : string) : M World unit :=
  sys_call IOError (fun w => write_at w p content).

Definition open_read (p : string) : M World string :=
  fun w =>
    match read_at w p with
    | inl e => (w, inl (IOError e))
    | inr data => (w, inr data)
    end.

(** [os.makedirs(name, mode)], the recursion on the head of [name] bounded
    by [n]. *)
Fixpoint makedirs_fuel (n : nat) (name : string) : M World unit :=
  let '(head, tail) := posixpath.split name in
  let '(head, tail) :=
    if String.eqb tail "" then posixpath.split head else (head, tail) in
  fl <- (if negb (String.eqb head "") && negb (String.eqb tail "") then
           ex <- path_exists head ;;
           if negb ex then
             match n with
             | O => ret Next
             | S n' =>
                 r <- catch (makedirs_fuel n' head) ;;
                 match r with
                 | inl (OSError e) =>
                     if negb (e =? errno.EEXIST) then raise (OSError e)
                     else ret tt
                 | inl e => raise e
                 | inr _ => ret tt
                 end ;;
                 if String.eqb tail "." then ret Return else ret Next
             end
           else ret Next
         else ret Next) ;;
  match fl with
  | Return => ret tt
  | Next => mkdir name
  end.

(** Every recursive call is on a strictly shorter name, so the length of
    the name bounds the recursion. *)
Definition makedirs (name : string) : M World unit :=
  makedirs_fuel (String.length name) name.

(** The length of the longest canonical path. *)
Definition depth (f : gmap (list string) inode) : nat :=
  max_list ((fun k : list string => List.length k) <$> (map_to_list f).*1).

(** [os.walk(top)], top down, errors of [listdir] ignored; there are no
    links to follow. The recursion goes one directory down at a time and is
    bounded by [n]; [walk] takes a bound that the depth of the file system
    cannot reach. *)
Fixpoint walk_fuel (n : nat) (w : World) (top : string)
    : list (string * list string * list string) :=
  match n with
  | O => []
  | S n' =>
      match listdir_at w top with
      | inl _ => []
      | inr names =>
          let dirs :=
            List.filter (fun name => isdir_at w (posixpath.join top name)) names in
          let nondirs :=
            List.filter (fun name => negb (isdir_at w (posixpath.join top name)))
              names in
          (top, dirs, nondirs)
          :: flat_map (fun name => walk_fuel n' w (posixpath.join top name)) dirs
      end
  end.

Definition walk (w : World) (top : string)
    : list (string * list string * list string) :=
  walk_fuel (S (depth (nodes w))) w top.

End os.

Module shutil.

(** [_samefile(src, dst)]: both exist and are the same object. *)
Definition _samefile (w : World) (src dst : string) : bool :=
  match os.stat w src, os.stat w dst with
  | inr _, inr _ => bool_decide (os.resolve w src = os.resolve w dst)
  | _, _ => false
  end.

(** [copyfile(src, dst)]; there are no named pipes to refuse. *)
Definition copyfile (src dst : string) : M World unit :=
  same <- gets (fun w => _samefile w src dst) ;;
  if same then
    raise (shutil_Error
             ("`" +:+ src +:+ "` and `" +:+ dst +:+ "` are the same file"))
  else
    data <- os.open_read src ;;
    os.open_write dst data.

End shutil.

(** ** The module [NewFileRepo.py] *)

Record NewFileRepo := mkNewFileRepo {
  baseurl : string;
  url_scheme : string;
  root : string;
  we_mounted_repo : bool
}.

Global Instance NewFileRepo_eq_dec : EqDecision NewFileRepo.
Proof. solve_decision. Defined.

(** A method runs on its instance and on the host. *)
Record State := mkState {
  self : NewFileRepo;
  world : World
}.

(** Code that does not know the instance. *)
Definition lift {A} (m : M World A) : M State A :=
  fun s => let '(w', r) := m (world s) in (mkState (self s) w', r).

Definition set_root (v : string) : M State unit :=
  modify (fun s =>
    mkState (mkNewFileRepo (baseurl (self s)) (url_scheme (self s)) v
               (we_mounted_repo (self s)))
            (world s)).

Definition set_we_mounted_repo (v : bool) : M State unit :=
  modify (fun s =>
    mkState (mkNewFileRepo (baseurl (self s)) (url_scheme (self s))
               (root (self s)) v)
            (world s)).

(** [try: ... except E, err: raise] *)
Definition reraising {S A} (m : M S A) : M S A :=
  r <- catch m ;;
  match r with
  | inl err => raise err
  | inr a => ret a
  end.

(** [NewFileRepo.__init__] *)
Definition __init__ (baseurl : string) : exn + NewFileRepo :=
  match urlparse.urlparse baseurl with
  | None => inl (ValueError "Invalid IPv6 URL")
  | Some url_parts =>
      let url_scheme := urlparse.scheme url_parts in
      let root :=
        if String.eqb url_scheme "file" then urlparse.path url_parts
        else posixpath.join "/Volumes" (urlparse.path url_parts) in
      inr (mkNewFileRepo baseurl url_scheme root false)
  end.

Section Module_code.

Context (host : Host).

Definition print (items : list string) : M World unit :=
  modify (log (EvPrint items)).

(** [print >> file, line], for the standard error. *)
Definition print_to (file : unit) (line : string) : M World unit :=
  modify (log (EvPrintStderr line)).

Definition call_NetFSMountURLSync (url : string) (user passwd : option string)
    : M World (Z * list string) :=
  fun w =>
    let '(result, mountpoints, f') := NetFSMountURLSync host w url user passwd in
    (set_nodes f' (log (EvNetFSMountURLSync url user passwd) w),
     inr (result, mountpoints)).

Definition call_subprocess (cmd : list string) : M World Z :=
  fun w =>
    let '(retcode, f') := subprocess_call host w cmd in
    (set_nodes f' (log (EvSubprocessCall cmd) w), inr retcode).

Definition call_raw_input (prompt : string) : M World string :=
  fun w => (log (EvRawInput prompt) w, inr (raw_input host w prompt)).

(** ['Error mounting url "%s": %s, error %s' % (share_url, os.strerror(result), result)] *)
Definition mount_error_message (share_url : string) (result : Z) : string :=
  "Error mounting url " +:+ pystr.dquote +:+ share_url +:+ pystr.dquote
  +:+ ": " +:+ os_strerror host result +:+ ", error " +:+ pretty result.

(** [mountpoints[0]] *)
Definition first_mountpoint (mountpoints : list string) : M World string :=
  match mountpoints with
  | m :: _ => ret m
  | [] => raise IndexError
  end.

(** [mount_share(share_url)]. The tuple
    [(-6600, errno.EINVAL, errno.ENOTSUP, errno.EAUTH)] is built from the
    name [errno], which the module does not import. *)
Definition mount_share (share_url : string) : M World string :=
  r <- call_NetFSMountURLSync share_url None None ;;
  let '(result, mountpoints) := r in
  if negb (result =? 0) then
    errno_EINVAL <- unbound "errno" ;;
    errno_ENOTSUP <- unbound "errno" ;;
    errno_EAUTH <- unbound "errno" ;;
    if existsb (Z.eqb result) [-6600; errno_EINVAL; errno_ENOTSUP; errno_EAUTH]
    then raise ShareAuthenticationNeededException
    else raise (ShareMountException (mount_error_message share_url result))
  else first_mountpoint mountpoints.

(** [mount_share_with_credentials(share_url, username, password)] *)
Definition mount_share_with_credentials (share_url username password : string)
    : M World string :=
  r <- call_NetFSMountURLSync share_url (Some username) (Some password) ;;
  let '(result, mountpoints) := r in
  if negb (result =? 0) then
    raise (ShareMountException (mount_error_message share_url result))
  else first_mountpoint mountpoints.

(** [mount_share_url(share_url)]. The password is asked for by
    [getpass.getpass()], and the module does not import [getpass]. *)
Definition mount_share_url (share_url : string) : M World string :=
  r <- catch (mount_share share_url) ;;
  match r with
  | inr mountpoint => ret mountpoint
  | inl e =>
      if is_ShareAuthenticationNeededException e then
        username <- call_raw_input "Username: " ;;
        password <- unbound "getpass" ;;
        mount_share_with_credentials share_url username password
      else raise e
  end.

(** The command of the fallback, chosen by the prefix of the URL. *)
Definition mount_command (baseurl root : string) : option (list string) :=
  if pystr.startswith baseurl "afp:" then
    Some ["/sbin/mount_afp"; "-i"; baseurl; root]
  else if pystr.startswith baseurl "smb:" then
    Some ["/sbin/mount_smbfs"; pystr.slice_from 4 baseurl; root]
  else if pystr.startswith baseurl "nfs://" then
    Some ["/sbin/mount_nfs"; pystr.slice_from 6 baseurl; root]
  else None.

(** The body of [connect] down to the comment "mount attempt complete".
    Both statements that print an error name [sys.stderr], and the module
    does not import [sys]. *)
Definition connect_mount : M State flow :=
  s <- gets self ;;
  present <- lift (os.path_exists (root s)) ;;
  if negb present && negb (String.eqb (url_scheme s) "file") then
    lift (print ["Attempting to mount fileshare " +:+ baseurl s +:+ ":"]) ;;
    if NETFSMOUNTURLSYNC_AVAILABLE host then
      r <- catch (mountpoint <- lift (mount_share_url (baseurl s)) ;;
                  set_root mountpoint) ;;
      match r with
      | inl err =>
          if is_ShareMountException err then
            sys_stderr <- unbound "sys" ;;
            lift (print [sys_stderr; str_exn err]) ;;
            ret Return
          else raise err
      | inr _ =>
          set_we_mounted_repo true ;;
          ret Next
      end
    else
      lift (os.mkdir (root s)) ;;
      match mount_command (baseurl s) (root s) with
      | None =>
          sys_stderr <- unbound "sys" ;;
          lift (print_to sys_stderr "Unsupported filesystem URL!") ;;
          ret Return
      | Some cmd =>
          retcode <- lift (call_subprocess cmd) ;;
          if negb (retcode =? 0) then
            s <- gets self ;;
            lift (os.rmdir (root s)) ;;
            ret Next
          else
            set_we_mounted_repo true ;;
            ret Next
      end
  else ret Next.

(** [NewFileRepo.connect]. The name [SomeSortOfError] of its last statement
    is not defined in the module. *)
Definition connect : M State unit :=
  fl <- connect_mount ;;
  match fl with
  | Return => ret tt
  | Next =>
      s <- gets self ;;
      present <- lift (os.path_exists (root s)) ;;
      if negb present then
        cls <- unbound "SomeSortOfError" ;;
        raise cls
      else ret tt
  end.

(** [NewFileRepo.itemlist] *)
Definition itemlist (kind : string) : M State (list string) :=
  s <- gets self ;;
  let search_dir := posixpath.join (root s) kind in
  entries <- lift (gets (fun w => os.walk w search_dir)) ;;
  ret (flat_map
         (fun '(dirpath, _, filenames) =>
            List.map
              (fun name =>
                 let abs_path := posixpath.join dirpath name in
                 pystr.lstrip "/"
                   (pystr.slice_from (String.length search_dir) abs_path))
              filenames)
         entries).

(** [NewFileRepo.get] *)
Definition get (resource_identifier : string) : M State string :=
  s <- gets self ;;
  let repo_filepath := posixpath.join (root s) resource_identifier in
  reraising (lift (os.open_read repo_filepath)).

(** [NewFileRepo.get_to_local_file] *)
Definition get_to_local_file (resource_identifier local_file_path : string)
    : M State unit :=
  s <- gets self ;;
  let repo_filepath := posixpath.join (root s) resource_identifier in
  reraising (lift (shutil.copyfile repo_filepath local_file_path)).

(** [NewFileRepo.put] *)
Definition put (resource_identifier content : string) : M State unit :=
  s <- gets self ;;
  let repo_filepath := posixpath.join (root s) resource_identifier in
  let dir_path := posixpath.dirname repo_filepath in
  present <- lift (os.path_exists dir_path) ;;
  (if negb present then lift (os.makedirs dir_path) else ret tt) ;;
  reraising (lift (os.open_write repo_filepath content)).

(** [NewFileRepo.put_from_local_file] *)
Definition put_from_local_file (resource_identifier local_file_path : string)
    : M State unit :=
  s <- gets self ;;
  let repo_filepath := posixpath.join (root s) resource_identifier in
  let dir_path := posixpath.dirname repo_filepath in
  present <- lift (os.path_exists dir_path) ;;
  (if negb present then lift (os.makedirs dir_path) else ret tt) ;;
  reraising (lift (shutil.copyfile local_file_path repo_filepath)).

(** [NewFileRepo.delete] *)
Definition delete (resource_identifier : string) : M State unit :=
  s <- gets self ;;
  let repo_filepath := posixpath.join (root s) resource_identifier in
  reraising (lift (os.remove repo_filepath)).

End Module_code.

(** ** Vocabulary of the statements *)

(** [part] occurs in [whole]. *)
Definition includes (part whole : string) : Prop :=
  exists pre post, whole = pre +:+ part +:+ post.

(** A computation that leaves the fields of the instance as they are. *)
Definition preserves_self {A} (m : M State A) : Prop :=
  forall s, self (fst (m s)) = self s.

(** ** Hosts and worlds of the examples *)

Definition fs_repo : gmap (list string) inode :=
  list_to_map [([], Dir); (["tmp"], Dir); (["tmp"; "repo"], Dir)].

Definition fs_volumes : gmap (list string) inode :=
  list_to_map [([], Dir); (["Volumes"], Dir)].

(** A host without the NetFS framework; its mount tools exit with
    [retcode] and leave the file system alone. *)
Definition host_without_netfs (retcode : Z) : Host :=
  mkHost false
    (fun w _ _ _ => (0, [], nodes w))
    (fun w _ => (retcode, nodes w))
    (fun _ _ => "admin")
    (fun _ => "Unknown error").

(** What a native mount call with result [r] does: on 0 the share appears
    at [/Volumes/share]. *)
Definition native_outcome (w : World) (r : Z)
    : Z * list string * gmap (list string) inode :=
  if r =? 0 then (0, ["/Volumes/share"], <[["Volumes"; "share"] := Dir]> (nodes w))
  else (r, [], nodes w).

(** A host with the NetFS framework: the call without credentials results
    in [plain], the call with credentials in [cred]. *)
Definition host_netfs (plain cred : Z) : Host :=
  mkHost true
    (fun w _ user _ =>
       match user with
       | None => native_outcome w plain
       | Some _ => native_outcome w cred
       end)
    (fun w _ => (1, nodes w))
    (fun _ _ => "admin")
    (fun _ => "Unknown error").

Definition repo_file : NewFileRepo :=
  mkNewFileRepo "file:///tmp/repo" "file" "/tmp/repo" false.

Definition repo_smb : NewFileRepo :=
  mkNewFileRepo "smb://server/share" "smb" "/share" false.

Definition w_volumes : World := mkWorld fs_volumes [] [].

Definition w_repo : World := mkWorld fs_repo [] [].

(** The line [connect] prints before it tries to mount. *)
Definition attempt_line (s : State) : Event :=
  EvPrint ["Attempting to mount fileshare " +:+ baseurl (self s) +:+ ":"].

(** [connect] takes the way of the external mount commands and has made
    the mount directory: the root is missing, the scheme is not [file],
    the native call is not there, and [os.mkdir] gave the file system
    [f1]. *)
Definition in_fallback (host : Host) (s : State)
    (f1 : gmap (list string) inode) : Prop :=
  NETFSMOUNTURLSYNC_AVAILABLE host = false
  /\ os.exists_at (world s) (root (self s)) = false
  /\ String.eqb (url_scheme (self s)) "file" = false
  /\ os.mkdir_at (world s) (root (self s)) = inr f1.

(** The world in which the mount command is called. *)
Definition fallback_world (s : State) (f1 : gmap (list string) inode) : World :=
  set_nodes f1 (log (attempt_line s) (world s)).

(** [connect] has called exactly the command [cmd]. *)
Definition invoked (host : Host) (s : State) (cmd : list string) : Prop :=
  trace (world (fst (connect host s)))
  = EvSubprocessCall cmd :: attempt_line s :: trace (world s).

Definition fs_file_root : gmap (list string) inode :=
  list_to_map [([], Dir); (["tmp"], Dir); (["tmp"; "repo"], File "not a directory")].

Definition repo_smb_host : NewFileRepo :=
  mkNewFileRepo "smb://host/share" "smb" "/share" false.

(** ** Well-formed file systems *)

(** A name of a directory entry: not empty, not [.] or [..], no slash. *)
Definition valid_name (n : string) : bool :=
  negb (String.eqb n "") && negb (String.eqb n ".")
  && negb (String.eqb n "..") && negb (pystr.contains "/" n).

Definition wf_key (f : gmap (list string) inode) (k : list string) : bool :=
  match k with
  | [] => true
  | _ => valid_name (List.last k "")
         && bool_decide (f !! removelast k = Some Dir)
  end.

(** The root directory is there, and every other object has a valid name
    and lies in a directory. *)
Definition wf_fs (f : gmap (list string) inode) : bool :=
  bool_decide (f !! [] = Some Dir) && forallb (wf_key f) (map_to_list f).*1.

(** The separator [join] puts after [top]. *)
Definition separator (top : string) : string :=
  if pystr.endswith top "/" then "" else "/".

(** [top] joined with the names of [names], one after the other. *)
Definition joins (top : string) (names : list string) : string :=
  fold_left posixpath.join names top.

(** The path names that [itemlist] takes from the triples of [os.walk]. *)
Definition walk_files (entries : list (string * list string * list string))
    : list string :=
  flat_map (fun '(dirpath, _, filenames) =>
              List.map (posixpath.join dirpath) filenames) entries.

(** A repository with one manifest and one package description. *)
Definition fs_items : gmap (list string) inode :=
  list_to_map
    [([], Dir); (["tmp"], Dir); (["tmp"; "repo"], Dir);
     (["tmp"; "repo"; "manifests"], Dir);
     (["tmp"; "repo"; "manifests"; "site_default"], File "{...}");
     (["tmp"; "repo"; "pkgsinfo"], Dir);
     (["tmp"; "repo"; "pkgsinfo"; "apps"], Dir);
     (["tmp"; "repo"; "pkgsinfo"; "apps"; "Firefox-52.0.plist"], File "<plist/>")].

Definition s_items : State := mkState repo_file (mkWorld fs_items [] []).

Definition s_repo : State := mkState repo_file w_repo.

(** ** Vocabulary of the further properties *)

(** The mount attempt of [connect] is made and reports success: the root is
    missing, the scheme is not [file], and either the interactive native
    mount returns a mount point or, without the native call, the mount
    directory is made, a mount command is known for the URL and it exits
    with 0. *)
Definition mount_succeeds (host : Host) (s : State) : bool :=
  negb (os.exists_at (world s) (root (self s)))
  && negb (String.eqb (url_scheme (self s)) "file")
  && if NETFSMOUNTURLSYNC_AVAILABLE host then
       match snd (mount_share_url host (baseurl (self s))
                    (log (attempt_line s) (world s))) with
       | inr _ => true
       | inl _ => false
       end
     else
       match os.mkdir_at (world s) (root (self s)),
             mount_command (baseurl (self s)) (root (self s)) with
       | inr f1, Some cmd =>
           fst (subprocess_call host (fallback_world s f1) cmd) =? 0
       | _, _ => false
       end.

(** An event that reaches outside the process to mount or to ask. *)
Definition is_mount_event (e : Event) : bool :=
  match e with
  | EvNetFSMountURLSync _ _ _ | EvSubprocessCall _ | EvRawInput _ =>
      true
  | EvPrint _ | EvPrintStderr _ => false
  end.

Definition repo_smb_subdir : NewFileRepo :=
  mkNewFileRepo "smb://server/share/subdir" "smb" "/share/subdir" false.

Definition repo_ftp : NewFileRepo :=
  mkNewFileRepo "ftp://server/share" "ftp" "/share" false.

(** From [f] to [f'] nothing has changed but that directories have been
    added. *)
Definition dirs_added (f f' : gmap (list string) inode) : Prop :=
  (forall k x, f !! k = Some x -> f' !! k = Some x)
  /\ (forall k x, f' !! k = Some x ->
        f !! k = Some x \/ (x = Dir /\ f !! k = None)).

(** The regular files of [f] and [f'] are the same, but for the one at
    [k]. *)
Definition same_files_but (k : list string)
    (f f' : gmap (list string) inode) : Prop :=
  forall k' d, k' <> k -> f' !! k' = Some (File d) <-> f !! k' = Some (File d).

(** The first part of [put] and [put_from_local_file]: the directory of the
    file is made if it is missing. *)
Definition ensure_dir (dir_path : string) (w : World) : World * (exn + unit) :=
  if os.exists_at w dir_path then (w, inr tt) else os.makedirs dir_path w.

(** * Properties *)

(** ** The monad *)

Ltac unfold_monad :=
  unfold reraising, lift, bind, ret, unbound, raise, catch, gets, modify in *.

Lemma reraising_id {S A} (m : M S A) (s : S) : reraising m s = m s.
Proof. unfold_monad. destruct (m s) as [s' [e|a]]; reflexivity. Qed.

(** ** Strings *)

Lemma string_app_cons (x : ascii) (a b : string) :
  String x a +:+ b = String x (a +:+ b).
Proof. reflexivity. Qed.

Lemma string_app_nil_l (a : string) : EmptyString +:+ a = a.
Proof. reflexivity. Qed.

Lemma string_app_assoc (a b c : string) : (a +:+ b) +:+ c = a +:+ (b +:+ c).
Proof.
  induction a as [|x a IH]; [reflexivity|].
  rewrite !string_app_cons. f_equal. exact IH.
Qed.

Lemma string_app_nil_r (a : string) : a +:+ EmptyString = a.
Proof.
  induction a as [|x a IH]; [reflexivity|].
  rewrite string_app_cons. f_equal. exact IH.
Qed.

(** ** The constructor *)

Lemma init_root (url : string) (parts : urlparse.ParseResult) :
  urlparse.urlparse url = Some parts ->
  exists repo,
    __init__ url = inr repo
    /\ baseurl repo = url
    /\ url_scheme repo = urlparse.scheme parts
    /\ we_mounted_repo repo = false
    /\ root repo =
         if String.eqb (urlparse.scheme parts) "file" then urlparse.path parts
         else posixpath.join "/Volumes" (urlparse.path parts).
Proof.
  intros Hparse. unfold __init__. rewrite Hparse.
  eexists. repeat split; reflexivity.
Qed.

(** [os.path.join] keeps the mount root only in front of a relative path. *)
Lemma join_Volumes_relative (p : string) :
  pystr.startswith p "/" = false ->
  posixpath.join "/Volumes" p = "/Volumes/" +:+ p.
Proof. intros H. unfold posixpath.join. rewrite H. reflexivity. Qed.

Lemma join_Volumes_absolute (p : string) :
  pystr.startswith p "/" = true ->
  posixpath.join "/Volumes" p = p.
Proof. intros H. unfold posixpath.join. rewrite H. reflexivity. Qed.

(** C1, on the code: for the base URL [smb://server/share/subdir] the path
    component is [/share/subdir], and the constructor sets the root to
    [/share/subdir], which is not [/Volumes/share/subdir] and not under
    [/Volumes] at all: joining an absolute path component discards the
    mount root. For a [file] URL the root is the path component. *)
Theorem init_share_root_outside_Volumes :
  urlparse.path <$> urlparse.urlparse "smb://server/share/subdir"
    = Some "/share/subdir"
  /\ (exists repo,
        __init__ "smb://server/share/subdir" = inr repo
        /\ url_scheme repo = "smb"
        /\ root repo = "/share/subdir"
        /\ root repo <> "/Volumes" +:+ "/share/subdir"
        /\ pystr.startswith (root repo) "/Volumes" = false)
  /\ (exists repo,
        __init__ "file:///tmp/repo" = inr repo /\ root repo = "/tmp/repo").
Proof.
  split; [reflexivity|]. split.
  - eexists. split; [reflexivity|]. cbn. repeat split; try reflexivity.
    discriminate.
  - eexists. split; reflexivity.
Qed.

(** ** Mounting *)

Section Mount_facts.

Context (host : Host).

Lemma mount_error_message_includes (share_url : string) (result : Z) :
  includes share_url (mount_error_message host share_url result)
  /\ includes (os_strerror host result)
       (mount_error_message host share_url result)
  /\ includes (pretty result) (mount_error_message host share_url result).
Proof.
  unfold mount_error_message, includes. repeat split.
  - exists ("Error mounting url " +:+ pystr.dquote),
      (pystr.dquote +:+ ": " +:+ os_strerror host result +:+ ", error "
       +:+ pretty result).
    by rewrite !string_app_assoc.
  - exists ("Error mounting url " +:+ pystr.dquote +:+ share_url
            +:+ pystr.dquote +:+ ": "),
      (", error " +:+ pretty result).
    by rewrite !string_app_assoc.
  - exists ("Error mounting url " +:+ pystr.dquote +:+ share_url
            +:+ pystr.dquote +:+ ": " +:+ os_strerror host result
            +:+ ", error "), EmptyString.
    by rewrite string_app_nil_r, !string_app_assoc.
Qed.

(** What [mount_share] makes of the answer of the native call: the first
    mount point for result 0, and [NameError] for every other result, since
    the test of the result looks up [errno]. *)
Lemma mount_share_run (share_url : string) (w : World) :
  mount_share host share_url w
  = let '(result, mountpoints, f') :=
      NetFSMountURLSync host w share_url None None in
    (set_nodes f' (log (EvNetFSMountURLSync share_url None None) w),
     if result =? 0 then
       match mountpoints with
       | m :: _ => inr m
       | [] => inl IndexError
       end
     else inl (NameError "errno")).
Proof.
  unfold mount_share, call_NetFSMountURLSync, first_mountpoint. unfold_monad.
  destruct (NetFSMountURLSync host w share_url None None) as [[result mps] f'].
  destruct (result =? 0); cbn [negb]; [|reflexivity].
  by destruct mps.
Qed.

End Mount_facts.

(** C4, on the code: [mount_share] makes one native call, without
    credentials, and result 0 returns the first mount point reported. For
    every other result the module looks up [errno], which it never imports,
    and [NameError] is raised: for -6600, an authentication code, as for
    13. Whatever the host answers, [mount_share] raises neither
    [ShareAuthenticationNeededException] nor [ShareMountException], and no
    message with the URL, the error string and the number is made. *)
Theorem mount_share_nonzero_result :
  mount_share (host_netfs 0 0) "afp://server/share" w_volumes
  = (set_nodes (<[["Volumes"; "share"] := Dir]> fs_volumes)
       (log (EvNetFSMountURLSync "afp://server/share" None None) w_volumes),
     inr "/Volumes/share")
  /\ mount_share (host_netfs (-6600) 0) "afp://server/share" w_volumes
     = (set_nodes fs_volumes
          (log (EvNetFSMountURLSync "afp://server/share" None None) w_volumes),
        inl (NameError "errno"))
  /\ mount_share (host_netfs 13 0) "afp://server/share" w_volumes
     = (set_nodes fs_volumes
          (log (EvNetFSMountURLSync "afp://server/share" None None) w_volumes),
        inl (NameError "errno"))
  /\ forall (host : Host) (share_url : string) (w : World) (e : exn),
       snd (mount_share host share_url w) = inl e ->
       is_ShareMountException e = false.
Proof.
  split; [vm_compute; reflexivity|]. split; [vm_compute; reflexivity|].
  split; [vm_compute; reflexivity|].
  intros host share_url w e. rewrite mount_share_run.
  destruct (NetFSMountURLSync host w share_url None None) as [[result mps] f'].
  cbn [snd]. destruct (result =? 0); [|by intros [= <-]].
  destruct mps; [by intros [= <-]|discriminate].
Qed.
Section Interactive_mount.

Context (host : Host).

(** [mount_share] raises no [ShareAuthenticationNeededException], so the
    handler of [mount_share_url] is never entered: what [mount_share] does
    is what [mount_share_url] does. *)
Lemma mount_share_url_run (share_url : string) (w : World) :
  mount_share_url host share_url w = mount_share host share_url w.
Proof.
  unfold mount_share_url, bind, catch. rewrite mount_share_run.
  destruct (NetFSMountURLSync host w share_url None None) as [[result mps] f'].
  destruct (result =? 0); [destruct mps|]; reflexivity.
Qed.

Lemma mount_share_url_errors (share_url : string) (w : World) (e : exn) :
  snd (mount_share_url host share_url w) = inl e ->
  e = NameError "errno" \/ e = IndexError.
Proof.
  rewrite mount_share_url_run, mount_share_run.
  destruct (NetFSMountURLSync host w share_url None None) as [[result mps] f'].
  cbn [snd]. destruct (result =? 0); [|intros [= <-]; by left].
  destruct mps; [intros [= <-]; by right|discriminate].
Qed.

End Interactive_mount.

(** C5, on the code: [mount_share_url] first makes the plain call, and
    that is all it ever does: its outcome is that of [mount_share] on every
    host, URL and world. For the result -6600, which asks for credentials,
    it raises the [NameError] of the unbound [errno] at once; the trace
    holds the plain call only, no user name is asked for and
    [mount_share_with_credentials] is not called. *)
Theorem mount_share_url_never_asks :
  (forall (host : Host) (share_url : string) (w : World),
     mount_share_url host share_url w = mount_share host share_url w)
  /\ mount_share_url (host_netfs (-6600) 0) "smb://server/share" w_volumes
     = (set_nodes fs_volumes
          (log (EvNetFSMountURLSync "smb://server/share" None None) w_volumes),
        inl (NameError "errno"))
  /\ trace (fst (mount_share_url (host_netfs (-6600) 0) "smb://server/share"
                   w_volumes))
     = [EvNetFSMountURLSync "smb://server/share" None None].
Proof.
  split; [exact mount_share_url_run|].
  split; vm_compute; reflexivity.
Qed.

(** ** [connect] after a failed native mount *)

(** C2, on the code: the root [/share] of the repository at
    [smb://server/share] is missing and the native mount fails with result
    1. [connect] neither prints the failure and returns nor reaches its
    closing check: [mount_share] looks up [errno], which the module never
    imports, and the [NameError] leaves [connect], whose handler is for
    [ShareMountException]. The trace holds the line printed before the
    attempt and the native call. By the external commands, the sibling
    path, a failed mount does reach the closing check, which raises. *)
Theorem connect_failed_mount_raises_NameError :
  __init__ "smb://server/share" = inr repo_smb
  /\ os.exists_at w_volumes (root repo_smb) = false
  /\ connect (host_netfs 1 0) (mkState repo_smb w_volumes)
     = (mkState repo_smb
          (mkWorld fs_volumes []
             [EvNetFSMountURLSync "smb://server/share" None None;
              EvPrint ["Attempting to mount fileshare smb://server/share:"]]),
        inl (NameError "errno"))
  /\ snd (connect (host_without_netfs 1) (mkState repo_smb_host w_volumes))
     = inl SomeSortOfError.
Proof. repeat split; vm_compute; reflexivity. Qed.

(** ** The fields of the instance *)

Lemma preserves_self_ret {A} (a : A) : preserves_self (ret a).
Proof. intros s. reflexivity. Qed.

Lemma preserves_self_raise {A} (e : exn) : preserves_self (@raise State A e).
Proof. intros s. reflexivity. Qed.

Lemma preserves_self_gets {A} (f : State -> A) : preserves_self (gets f).
Proof. intros s. reflexivity. Qed.

Lemma preserves_self_lift {A} (m : M World A) : preserves_self (lift m).
Proof. intros s. unfold lift. destruct (m (world s)). reflexivity. Qed.

Lemma preserves_self_bind {A B} (m : M State A) (k : A -> M State B) :
  preserves_self m -> (forall a, preserves_self (k a)) ->
  preserves_self (bind m k).
Proof.
  intros Hm Hk s. unfold bind. specialize (Hm s).
  destruct (m s) as [s' [e|a]]; cbn in *; [exact Hm|].
  rewrite <- Hm. apply Hk.
Qed.

Lemma preserves_self_catch {A} (m : M State A) :
  preserves_self m -> preserves_self (catch m).
Proof.
  intros Hm s. unfold catch. specialize (Hm s).
  destruct (m s) as [s' r]. exact Hm.
Qed.

Lemma preserves_self_reraising {A} (m : M State A) :
  preserves_self m -> preserves_self (reraising m).
Proof.
  intros Hm. unfold reraising. apply preserves_self_bind.
  - by apply preserves_self_catch.
  - intros [e|a]; [apply preserves_self_raise | apply preserves_self_ret].
Qed.

Create HintDb frame.
#[local] Hint Resolve preserves_self_ret preserves_self_raise preserves_self_gets
  preserves_self_lift preserves_self_catch preserves_self_reraising : frame.

Ltac frame_step :=
  repeat first
    [ solve [auto with frame]
    | match goal with |- preserves_self (if ?b then _ else _) => destruct b end
    | apply preserves_self_bind; [|intros ?] ].

Lemma itemlist_preserves_self (kind : string) : preserves_self (itemlist kind).
Proof. unfold itemlist. frame_step. Qed.

Lemma get_preserves_self (id : string) : preserves_self (get id).
Proof. unfold get. frame_step. Qed.

Lemma get_to_local_file_preserves_self (id local_file_path : string) :
  preserves_self (get_to_local_file id local_file_path).
Proof. unfold get_to_local_file. frame_step. Qed.

Lemma put_preserves_self (id content : string) :
  preserves_self (put id content).
Proof. unfold put. frame_step. Qed.

Lemma put_from_local_file_preserves_self (id local_file_path : string) :
  preserves_self (put_from_local_file id local_file_path).
Proof. unfold put_from_local_file. frame_step. Qed.

Lemma delete_preserves_self (id : string) : preserves_self (delete id).
Proof. unfold delete. frame_step. Qed.

Lemma connect_mutates :
  self (fst (connect (host_netfs 0 0) (mkState repo_smb w_volumes)))
  = mkNewFileRepo "smb://server/share" "smb" "/Volumes/share" true.
Proof. vm_compute. reflexivity. Qed.

(** C10: [itemlist], [get], [get_to_local_file], [put],
    [put_from_local_file] and [delete] leave [baseurl], [url_scheme], [root]
    and [we_mounted_repo] as they found them, whether they return or raise;
    [connect] is the method that can change them. *)
Theorem item_operations_keep_fields :
  (forall (s : State) (kind id content local_file_path : string),
     self (fst (itemlist kind s)) = self s
     /\ self (fst (get id s)) = self s
     /\ self (fst (get_to_local_file id local_file_path s)) = self s
     /\ self (fst (put id content s)) = self s
     /\ self (fst (put_from_local_file id local_file_path s)) = self s
     /\ self (fst (delete id s)) = self s)
  /\ (exists host s,
        root (self (fst (connect host s))) <> root (self s)
        /\ we_mounted_repo (self (fst (connect host s)))
           <> we_mounted_repo (self s)).
Proof.
  split.
  - intros s kind id content local_file_path.
    split; [apply itemlist_preserves_self|].
    split; [apply get_preserves_self|].
    split; [apply get_to_local_file_preserves_self|].
    split; [apply put_preserves_self|].
    split; [apply put_from_local_file_preserves_self|].
    apply delete_preserves_self.
  - exists (host_netfs 0 0), (mkState repo_smb w_volumes).
    rewrite connect_mutates. split; discriminate.
Qed.

(** ** Path lookup *)

Lemma prefix_empty (s : string) : String.prefix EmptyString s = true.
Proof. destruct s; reflexivity. Qed.

Lemma startswith_slash_cons (a : ascii) (s : string) :
  pystr.startswith (String a s) "/" = Ascii.eqb a "/".
Proof.
  unfold pystr.startswith. cbn [String.prefix].
  destruct (ascii_dec "/" a) as [<-|Hne].
  - by rewrite prefix_empty.
  - symmetry. apply Ascii.eqb_neq. congruence.
Qed.

Lemma components_nonempty (p : string) : os.components p <> [].
Proof.
  induction p as [|a p IH]; cbn; [discriminate|].
  destruct (Ascii.eqb a "/"); [discriminate|].
  destruct (os.components p); discriminate.
Qed.

Lemma rstrip_empty_iff (p : string) :
  pystr.rstrip "/" p = EmptyString <-> pystr.lstrip "/" p = EmptyString.
Proof.
  induction p as [|a p IH]; cbn; [tauto|].
  destruct (Ascii.eqb a "/") eqn:Ea.
  - destruct (pystr.rstrip "/" p); [tauto|]. split; [discriminate|].
    intros H. apply IH in H. discriminate.
  - destruct (pystr.rstrip "/" p); split; discriminate.
Qed.

Lemma strip_trailing_empty (p : string) :
  os.strip_trailing p = EmptyString -> p = EmptyString.
Proof.
  unfold os.strip_trailing, posixpath.all_slashes.
  destruct (String.eqb_spec (pystr.lstrip "/" p) EmptyString) as [Hall|Hnot];
    [done|].
  intros H. apply rstrip_empty_iff in H. contradiction.
Qed.

Lemma rstrip_startswith (p : string) :
  pystr.rstrip "/" p <> EmptyString ->
  pystr.startswith (pystr.rstrip "/" p) "/" = pystr.startswith p "/".
Proof.
  destruct p as [|a p]; [done|]. cbn [pystr.rstrip].
  destruct (pystr.rstrip "/" p).
  - destruct (Ascii.eqb a "/"); [done|]. intros _.
    by rewrite !startswith_slash_cons.
  - intros _. by rewrite !startswith_slash_cons.
Qed.

Lemma strip_trailing_startswith (p : string) :
  pystr.startswith (os.strip_trailing p) "/" = pystr.startswith p "/".
Proof.
  unfold os.strip_trailing, posixpath.all_slashes.
  destruct (String.eqb_spec (pystr.lstrip "/" p) EmptyString) as [Hall|Hnot];
    [done|].
  apply rstrip_startswith. intros H. by apply rstrip_empty_iff in H.
Qed.

(** Stripping slashes at the end takes empty components off the end. *)
Lemma components_rstrip (p : string) :
  exists n,
    os.components p
    = (os.components (pystr.rstrip "/" p) ++ replicate n EmptyString)%list.
Proof.
  induction p as [|a p [n IH]]; [by exists O|].
  cbn [os.components pystr.rstrip].
  destruct (pystr.rstrip "/" p) as [|b r] eqn:Er.
  - cbn in IH. destruct (Ascii.eqb a "/") eqn:Ea.
    + exists (S n). by rewrite IH.
    + exists n. rewrite IH. cbn [os.components]. by rewrite Ea.
  - pose proof (components_nonempty (String b r)) as Hne.
    change (os.components (String a (String b r)))
      with (if Ascii.eqb a "/" then EmptyString :: os.components (String b r)
            else match os.components (String b r) with
                 | c :: cs => String a c :: cs
                 | [] => [String a EmptyString]
                 end).
    exists n. rewrite IH.
    destruct (os.components (String b r)); [done|].
    by destruct (Ascii.eqb a "/").
Qed.

Lemma components_strip_trailing (p : string) :
  exists n,
    os.components p
    = (os.components (os.strip_trailing p) ++ replicate n EmptyString)%list.
Proof.
  unfold os.strip_trailing. destruct (posixpath.all_slashes p).
  - exists O. by rewrite app_nil_r.
  - apply components_rstrip.
Qed.

Section Namei.

Context (f : gmap (list string) inode).

Lemma namei_app (cur : list string) (cs cs' : list string) :
  os.namei f cur (cs ++ cs')
  = match os.namei f cur cs with
    | inr k => os.namei f k cs'
    | inl e => inl e
    end.
Proof.
  revert cur. induction cs as [|c cs IH]; intros cur; [reflexivity|].
  cbn [app os.namei].
  destruct (f !! cur) as [[|]|]; try reflexivity.
  destruct (_ || _); [apply IH|]. destruct (String.eqb c ".."); apply IH.
Qed.

Lemma namei_empty_components (k : list string) (n : nat) :
  f !! k = Some Dir -> os.namei f k (replicate n EmptyString) = inr k.
Proof.
  intros Hk. induction n as [|n IH]; [reflexivity|].
  cbn [replicate os.namei]. rewrite Hk. exact IH.
Qed.

Lemma namei_empty_components_key (k k' : list string) (n : nat) :
  os.namei f k (replicate n EmptyString) = inr k' -> k' = k.
Proof.
  induction n as [|n IH]; cbn [replicate os.namei]; [congruence|].
  destruct (f !! k) as [[|]|]; try discriminate. exact IH.
Qed.

(** A lookup that succeeds goes through directories only, so it succeeds
    alike wherever these are directories. *)
Lemma namei_mono (f' : gmap (list string) inode) (cur cs k : list string) :
  (forall d, f !! d = Some Dir -> f' !! d = Some Dir) ->
  os.namei f cur cs = inr k -> os.namei f' cur cs = inr k.
Proof.
  intros Hdirs. revert cur. induction cs as [|c cs IH]; intros cur; [done|].
  cbn [os.namei].
  destruct (f !! cur) as [[|]|] eqn:Hcur; try discriminate.
  rewrite (Hdirs _ Hcur).
  destruct (_ || _); [apply IH|]. destruct (String.eqb c ".."); apply IH.
Qed.

(** Where only [k] has changed, a lookup that ended at [k] ends there still,
    or fails. *)
Lemma namei_changed_at (f' : gmap (list string) inode) (cur cs k : list string) :
  (forall d, d <> k -> f' !! d = f !! d) ->
  os.namei f cur cs = inr k ->
  os.namei f' cur cs = inr k \/ exists e, os.namei f' cur cs = inl e.
Proof.
  intros Hsame. revert cur. induction cs as [|c cs IH]; intros cur.
  { cbn. by left. }
  cbn [os.namei].
  destruct (f !! cur) as [[|]|] eqn:Hcur; try discriminate.
  destruct (decide (cur = k)) as [->|Hne].
  - destruct (f' !! k) as [[|]|]; [right; eauto| |right; eauto].
    destruct (_ || _); [apply IH|]. destruct (String.eqb c ".."); apply IH.
  - rewrite (Hsame _ Hne), Hcur.
    destruct (_ || _); [apply IH|]. destruct (String.eqb c ".."); apply IH.
Qed.

End Namei.

(** A path and the same path without its trailing slashes: the first
    asks in addition that what it names be a directory. *)
Lemma resolve_strip_trailing (p : string) :
  exists n, forall w,
    os.resolve w p
    = match os.resolve w (os.strip_trailing p) with
      | inr k => os.namei (nodes w) k (replicate n EmptyString)
      | inl e => inl e
      end.
Proof.
  destruct (components_strip_trailing p) as [n Hn]. exists n. intros w.
  unfold os.resolve. rewrite strip_trailing_startswith.
  destruct (String.eqb_spec p EmptyString) as [->|Hp]; [reflexivity|].
  destruct (String.eqb_spec (os.strip_trailing p) EmptyString) as [He|_].
  { by apply strip_trailing_empty in He. }
  by rewrite Hn, namei_app.
Qed.

Lemma exists_at_log (e : Event) (w : World) (p : string) :
  os.exists_at (log e w) p = os.exists_at w p.
Proof. reflexivity. Qed.

Lemma mkdir_at_log (e : Event) (w : World) (p : string) :
  os.mkdir_at (log e w) p = os.mkdir_at w p.
Proof. reflexivity. Qed.

(** After [mkdir(p)] the path [p] names a directory. *)
Lemma mkdir_at_stat (w : World) (p : string) (f' : gmap (list string) inode) :
  os.mkdir_at w p = inr f' -> os.stat (set_nodes f' w) p = inr Dir.
Proof.
  unfold os.mkdir_at.
  destruct (os.resolve w (os.strip_trailing p)) as [e|k] eqn:Hres; [done|].
  destruct (nodes w !! k) eqn:Hk; [done|].
  unfold os.create. destruct k as [|k0 k']; [done|].
  set (k := k0 :: k') in *.
  destruct (nodes w !! removelast k) as [[|]|]; try done.
  intros [= <-].
  destruct (resolve_strip_trailing p) as [n Hn].
  unfold os.stat. rewrite Hn.
  assert (os.resolve (set_nodes (<[k:=Dir]> (nodes w)) w) (os.strip_trailing p)
          = inr k) as ->.
  { revert Hres. unfold os.resolve. cbn [nodes cwd set_nodes].
    destruct (String.eqb _ _); [done|].
    apply namei_mono. intros d Hd.
    rewrite lookup_insert_ne; [done|]. intros <-. congruence. }
  cbn [nodes set_nodes].
  rewrite namei_empty_components by apply lookup_insert_eq.
  by rewrite lookup_insert_eq.
Qed.

Lemma mkdir_at_exists (w : World) (p : string) (f' : gmap (list string) inode) :
  os.mkdir_at w p = inr f' -> os.exists_at (set_nodes f' w) p = true.
Proof.
  intros H. unfold os.exists_at. by rewrite (mkdir_at_stat _ _ _ H).
Qed.

(** After [rmdir(p)] the path [p] names nothing. *)
Lemma rmdir_at_gone (w : World) (p : string) (f' : gmap (list string) inode) :
  os.rmdir_at w p = inr f' -> os.exists_at (set_nodes f' w) p = false.
Proof.
  unfold os.rmdir_at.
  destruct (os.resolve w (os.strip_trailing p)) as [e|k] eqn:Hres; [done|].
  destruct (nodes w !! k) as [[|]|] eqn:Hk; try done.
  destruct (String.eqb _ "."); [done|].
  destruct k as [|k0 k']; [done|]. set (k := k0 :: k') in *.
  destruct (os.children (nodes w) k); [|done].
  intros [= <-].
  destruct (resolve_strip_trailing p) as [n Hn].
  unfold os.exists_at, os.stat. rewrite Hn.
  assert (os.resolve (set_nodes (base.delete k (nodes w)) w) (os.strip_trailing p)
          = inr k
          \/ exists e, os.resolve (set_nodes (base.delete k (nodes w)) w)
                         (os.strip_trailing p) = inl e) as [-> | [e ->]];
    [|cbn [nodes set_nodes]|done].
  { revert Hres. unfold os.resolve. cbn [nodes cwd set_nodes].
    destruct (String.eqb _ _); [done|].
    apply namei_changed_at. intros d Hd. by apply lookup_delete_ne. }
  destruct (os.namei _ k _) as [e|k''] eqn:Hk''; [done|].
  apply namei_empty_components_key in Hk'' as ->.
  by rewrite lookup_delete_eq.
Qed.

(** What [open(p, 'w')] has written, [open(p)] reads. *)
Lemma write_at_read_at (w : World) (p content : string)
    (f' : gmap (list string) inode) :
  os.write_at w p content = inr f' ->
  os.read_at (set_nodes f' w) p = inr content.
Proof.
  unfold os.write_at, os.read_at.
  destruct (os.resolve w p) as [e|k] eqn:Hres; [done|].
  assert (nodes w !! k <> Some Dir ->
          os.resolve (set_nodes (<[k:=File content]> (nodes w)) w) p = inr k)
    as Hsame.
  { intros Hk. revert Hres. unfold os.resolve. cbn [nodes cwd set_nodes].
    destruct (String.eqb _ _); [done|].
    apply namei_mono. intros d Hd.
    rewrite lookup_insert_ne; [done|]. intros <-. congruence. }
  destruct (nodes w !! k) as [[|]|] eqn:Hk; try done.
  - intros [= <-]. rewrite Hsame by done. cbn [nodes set_nodes].
    by rewrite lookup_insert_eq.
  - unfold os.create. destruct k as [|k0 k']; [done|].
    set (k := k0 :: k') in *.
    destruct (nodes w !! removelast k) as [[|]|]; try done.
    intros [= <-]. rewrite Hsame by done. cbn [nodes set_nodes].
    by rewrite lookup_insert_eq.
Qed.

(** ** [connect] by the external mount commands *)

Section Fallback.

Context (host : Host) (s : State) (f1 : gmap (list string) inode).
Context (Hfallback : in_fallback host s f1).

(** No mount command is known for the URL: the statement that is to print
    the complaint looks up [sys]. *)
Lemma connect_unsupported_url :
  mount_command (baseurl (self s)) (root (self s)) = None ->
  connect host s
  = (mkState (self s) (fallback_world s f1), inl (NameError "sys")).
Proof.
  destruct Hfallback as (Havail & Hmissing & Hscheme & Hmkdir).
  intros Hcmd.
  unfold connect, connect_mount, os.path_exists, print, os.mkdir, os.sys_call,
    print_to.
  unfold_monad. cbn [self world].
  rewrite Hmissing, Hscheme, Havail. cbn [andb negb self world].
  change (os.mkdir_at (log _ (world s)) (root (self s)))
    with (os.mkdir_at (world s) (root (self s))).
  rewrite Hmkdir. cbn [self world]. rewrite Hcmd. reflexivity.
Qed.

Lemma connect_fallback (cmd : list string) (retcode : Z)
    (f2 : gmap (list string) inode) :
  mount_command (baseurl (self s)) (root (self s)) = Some cmd ->
  subprocess_call host (fallback_world s f1) cmd = (retcode, f2) ->
  let w2 := set_nodes f2 (log (EvSubprocessCall cmd) (fallback_world s f1)) in
  connect host s
  = if retcode =? 0 then
      (mkState (mkNewFileRepo (baseurl (self s)) (url_scheme (self s))
                  (root (self s)) true) w2,
       if os.exists_at w2 (root (self s)) then inr tt else inl SomeSortOfError)
    else
      match os.rmdir_at w2 (root (self s)) with
      | inl e => (mkState (self s) w2, inl (OSError e))
      | inr f3 => (mkState (self s) (set_nodes f3 w2), inl SomeSortOfError)
      end.
Proof.
  destruct Hfallback as (Havail & Hmissing & Hscheme & Hmkdir).
  intros Hcmd Hcall w2.
  unfold connect, connect_mount, os.path_exists, print, os.mkdir, os.rmdir,
    os.sys_call, call_subprocess, set_we_mounted_repo.
  unfold_monad. cbn [self world].
  rewrite Hmissing, Hscheme, Havail. cbn [andb negb self world].
  change (os.mkdir_at (log _ (world s)) (root (self s)))
    with (os.mkdir_at (world s) (root (self s))).
  rewrite Hmkdir. cbn [self world]. rewrite Hcmd.
  subst w2. unfold fallback_world, attempt_line in *. cbn [self world].
  rewrite Hcall.
  destruct (retcode =? 0); cbn [negb self world root].
  - destruct (os.exists_at (set_nodes f2 _) (root (self s))); reflexivity.
  - destruct (os.rmdir_at (set_nodes f2 _) (root (self s))) as [e|f3] eqn:Hrm;
      [reflexivity|].
    cbn [self world root]. by rewrite (rmdir_at_gone _ _ _ Hrm).
Qed.

Lemma connect_fallback_trace (cmd : list string) :
  mount_command (baseurl (self s)) (root (self s)) = Some cmd ->
  invoked host s cmd.
Proof.
  intros Hcmd. unfold invoked.
  destruct (subprocess_call host (fallback_world s f1) cmd) as [retcode f2] eqn:Hcall.
  rewrite (connect_fallback cmd retcode f2 Hcmd Hcall).
  destruct (retcode =? 0); [reflexivity|].
  destruct (os.rmdir_at _ _); reflexivity.
Qed.

End Fallback.

Lemma startswith_app (p rest : string) : pystr.startswith (p +:+ rest) p = true.
Proof.
  unfold pystr.startswith. induction p as [|a p IH]; [apply prefix_empty|].
  rewrite string_app_cons. cbn [String.prefix].
  by destruct (ascii_dec a a).
Qed.

(** C6, as amended: by the external commands, a base URL [smb:...] calls
    [/sbin/mount_smbfs] with the URL less its first four characters [smb:],
    so with [//host/share] for [smb://host/share]; a base URL [afp:...]
    calls [/sbin/mount_afp -i] with the whole URL; a base URL [nfs://...]
    calls [/sbin/mount_nfs] with the URL less [nfs://]. The root is the last
    argument each time. *)
Theorem fallback_command_selection (host : Host) (s : State)
    (f1 : gmap (list string) inode) (rest : string) :
  in_fallback host s f1 ->
  (baseurl (self s) = "smb:" +:+ rest ->
     invoked host s ["/sbin/mount_smbfs"; rest; root (self s)])
  /\ (baseurl (self s) = "afp:" +:+ rest ->
        invoked host s ["/sbin/mount_afp"; "-i"; baseurl (self s); root (self s)])
  /\ (baseurl (self s) = "nfs://" +:+ rest ->
        invoked host s ["/sbin/mount_nfs"; rest; root (self s)]).
Proof.
  intros Hfb. repeat split; intros Hurl;
    apply (connect_fallback_trace host s f1 Hfb);
    unfold mount_command; rewrite Hurl.
  - change (pystr.startswith ("smb:" +:+ rest) "afp:") with false.
    rewrite startswith_app. cbn iota.
    by change (pystr.slice_from 4 ("smb:" +:+ rest)) with rest.
  - by rewrite startswith_app.
  - change (pystr.startswith ("nfs://" +:+ rest) "afp:") with false.
    change (pystr.startswith ("nfs://" +:+ rest) "smb:") with false.
    rewrite startswith_app. cbn iota.
    by change (pystr.slice_from 6 ("nfs://" +:+ rest)) with rest.
Qed.

Lemma fallback_command_selection_witness :
  invoked (host_without_netfs 0) (mkState repo_smb_host w_volumes)
    ["/sbin/mount_smbfs"; "//host/share"; "/share"].
Proof.
  apply (fallback_command_selection (host_without_netfs 0)
           (mkState repo_smb_host w_volumes)
           (<[["share"] := Dir]> fs_volumes) "//host/share").
  - unfold in_fallback. repeat split; vm_compute; reflexivity.
  - reflexivity.
Defined.

(** C6, as stated, fails: for [smb://host/share] the SMB tool is called with
    [//host/share], and no call with [host/share] is made. *)
Lemma smb_argument_keeps_slashes :
  __init__ "smb://host/share" = inr repo_smb_host
  /\ trace (world (fst (connect (host_without_netfs 0)
                          (mkState repo_smb_host w_volumes))))
     = [EvSubprocessCall ["/sbin/mount_smbfs"; "//host/share"; "/share"];
        EvPrint ["Attempting to mount fileshare smb://host/share:"]]
  /\ forall r,
       EvSubprocessCall ["/sbin/mount_smbfs"; "host/share"; r]
       ∉ trace (world (fst (connect (host_without_netfs 0)
                              (mkState repo_smb_host w_volumes)))).
Proof.
  split; [vm_compute; reflexivity|]. split; [vm_compute; reflexivity|].
  intros r Hin. vm_compute in Hin.
  apply elem_of_cons in Hin as [Heq|Hin]; [discriminate|].
  apply elem_of_cons in Hin as [Heq|Hin]; [discriminate|].
  by apply not_elem_of_nil in Hin.
Qed.

(** C7, as amended: by the external commands, when the mount command exits
    with a code other than 0, [connect] removes the mount directory it made
    and then raises the error of its closing existence check,
    [SomeSortOfError], not [ShareMountException]; the root is then gone and
    the fields are as before. If the directory cannot be removed, the
    [OSError] of [os.rmdir] is raised instead. When the command exits with
    0, [we_mounted_repo] becomes true. *)
Theorem fallback_exit_code (host : Host) (s : State)
    (f1 f2 : gmap (list string) inode) (cmd : list string) (retcode : Z) :
  in_fallback host s f1 ->
  mount_command (baseurl (self s)) (root (self s)) = Some cmd ->
  subprocess_call host (fallback_world s f1) cmd = (retcode, f2) ->
  let w2 := set_nodes f2 (log (EvSubprocessCall cmd) (fallback_world s f1)) in
  (retcode <> 0 ->
     (forall f3, os.rmdir_at w2 (root (self s)) = inr f3 ->
        connect host s = (mkState (self s) (set_nodes f3 w2), inl SomeSortOfError)
        /\ os.exists_at (set_nodes f3 w2) (root (self s)) = false)
     /\ (forall e, os.rmdir_at w2 (root (self s)) = inl e ->
           connect host s = (mkState (self s) w2, inl (OSError e))))
  /\ (retcode = 0 ->
        we_mounted_repo (self (fst (connect host s))) = true).
Proof.
  intros Hfb Hcmd Hcall w2.
  pose proof (connect_fallback host s f1 Hfb cmd retcode f2 Hcmd Hcall) as Hc.
  cbv zeta in Hc. fold w2 in Hc. split.
  - intros Hnz. apply Z.eqb_neq in Hnz. rewrite Hnz in Hc. split.
    + intros f3 Hrm. rewrite Hrm in Hc. split; [exact Hc|].
      by apply rmdir_at_gone.
    + intros e Hrm. by rewrite Hrm in Hc.
  - intros ->. by rewrite Hc.
Qed.

Lemma fallback_exit_code_witness :
  connect (host_without_netfs 1) (mkState repo_smb_host w_volumes)
  = (mkState repo_smb_host
       (set_nodes fs_volumes
          (set_nodes (<[["share"] := Dir]> fs_volumes)
             (log (EvSubprocessCall
                     ["/sbin/mount_smbfs"; "//host/share"; "/share"])
                (fallback_world (mkState repo_smb_host w_volumes)
                   (<[["share"] := Dir]> fs_volumes))))),
     inl SomeSortOfError).
Proof.
  destruct (fallback_exit_code (host_without_netfs 1)
              (mkState repo_smb_host w_volumes)
              (<[["share"] := Dir]> fs_volumes) (<[["share"] := Dir]> fs_volumes)
              ["/sbin/mount_smbfs"; "//host/share"; "/share"] 1)
    as [Hnz _].
  - unfold in_fallback. repeat split; vm_compute; reflexivity.
  - vm_compute; reflexivity.
  - vm_compute; reflexivity.
  - destruct (Hnz ltac:(discriminate)) as [Hrm _].
    refine (proj1 (Hrm fs_volumes _)). vm_compute; reflexivity.
Defined.

(** C7, as stated, fails: the mount command exits with 1, and [connect]
    raises [SomeSortOfError], which is not a [ShareMountException]. *)
Lemma fallback_failure_is_not_mount_failed :
  snd (connect (host_without_netfs 1) (mkState repo_smb_host w_volumes))
  = inl SomeSortOfError
  /\ is_ShareMountException SomeSortOfError = false
  /\ forall msg,
       snd (connect (host_without_netfs 1) (mkState repo_smb_host w_volumes))
       <> inl (ShareMountException msg).
Proof.
  split; [vm_compute; reflexivity|]. split; [reflexivity|].
  intros msg H. vm_compute in H. discriminate H.
Qed.

(** ** The root after [connect] *)

(** As the module is written, [connect] reaches neither of its two
    [return] statements: each comes after a statement that looks up [sys],
    and that raises. *)
Lemma connect_mount_falls_through (host : Host) (s s1 : State) (fl : flow) :
  connect_mount host s = (s1, inr fl) -> fl = Next.
Proof.
  unfold connect_mount, os.path_exists, print, os.mkdir, os.rmdir, os.sys_call,
    print_to, set_we_mounted_repo, set_root, call_subprocess.
  unfold_monad. cbn [self world].
  destruct (negb (os.exists_at (world s) (root (self s)))
            && negb (String.eqb (url_scheme (self s)) "file"));
    [|by intros [= _ <-]].
  cbn [self world].
  destruct (NETFSMOUNTURLSYNC_AVAILABLE host).
  - destruct (mount_share_url host (baseurl (self s)) _) as [w' [err|mp]];
      cbn [self world snd].
    + destruct (is_ShareMountException err); discriminate.
    + by intros [= _ <-].
  - cbn [self world]. rewrite mkdir_at_log.
    destruct (os.mkdir_at (world s) (root (self s))) as [e|f1];
      cbn [self world]; [discriminate|].
    destruct (mount_command (baseurl (self s)) (root (self s))) as [cmd|];
      [|discriminate].
    destruct (subprocess_call host _ cmd) as [retcode f2].
    destruct (retcode =? 0); cbn [negb self world].
    + by intros [= _ <-].
    + destruct (os.rmdir_at _ _); [discriminate|by intros [= _ <-]].
Qed.

(** When [connect] returns, it has made its closing check. *)
Lemma connect_returned_present (host : Host) (s s' : State) :
  connect host s = (s', inr tt) ->
  os.exists_at (world s') (root (self s')) = true.
Proof.
  unfold connect. unfold bind at 1.
  destruct (connect_mount host s) as [s1 [e|fl]] eqn:Hmount; [discriminate|].
  apply connect_mount_falls_through in Hmount as ->.
  unfold os.path_exists. unfold_monad.
  destruct (os.exists_at (world s1) (root (self s1))) eqn:Hpresent;
    cbn [negb]; [|discriminate].
  intros [= <-]. exact Hpresent.
Qed.

(** C3, as amended: when [connect] returns without raising, the root
    exists (as a directory or as a file) at that moment. *)
Theorem connect_success_root_exists (host : Host) (s s' : State) :
  connect host s = (s', inr tt) ->
  os.exists_at (world s') (root (self s')) = true.
Proof. apply connect_returned_present. Qed.

Lemma connect_success_root_exists_witness :
  os.exists_at
    (world (fst (connect (host_netfs 0 0) (mkState repo_smb w_volumes))))
    (root (self (fst (connect (host_netfs 0 0) (mkState repo_smb w_volumes)))))
  = true.
Proof.
  apply (connect_success_root_exists (host_netfs 0 0)
           (mkState repo_smb w_volumes)).
  vm_compute. reflexivity.
Defined.

(** C3, as stated, fails: the root [/tmp/repo] of a [file] repository is a
    regular file; [connect] returns without raising, and the root is not a
    directory. *)
Lemma connect_accepts_file_as_root :
  __init__ "file:///tmp/repo" = inr repo_file
  /\ snd (connect (host_without_netfs 1)
            (mkState repo_file (mkWorld fs_file_root [] [])))
     = inr tt
  /\ os.isdir_at
       (world (fst (connect (host_without_netfs 1)
                      (mkState repo_file (mkWorld fs_file_root [] [])))))
       (root (self (fst (connect (host_without_netfs 1)
                           (mkState repo_file (mkWorld fs_file_root [] []))))))
     = false.
Proof. repeat split; vm_compute; reflexivity. Qed.

(** ** [put] and [get] *)

(** When [put(id, content)] has stored the content, whatever directories
    it had to make on the way, [get(id)] returns exactly [content] and
    changes nothing. *)
Lemma put_then_get (s s' : State) (id content : string) :
  put id content s = (s', inr tt) ->
  get id s' = (s', inr content).
Proof.
  unfold put, get. unfold bind at 1. unfold gets at 1.
  set (p := posixpath.join (root (self s)) id).
  intros Hput.
  assert (Hself : self s' = self s).
  { pose proof (put_preserves_self id content s) as H.
    unfold put in H. unfold bind at 1 in H. unfold gets at 1 in H.
    fold p in H. by rewrite Hput in H. }
  revert Hput. unfold bind at 1.
  destruct (lift (os.path_exists (posixpath.dirname p)) s) as [s1 [e|present]];
    [discriminate|].
  unfold bind at 1.
  destruct ((if negb present then lift (os.makedirs (posixpath.dirname p))
             else ret tt) s1) as [s2 [e|[]]]; [discriminate|].
  rewrite reraising_id. unfold lift, os.open_write, os.sys_call.
  destruct (os.write_at (world s2) p content) as [e|f'] eqn:Hwrite;
    [discriminate|].
  intros [= <-]. cbn [self world] in *.
  unfold bind, gets. cbn [self world]. rewrite Hself. fold p.
  rewrite reraising_id. unfold lift, os.open_read. cbn [self world].
  by rewrite (write_at_read_at _ _ _ _ Hwrite).
Qed.

(** ** Names and joined paths *)

Open Scope list_scope.

Lemma valid_name_spec (n : string) :
  valid_name n = true ->
  n <> "" /\ n <> "." /\ n <> ".." /\ pystr.contains "/" n = false.
Proof.
  unfold valid_name. rewrite !andb_true_iff, !negb_true_iff.
  intros [[[H1 H2] H3] H4].
  apply String.eqb_neq in H1, H2, H3. done.
Qed.

Lemma contains_cons (c a : ascii) (s : string) :
  pystr.contains c (String a s) = Ascii.eqb a c || pystr.contains c s.
Proof.
  unfold pystr.contains. cbn [pystr.find].
  destruct (Ascii.eqb a c); [done|]. by destruct (pystr.find c s).
Qed.

Lemma components_no_slash (n : string) :
  pystr.contains "/" n = false -> os.components n = [n].
Proof.
  induction n as [|a n IH]; [done|].
  rewrite contains_cons. intros [Ha Hn]%orb_false_iff.
  cbn [os.components]. rewrite Ha. by rewrite (IH Hn).
Qed.

Lemma components_app_slash (a b : string) :
  os.components (a +:+ String "/" b) = os.components a ++ os.components b.
Proof.
  induction a as [|x a IH]; [done|].
  rewrite string_app_cons. cbn [os.components]. rewrite IH.
  destruct (Ascii.eqb x "/"); [done|].
  pose proof (components_nonempty a) as Hne.
  by destruct (os.components a).
Qed.

Lemma string_length_app (a b : string) :
  String.length (a +:+ b) = (String.length a + String.length b)%nat.
Proof.
  induction a as [|x a IH]; [done|].
  rewrite string_app_cons. cbn [String.length]. by rewrite IH.
Qed.

Lemma slice_from_length_app (a b : string) :
  pystr.slice_from (String.length a) (a +:+ b) = b.
Proof. induction a as [|x a IH]; [by destruct b|]. exact IH. Qed.

(** A string ends with a slash exactly if it is some string and a slash. *)
Lemma endswith_slash_inv (a : string) :
  pystr.endswith a "/" = true -> exists a', a = a' +:+ "/".
Proof.
  unfold pystr.endswith. rewrite andb_true_iff. intros [Hlen Heq].
  apply Nat.leb_le in Hlen. apply String.eqb_eq in Heq.
  revert Hlen Heq. cbn [String.length].
  induction a as [|x a IH]; cbn [String.length]; [lia|].
  intros _. destruct a as [|y a].
  - cbn. intros [= ->]. by exists "".
  - replace (S (String.length (String y a)) - 1)%nat
      with (S (String.length (String y a) - 1)) by (cbn; lia).
    cbn [pystr.slice_from]. intros H.
    destruct IH as [a' Ha']; [cbn; lia|exact H|].
    exists (String x a'). by rewrite string_app_cons, <- Ha'.
Qed.

Lemma endswith_app_slash (a : string) : pystr.endswith (a +:+ "/") "/" = true.
Proof.
  unfold pystr.endswith. rewrite string_length_app. cbn [String.length].
  apply andb_true_iff. split; [apply Nat.leb_le; lia|].
  replace (String.length a + 1 - 1)%nat with (String.length a) by lia.
  by rewrite slice_from_length_app.
Qed.

(** A string that ends with a name does not end with a slash. *)
Lemma endswith_app_name (a n : string) :
  n <> "" -> pystr.contains "/" n = false ->
  pystr.endswith (a +:+ n) "/" = false.
Proof.
  intros Hne Hn. destruct (pystr.endswith (a +:+ n) "/") eqn:E; [|done].
  apply endswith_slash_inv in E as [a' Ha'].
  exfalso. revert a a' Ha'. induction n as [|x n IH]; [done|].
  intros a a' Ha'. rewrite contains_cons in Hn.
  apply orb_false_iff in Hn as [Hx Hn].
  destruct n as [|y n].
  - clear IH. revert a' Ha'. induction a as [|z a IHa]; intros a' Ha'.
    + destruct a' as [|? [|]]; cbn in Ha'; try discriminate.
      injection Ha' as ->. done.
    + destruct a' as [|z' a'].
      * cbn in Ha'. injection Ha' as -> Ha'. by destruct a.
      * rewrite !string_app_cons in Ha'. injection Ha' as -> Ha'. eauto.
  - apply (IH ltac:(done) Hn (a +:+ String x "") a').
    by rewrite string_app_assoc.
Qed.

Lemma startswith_app_nonempty (a b : string) :
  a <> "" -> pystr.startswith (a +:+ b) "/" = pystr.startswith a "/".
Proof.
  destruct a as [|x a]; [done|]. intros _.
  by rewrite string_app_cons, !startswith_slash_cons.
Qed.

Lemma startswith_name (n : string) :
  n <> "" -> pystr.contains "/" n = false -> pystr.startswith n "/" = false.
Proof.
  destruct n as [|x n]; [done|]. intros _.
  rewrite contains_cons, startswith_slash_cons. by intros [? ?]%orb_false_iff.
Qed.

(** [join] with a name: a slash is put between, unless one is there. *)
Lemma join_name (top n : string) :
  top <> "" -> n <> "" -> pystr.contains "/" n = false ->
  posixpath.join top n
  = if pystr.endswith top "/" then top +:+ n else top +:+ "/" +:+ n.
Proof.
  intros Htop Hne Hn. unfold posixpath.join.
  rewrite (startswith_name n Hne Hn).
  apply String.eqb_neq in Htop. by rewrite Htop.
Qed.

(** ** Well-formed file systems *)

Section Wf.

Context (f : gmap (list string) inode).
Context (Hwf : wf_fs f = true).

Lemma wf_root : f !! [] = Some Dir.
Proof.
  unfold wf_fs in Hwf. apply andb_true_iff in Hwf as [H _].
  by apply bool_decide_eq_true in H.
Qed.

Lemma wf_entry (k : list string) (n : string) (x : inode) :
  f !! (k ++ [n]) = Some x -> valid_name n = true /\ f !! k = Some Dir.
Proof.
  intros Hk. unfold wf_fs in Hwf. apply andb_true_iff in Hwf as [_ Hall].
  rewrite forallb_forall in Hall.
  specialize (Hall (k ++ [n])).
  assert (Hin : In (k ++ [n]) (map_to_list f).*1).
  { apply list_elem_of_In, list_elem_of_fmap. exists (k ++ [n], x).
    split; [done|]. by apply elem_of_map_to_list. }
  specialize (Hall Hin). unfold wf_key in Hall.
  destruct (k ++ [n]) as [|k0 k'] eqn:Hk'; [by destruct k|].
  rewrite <- Hk' in Hall. rewrite last_last, removelast_last in Hall.
  apply andb_true_iff in Hall as [Hn Hd].
  by apply bool_decide_eq_true in Hd.
Qed.

(** What lies above an object is a directory. *)
Lemma wf_above (k l : list string) (x : inode) :
  l <> [] -> f !! (k ++ l) = Some x -> f !! k = Some Dir.
Proof.
  revert x. induction l as [|n l IH] using rev_ind; intros x; [done|].
  intros _. rewrite app_assoc. intros [_ Hd]%wf_entry.
  destruct l as [|? ?]; [by rewrite app_nil_r in Hd|]. by apply IH in Hd.
Qed.

End Wf.

(** ** The entries of a directory *)

Lemma strip_prefix_spec (k k' l : list string) :
  os.strip_prefix k k' = Some l <-> k' = k ++ l.
Proof.
  revert k'. induction k as [|a k IH]; intros k'; cbn.
  { split; congruence. }
  destruct k' as [|b k']; [done|].
  destruct (String.eqb_spec a b) as [->|Hne].
  - rewrite IH. split; congruence.
  - split; [done|]. congruence.
Qed.

Lemma child_of_spec (k k' : list string) (n : string) :
  os.child_of k k' = Some n <-> k' = k ++ [n].
Proof.
  unfold os.child_of.
  destruct (os.strip_prefix k k') as [l|] eqn:Hl.
  - apply strip_prefix_spec in Hl as ->.
    destruct l as [|m [|? ?]]; split; try done.
    + intros H. by apply app_inv_head in H.
    + congruence.
    + intros H. by apply app_inv_head in H as [= ->].
    + intros H. by apply app_inv_head in H.
  - split; [done|]. intros ->.
    assert (os.strip_prefix k (k ++ [n]) = Some [n]) by by apply strip_prefix_spec.
    congruence.
Qed.

Lemma elem_of_children (f : gmap (list string) inode) (k : list string)
    (n : string) :
  n ∈ os.children f k <-> is_Some (f !! (k ++ [n])).
Proof.
  unfold os.children. rewrite list_elem_of_omap. split.
  - intros (k' & Hin & Hc). apply child_of_spec in Hc as ->.
    apply list_elem_of_fmap in Hin as ([k'' x] & -> & Hin).
    apply elem_of_map_to_list in Hin. by exists x.
  - intros [x Hx]. exists (k ++ [n]). split; [|by apply child_of_spec].
    apply list_elem_of_fmap. exists (k ++ [n], x). split; [done|].
    by apply elem_of_map_to_list.
Qed.

Lemma depth_bound (f : gmap (list string) inode) (k : list string) (x : inode) :
  f !! k = Some x -> (List.length k <= os.depth f)%nat.
Proof.
  intros Hk. unfold os.depth. apply max_list_elem_of_le.
  apply list_elem_of_fmap. exists k. split; [done|].
  apply list_elem_of_fmap. exists (k, x). split; [done|].
  by apply elem_of_map_to_list.
Qed.

(** ** Looking up a joined path *)

Section Lookup_join.

Context (w : World).

(** In a directory, the path joined with a name leads to the entry of that
    name. *)
Lemma resolve_join_name (top n : string) (k : list string) :
  os.resolve w top = inr k -> nodes w !! k = Some Dir ->
  valid_name n = true ->
  os.resolve w (posixpath.join top n) = inr (k ++ [n]).
Proof.
  intros Hres Hk (Hne & Hdot & Hdotdot & Hslash)%valid_name_spec.
  assert (Htop : top <> "").
  { intros ->. by unfold os.resolve in Hres. }
  assert (Hstep : forall cur, nodes w !! cur = Some Dir ->
            os.namei (nodes w) cur [n] = inr (cur ++ [n])).
  { intros cur Hcur. cbn [os.namei]. rewrite Hcur.
    apply String.eqb_neq in Hne, Hdot, Hdotdot.
    by rewrite Hne, Hdot, Hdotdot. }
  rewrite (join_name top n Htop Hne Hslash).
  revert Hres. unfold os.resolve.
  apply String.eqb_neq in Htop as Htop'. rewrite Htop'.
  destruct (pystr.endswith top "/") eqn:Hend.
  - apply endswith_slash_inv in Hend as [a ->].
    rewrite string_app_assoc.
    change ("/" +:+ n) with (String "/" n).
    rewrite !components_app_slash, (components_no_slash n Hslash).
    change (os.components "") with [""].
    destruct (String.eqb_spec (a +:+ String "/" n) "") as [He|_].
    { by destruct a. }
    assert (pystr.startswith (a +:+ String "/" n) "/"
            = pystr.startswith (a +:+ "/") "/") as ->.
    { destruct a as [|x a].
      - by rewrite !string_app_nil_l, !startswith_slash_cons.
      - by rewrite !string_app_cons, !startswith_slash_cons. }
    rewrite !namei_app.
    destruct (os.namei (nodes w) _ (os.components a)) as [e|k']; [done|].
    intros Hk'. assert (k = k') as <-.
    { apply (namei_empty_components_key (nodes w) k' k 1). exact Hk'. }
    by apply Hstep.
  - change (top +:+ "/" +:+ n) with (top +:+ String "/" n).
    rewrite components_app_slash, (components_no_slash n Hslash).
    destruct (String.eqb_spec (top +:+ String "/" n) "") as [He|_].
    { by destruct top. }
    rewrite (startswith_app_nonempty top _ Htop), namei_app.
    intros ->. by apply Hstep.
Qed.

End Lookup_join.

(** ** [os.walk] *)

Section Walk.

Context (w : World).
Context (Hwf : wf_fs (nodes w) = true).

Lemma listdir_at_dir (top : string) (k : list string) :
  os.resolve w top = inr k -> nodes w !! k = Some Dir ->
  os.listdir_at w top = inr (os.children (nodes w) k).
Proof. intros Hres Hk. unfold os.listdir_at. by rewrite Hres, Hk. Qed.

Lemma isdir_at_child (top n : string) (k : list string) :
  os.resolve w top = inr k -> nodes w !! k = Some Dir ->
  n ∈ os.children (nodes w) k ->
  os.resolve w (posixpath.join top n) = inr (k ++ [n])
  /\ (os.isdir_at w (posixpath.join top n) = true
      <-> nodes w !! (k ++ [n]) = Some Dir).
Proof.
  intros Hres Hk [x Hx]%elem_of_children.
  destruct (wf_entry _ Hwf _ _ _ Hx) as [Hn _].
  pose proof (resolve_join_name w top n k Hres Hk Hn) as Hj.
  split; [exact Hj|].
  unfold os.isdir_at, os.stat. rewrite Hj, Hx.
  destruct x; split; congruence.
Qed.

(** The files that [os.walk] reports below [top] are the regular files
    below the directory that [top] names. *)
Lemma walk_fuel_files (n : nat) (top : string) (k : list string) :
  os.resolve w top = inr k -> nodes w !! k = Some Dir ->
  (os.depth (nodes w) < n + List.length k)%nat ->
  forall abs,
    abs ∈ walk_files (os.walk_fuel n w top)
    <-> exists names nm data,
          nodes w !! (k ++ names ++ [nm]) = Some (File data)
          /\ abs = posixpath.join (joins top names) nm.
Proof.
  revert top k. induction n as [|n IH]; intros top k Hres Hk Hfuel abs.
  { cbn. split; [by intros ?%not_elem_of_nil|].
    intros (names & nm & data & Hfile & _).
    apply depth_bound in Hfile. rewrite !length_app in Hfile. cbn in *. lia. }
  cbn [os.walk_fuel]. rewrite (listdir_at_dir top k Hres Hk).
  set (names0 := os.children (nodes w) k).
  cbn [walk_files flat_map]. fold walk_files.
  rewrite elem_of_app.
  assert (Hsub : forall l,
      abs ∈ walk_files
              (flat_map (fun name => os.walk_fuel n w (posixpath.join top name)) l)
      <-> exists d, d ∈ l
            /\ abs ∈ walk_files (os.walk_fuel n w (posixpath.join top d))).
  { induction l as [|d l IHl]; cbn [flat_map].
    - split; [by intros ?%not_elem_of_nil|]. by intros (d & ?%not_elem_of_nil & _).
    - unfold walk_files at 1. rewrite flat_map_app. fold walk_files.
      rewrite elem_of_app, IHl. split.
      + intros [H|(d' & Hd' & H)].
        * exists d. split; [left|done].
        * exists d'. split; [by right|done].
      + intros (d' & [->|Hd']%elem_of_cons & H); [by left|right; eauto]. }
  rewrite Hsub. clear Hsub. split.
  - intros [Hfile|(d & Hd & Hin)].
    + apply list_elem_of_fmap in Hfile as (nm & -> & Hnm).
      apply list_elem_of_In, filter_In in Hnm as [Hnm Hnd].
      apply list_elem_of_In in Hnm.
      destruct (isdir_at_child top nm k Hres Hk Hnm) as [_ Hiff].
      apply elem_of_children in Hnm as [x Hx].
      exists [], nm. destruct x as [data|].
      * by exists data.
      * apply negb_true_iff in Hnd. apply Hiff in Hx. congruence.
    + apply list_elem_of_In, filter_In in Hd as [Hd Hdir].
      apply list_elem_of_In in Hd.
      destruct (isdir_at_child top d k Hres Hk Hd) as [Hj Hiff].
      apply Hiff in Hdir.
      apply (IH _ _ Hj Hdir) in Hin as (names & nm & data & Hfile & ->).
      * exists (d :: names), nm, data. split; [|done].
        by rewrite <- app_assoc in Hfile.
      * rewrite length_app. cbn. lia.
  - intros (names & nm & data & Hfile & ->).
    destruct names as [|d names].
    + left. apply list_elem_of_fmap. exists nm. split; [done|].
      assert (Hnm : nm ∈ names0) by (apply elem_of_children; eauto).
      apply list_elem_of_In, filter_In. split; [by apply list_elem_of_In|].
      apply negb_true_iff.
      destruct (isdir_at_child top nm k Hres Hk Hnm) as [_ Hiff].
      destruct (os.isdir_at w (posixpath.join top nm)); [|done].
      destruct Hiff as [Hiff _]. specialize (Hiff eq_refl). cbn in Hfile.
      congruence.
    + right. exists d.
      assert (Hdir : nodes w !! (k ++ [d]) = Some Dir).
      { apply (wf_above _ Hwf (k ++ [d]) (names ++ [nm]) (File data));
          [by destruct names|].
        by rewrite <- app_assoc. }
      assert (Hd : d ∈ names0) by (apply elem_of_children; eauto).
      destruct (isdir_at_child top d k Hres Hk Hd) as [Hj Hiff].
      split.
      * apply list_elem_of_In, filter_In. split; [by apply list_elem_of_In|].
        by apply Hiff.
      * apply (IH _ _ Hj Hdir); [rewrite length_app; cbn; lia|].
        exists names, nm, data. split; [|done]. by rewrite <- app_assoc.
Qed.

Lemma walk_files_spec (top : string) (k : list string) :
  os.resolve w top = inr k -> nodes w !! k = Some Dir ->
  forall abs,
    abs ∈ walk_files (os.walk w top)
    <-> exists names nm data,
          nodes w !! (k ++ names ++ [nm]) = Some (File data)
          /\ abs = posixpath.join (joins top names) nm.
Proof.
  intros Hres Hk. apply walk_fuel_files; [done|done|lia].
Qed.

(** Nothing is reported where [top] names no directory. *)
Lemma walk_not_dir (top : string) :
  os.isdir_at w top = false -> os.walk w top = [].
Proof.
  unfold os.walk, os.isdir_at, os.stat. cbn [os.walk_fuel].
  unfold os.listdir_at.
  destruct (os.resolve w top) as [e|k]; [done|].
  by destruct (nodes w !! k) as [[|]|].
Qed.

End Walk.

(** ** Relative paths *)

Lemma wf_names_valid (f : gmap (list string) inode) (k l : list string)
    (x : inode) :
  wf_fs f = true -> f !! (k ++ l) = Some x ->
  Forall (fun n => valid_name n = true) l.
Proof.
  intros Hwf. revert x. induction l as [|n l IH] using rev_ind; intros x Hx.
  { constructor. }
  rewrite app_assoc in Hx.
  destruct (wf_entry _ Hwf _ _ _ Hx) as [Hn Hd].
  apply Forall_app. split; [by eapply IH|]. by repeat constructor.
Qed.

Lemma concat_cons_cons (sep a b : string) (l : list string) :
  String.concat sep (a :: b :: l) = a +:+ sep +:+ String.concat sep (b :: l).
Proof. reflexivity. Qed.

Lemma concat_names_nonempty (l : list string) :
  l <> [] -> Forall (fun n => valid_name n = true) l ->
  String.concat "/" l <> ""
  /\ pystr.startswith (String.concat "/" l) "/" = false.
Proof.
  destruct l as [|a l]; [done|]. intros _ Hall.
  apply Forall_cons in Hall as [(Hne & _ & _ & Hslash)%valid_name_spec _].
  assert (forall rest, a +:+ rest <> ""
            /\ pystr.startswith (a +:+ rest) "/" = false) as Ha.
  { intros rest. destruct a as [|x a]; [done|]. rewrite string_app_cons.
    split; [done|]. rewrite startswith_slash_cons.
    rewrite contains_cons in Hslash. by apply orb_false_iff in Hslash as [? _]. }
  destruct l as [|b l].
  - cbn [String.concat]. rewrite <- (string_app_nil_r a). apply Ha.
  - rewrite concat_cons_cons. apply Ha.
Qed.

(** A path that ends with names does not end with a slash. *)
Lemma endswith_concat_names (a : string) (l : list string) :
  l <> [] -> Forall (fun n => valid_name n = true) l ->
  pystr.endswith (a +:+ String.concat "/" l) "/" = false.
Proof.
  revert a. induction l as [|n l IH]; [done|]. intros a _ Hall.
  apply Forall_cons in Hall as [(Hne & _ & _ & Hslash)%valid_name_spec Hall].
  destruct l as [|m l].
  - cbn [String.concat]. by apply endswith_app_name.
  - rewrite concat_cons_cons, <- !string_app_assoc. by apply IH.
Qed.

Lemma joins_names (top : string) (l : list string) :
  top <> "" -> l <> [] -> Forall (fun n => valid_name n = true) l ->
  joins top l = top +:+ separator top +:+ String.concat "/" l.
Proof.
  intros Htop. revert top Htop. induction l as [|n l IH]; [done|].
  intros top Htop _ Hall.
  apply Forall_cons in Hall as [Hn Hall].
  pose proof Hn as (Hne & _ & _ & Hslash)%valid_name_spec.
  unfold joins. cbn [fold_left]. fold (joins (posixpath.join top n) l).
  assert (Hj : posixpath.join top n = top +:+ separator top +:+ n).
  { rewrite (join_name top n Htop Hne Hslash). unfold separator.
    by destruct (pystr.endswith top "/"). }
  destruct l as [|m l]; [exact Hj|].
  rewrite IH; [|by rewrite Hj; destruct top|done|done].
  rewrite Hj, concat_cons_cons.
  assert (separator (top +:+ separator top +:+ n) = "/") as ->.
  { unfold separator at 1.
    by rewrite <- string_app_assoc, (endswith_app_name _ n Hne Hslash). }
  by rewrite !string_app_assoc.
Qed.

Lemma lstrip_not_slash (c : string) :
  pystr.startswith c "/" = false -> pystr.lstrip "/" c = c.
Proof.
  destruct c as [|x c]; [done|]. rewrite startswith_slash_cons.
  cbn [pystr.lstrip]. by intros ->.
Qed.

(** What [itemlist] makes of the path of a file below [top]: the names that
    lead to the file from [top], joined by slashes. *)
Lemma relative_path (top : string) (l : list string) :
  top <> "" -> l <> [] -> Forall (fun n => valid_name n = true) l ->
  pystr.lstrip "/" (pystr.slice_from (String.length top) (joins top l))
  = String.concat "/" l.
Proof.
  intros Htop Hl Hall. rewrite (joins_names top l Htop Hl Hall).
  rewrite slice_from_length_app.
  destruct (concat_names_nonempty l Hl Hall) as [_ Hstart].
  unfold separator. destruct (pystr.endswith top "/").
  - rewrite string_app_nil_l. by apply lstrip_not_slash.
  - change ("/" +:+ String.concat "/" l) with (String "/" (String.concat "/" l)).
    cbn [pystr.lstrip]. change (Ascii.eqb "/" "/") with true.
    by apply lstrip_not_slash.
Qed.

Lemma joins_snoc (top : string) (l : list string) (n : string) :
  joins top (l ++ [n]) = posixpath.join (joins top l) n.
Proof. unfold joins. by rewrite fold_left_app. Qed.

(** ** [itemlist] *)

Lemma itemlist_run (s : State) (kind : string) :
  itemlist kind s
  = (s, inr (List.map
               (fun abs =>
                  pystr.lstrip "/"
                    (pystr.slice_from
                       (String.length (posixpath.join (root (self s)) kind))
                       abs))
               (walk_files
                  (os.walk (world s) (posixpath.join (root (self s)) kind))))).
Proof.
  unfold itemlist. unfold_monad. destruct s as [r w]. cbn [self world].
  f_equal. f_equal. unfold walk_files.
  induction (os.walk w _) as [|[[d ds] fs] l IH]; [done|].
  cbn [flat_map]. rewrite map_app, IH. f_equal.
  by rewrite map_map.
Qed.

(** ** Each file once *)

Lemma NoDup_list_filter {A} (p : A -> bool) (l : list A) :
  NoDup l -> NoDup (List.filter p l).
Proof.
  induction 1 as [|x l Hx Hl IH]; cbn [List.filter]; [constructor|].
  destruct (p x); [|done]. constructor; [|done].
  intros Hin. apply Hx.
  apply list_elem_of_In, filter_In in Hin as [Hin _]. by apply list_elem_of_In.
Qed.

Lemma NoDup_omap_inj {A B} (g : A -> option B) (l : list A) :
  (forall x y z, g x = Some z -> g y = Some z -> x = y) ->
  NoDup l -> NoDup (omap g l).
Proof.
  intros Hinj. induction 1 as [|x l Hx Hl IH]; simpl; [constructor|].
  destruct (g x) as [z|] eqn:Hz; [|done]. constructor; [|done].
  intros (y & Hy & Hgy)%list_elem_of_omap.
  by rewrite (Hinj x y z Hz Hgy) in Hx.
Qed.

Lemma NoDup_flat_map {A B} (g : A -> list B) (l : list A) :
  NoDup l ->
  (forall x, x ∈ l -> NoDup (g x)) ->
  (forall x y z, x ∈ l -> y ∈ l -> z ∈ g x -> z ∈ g y -> x = y) ->
  NoDup (flat_map g l).
Proof.
  induction 1 as [|x l Hx Hl IH]; intros Heach Hdisj; cbn [flat_map];
    [constructor|].
  apply NoDup_app. split; [apply Heach; by left|]. split.
  - intros z Hz Hin. apply list_elem_of_In, in_flat_map in Hin as (y & Hy & Hzy).
    apply list_elem_of_In in Hy, Hzy.
    assert (x = y) as <- by (apply (Hdisj x y z); [by left|by right|done|done]).
    done.
  - apply IH.
    + intros y Hy. apply Heach. by right.
    + intros y y' z Hy Hy'. apply Hdisj; by right.
Qed.

Lemma NoDup_children (f : gmap (list string) inode) (k : list string) :
  NoDup (os.children f k).
Proof.
  unfold os.children. apply NoDup_omap_inj; [|apply NoDup_fst_map_to_list].
  intros k1 k2 n H1 H2. apply child_of_spec in H1, H2. congruence.
Qed.

Lemma walk_files_flat_map {A} (g : A -> list (string * list string * list string))
    (l : list A) :
  walk_files (flat_map g l) = flat_map (fun d => walk_files (g d)) l.
Proof.
  unfold walk_files. induction l as [|d l IH]; [done|]. cbn [flat_map].
  by rewrite flat_map_app, IH.
Qed.

(** The names can be read off a path made of them. *)
Lemma components_concat_names (l : list string) :
  l <> [] -> Forall (fun n => valid_name n = true) l ->
  os.components (String.concat "/" l) = l.
Proof.
  induction l as [|a l IH]; [done|]. intros _ Hall.
  apply Forall_cons in Hall as [(_ & _ & _ & Hslash)%valid_name_spec Hall].
  destruct l as [|b l]; [by apply components_no_slash|].
  rewrite concat_cons_cons.
  change ("/" +:+ String.concat "/" (b :: l))
    with (String "/" (String.concat "/" (b :: l))).
  rewrite components_app_slash, (components_no_slash a Hslash), IH; done.
Qed.

Lemma joins_inj (top : string) (l1 l2 : list string) :
  top <> "" ->
  l1 <> [] -> Forall (fun n => valid_name n = true) l1 ->
  l2 <> [] -> Forall (fun n => valid_name n = true) l2 ->
  joins top l1 = joins top l2 -> l1 = l2.
Proof.
  intros Htop Hl1 Hv1 Hl2 Hv2.
  rewrite (joins_names top l1 Htop Hl1 Hv1), (joins_names top l2 Htop Hl2 Hv2).
  intros H. apply String.app_inj, String.app_inj in H.
  rewrite <- (components_concat_names l1 Hl1 Hv1).
  rewrite <- (components_concat_names l2 Hl2 Hv2). by rewrite H.
Qed.

Section Walk_once.

Context (w : World).
Context (Hwf : wf_fs (nodes w) = true).

(** What [walk_files_spec] says, with the path as one list of names. *)
Lemma walk_fuel_files_names (n : nat) (top : string) (k : list string)
    (abs : string) :
  os.resolve w top = inr k -> nodes w !! k = Some Dir ->
  (os.depth (nodes w) < n + List.length k)%nat ->
  abs ∈ walk_files (os.walk_fuel n w top) ->
  exists l, l <> [] /\ Forall (fun n => valid_name n = true) l
            /\ abs = joins top l.
Proof using Hwf.
  intros Hres Hk Hfuel Hin.
  apply (walk_fuel_files w Hwf n top k Hres Hk Hfuel)
    in Hin as (names & nm & data & Hfile & ->).
  exists (names ++ [nm]). split; [by destruct names|]. split.
  - by apply (wf_names_valid (nodes w) k _ _ Hwf Hfile).
  - by rewrite joins_snoc.
Qed.

Lemma walk_fuel_files_NoDup (n : nat) :
  forall top k,
    os.resolve w top = inr k -> nodes w !! k = Some Dir ->
    (os.depth (nodes w) < n + List.length k)%nat ->
    NoDup (walk_files (os.walk_fuel n w top)).
Proof using Hwf.
  induction n as [|n IH]; intros top k Hres Hk Hfuel; [constructor|].
  assert (Htop : top <> "").
  { intros E. rewrite E in Hres. by unfold os.resolve in Hres. }
  cbn [os.walk_fuel]. rewrite (listdir_at_dir w top k Hres Hk).
  set (names0 := os.children (nodes w) k).
  cbn [walk_files flat_map]. fold walk_files. rewrite walk_files_flat_map.
  assert (Hvalid : forall d, d ∈ names0 -> valid_name d = true).
  { intros d [x Hx]%elem_of_children. by destruct (wf_entry _ Hwf _ _ _ Hx). }
  assert (Hsub : forall d,
            In d (List.filter
                    (fun name => os.isdir_at w (posixpath.join top name)) names0) ->
            d ∈ names0
            /\ os.resolve w (posixpath.join top d) = inr (k ++ [d])
            /\ nodes w !! (k ++ [d]) = Some Dir).
  { intros d [Hd Hdir]%filter_In. apply list_elem_of_In in Hd.
    destruct (isdir_at_child w Hwf top d k Hres Hk Hd) as [Hj Hiff].
    by apply Hiff in Hdir. }
  assert (Hbelow : forall d abs,
            In d (List.filter
                    (fun name => os.isdir_at w (posixpath.join top name)) names0) ->
            abs ∈ walk_files (os.walk_fuel n w (posixpath.join top d)) ->
            exists l, Forall (fun n => valid_name n = true) (d :: l) /\ l <> []
                      /\ abs = joins top (d :: l)).
  { intros d abs Hd Hin. destruct (Hsub d Hd) as (Hd' & Hj & Hdir).
    apply (walk_fuel_files_names n _ (k ++ [d]) abs Hj Hdir)
      in Hin as (l & Hl & Hv & ->); [|rewrite length_app; cbn; lia].
    exists l. split; [|done]. constructor; [by apply Hvalid|done]. }
  apply NoDup_app. split; [|split].
  - apply NoDup_fmap_2_strong.
    + intros a b Ha Hb Heq.
      apply list_elem_of_In, filter_In in Ha as [Ha _], Hb as [Hb _].
      apply list_elem_of_In in Ha, Hb.
      assert ([a] = [b]) as [= ->]; [|done].
      apply (joins_inj top); try done; repeat constructor; by apply Hvalid.
    + apply NoDup_list_filter, NoDup_children.
  - intros abs (nm & -> & Hnm)%list_elem_of_fmap Hin.
    apply list_elem_of_In, filter_In in Hnm as [Hnm _].
    apply list_elem_of_In in Hnm.
    apply list_elem_of_In, in_flat_map in Hin as (d & Hd & Hin).
    apply list_elem_of_In in Hin.
    destruct (Hbelow d _ Hd Hin) as (l & Hv & Hl & Heq).
    assert ([nm] = d :: l) as [= _ <-]; [|done].
    apply (joins_inj top); try done. repeat constructor. by apply Hvalid.
  - apply NoDup_flat_map.
    + apply NoDup_list_filter, NoDup_children.
    + intros d Hd%list_elem_of_In. destruct (Hsub d Hd) as (_ & Hj & Hdir).
      apply (IH _ (k ++ [d]) Hj Hdir). rewrite length_app. cbn. lia.
    + intros d d' abs Hd%list_elem_of_In Hd'%list_elem_of_In Hin Hin'.
      destruct (Hbelow d _ Hd Hin) as (l & Hv & Hl & ->).
      destruct (Hbelow d' _ Hd' Hin') as (l' & Hv' & Hl' & Heq).
      by apply (joins_inj top) in Heq as [= -> _].
Qed.

End Walk_once.

(** C8: [itemlist(kind)] returns, whatever the file system, and leaves
    everything as it is. If [root/kind] does not exist (or is no directory),
    the list is empty. On a well-formed file system, if [root/kind] is a
    directory, the list holds exactly the relative paths of the regular
    files below it: for each such file the names that lead to it from that
    directory, joined by slashes; no path in the list begins with a slash,
    and none is listed twice. *)
Theorem itemlist_lists_files (s : State) (kind : string) :
  exists l,
    itemlist kind s = (s, inr l)
    /\ (os.exists_at (world s) (posixpath.join (root (self s)) kind) = false ->
        l = [])
    /\ (os.isdir_at (world s) (posixpath.join (root (self s)) kind) = false ->
        l = [])
    /\ (wf_fs (nodes (world s)) = true ->
        (forall k,
           os.resolve (world s) (posixpath.join (root (self s)) kind) = inr k ->
           nodes (world s) !! k = Some Dir ->
           forall rel,
             rel ∈ l
             <-> exists names data,
                   names <> []
                   /\ nodes (world s) !! (k ++ names) = Some (File data)
                   /\ rel = String.concat "/" names)
        /\ (forall rel, rel ∈ l -> pystr.startswith rel "/" = false)
        /\ NoDup l).
Proof.
  rewrite itemlist_run.
  set (top := posixpath.join (root (self s)) kind).
  eexists. split; [reflexivity|].
  assert (Hempty : os.isdir_at (world s) top = false ->
            List.map (fun abs => pystr.lstrip "/"
                        (pystr.slice_from (String.length top) abs))
              (walk_files (os.walk (world s) top)) = []).
  { intros Hnd. by rewrite (walk_not_dir _ _ Hnd). }
  split; [|split; [exact Hempty|]].
  { intros Hmissing. apply Hempty.
    unfold os.isdir_at. unfold os.exists_at in Hmissing.
    by destruct (os.stat (world s) top). }
  intros Hwf.
  assert (Hchar : forall k,
            os.resolve (world s) top = inr k ->
            nodes (world s) !! k = Some Dir ->
            forall rel,
              rel ∈ List.map (fun abs => pystr.lstrip "/"
                                (pystr.slice_from (String.length top) abs))
                      (walk_files (os.walk (world s) top))
              <-> exists names data,
                    names <> []
                    /\ nodes (world s) !! (k ++ names) = Some (File data)
                    /\ rel = String.concat "/" names).
  { intros k Hres Hk rel.
    assert (Htop : top <> "").
    { intros E. rewrite E in Hres. by unfold os.resolve in Hres. }
    change (List.map ?g ?l) with (g <$> l). rewrite list_elem_of_fmap. split.
    - intros (abs & -> & Hin).
      apply (walk_files_spec _ Hwf top k Hres Hk)
        in Hin as (names & nm & data & Hfile & ->).
      exists (names ++ [nm]), data. split; [by destruct names|].
      split; [done|]. rewrite <- joins_snoc.
      apply relative_path; [done|by destruct names|].
      by apply (wf_names_valid _ k _ _ Hwf Hfile).
    - intros (names & data & Hne & Hfile & ->).
      destruct names as [|n names _] using rev_ind; [done|].
      exists (posixpath.join (joins top names) n). split.
      + rewrite <- joins_snoc. symmetry.
        apply relative_path; [done|by destruct names|].
        by apply (wf_names_valid _ k _ _ Hwf Hfile).
      + apply (walk_files_spec _ Hwf top k Hres Hk). eauto. }
  split; [exact Hchar|].
  destruct (os.isdir_at (world s) top) eqn:Hdir.
  - unfold os.isdir_at, os.stat in Hdir.
    destruct (os.resolve (world s) top) as [e|k] eqn:Hres; [done|].
    destruct (nodes (world s) !! k) as [[|]|] eqn:Hk; try done.
    split.
    + intros rel Hrel.
      apply (Hchar k eq_refl Hk) in Hrel as (names & data & Hne & Hfile & ->).
      apply concat_names_nonempty; [done|].
      by apply (wf_names_valid _ k _ _ Hwf Hfile).
    + assert (Htop : top <> "").
      { intros E. rewrite E in Hres. by unfold os.resolve in Hres. }
      assert (Hfuel : (os.depth (nodes (world s))
                       < S (os.depth (nodes (world s))) + List.length k)%nat)
        by lia.
      change (List.map ?g ?l) with (g <$> l). apply NoDup_fmap_2_strong.
      * intros x y Hx Hy.
        apply (walk_fuel_files_names _ Hwf _ top k x Hres Hk Hfuel)
          in Hx as (lx & Hlx & Hvx & ->).
        apply (walk_fuel_files_names _ Hwf _ top k y Hres Hk Hfuel)
          in Hy as (ly & Hly & Hvy & ->).
        rewrite (relative_path top lx Htop Hlx Hvx).
        rewrite (relative_path top ly Htop Hly Hvy).
        intros Heq.
        rewrite <- (components_concat_names lx Hlx Hvx).
        rewrite <- (components_concat_names ly Hly Hvy). by rewrite Heq.
      * by apply (walk_fuel_files_NoDup _ Hwf _ top k Hres Hk).
  - rewrite (Hempty eq_refl). split; [|constructor].
    intros rel Hrel. by apply not_elem_of_nil in Hrel.
Qed.

(** ** [split] of a joined path *)

Lemma rfind_no_occurrence (c : ascii) (n : string) :
  pystr.contains c n = false -> pystr.rfind c n = None.
Proof.
  induction n as [|x n IH]; [done|].
  rewrite contains_cons. intros [Hx Hn]%orb_false_iff.
  cbn [pystr.rfind]. by rewrite (IH Hn), Hx.
Qed.

Lemma rfind_app_name (c : ascii) (h n : string) :
  pystr.contains c n = false ->
  pystr.rfind c (h +:+ String c n) = Some (String.length h).
Proof.
  intros Hn. induction h as [|x h IH].
  - rewrite string_app_nil_l. cbn [pystr.rfind String.length].
    by rewrite (rfind_no_occurrence c n Hn), Ascii.eqb_refl.
  - rewrite string_app_cons. cbn [pystr.rfind String.length]. by rewrite IH.
Qed.

Lemma slice_to_length_app (a b : string) :
  pystr.slice_to (String.length a) (a +:+ b) = a.
Proof.
  induction a as [|x a IH]; [by destruct b|].
  rewrite string_app_cons. cbn [String.length pystr.slice_to]. by rewrite IH.
Qed.

Lemma lstrip_app_slash (a : string) :
  pystr.lstrip "/" (a +:+ "/") = "" <-> pystr.lstrip "/" a = "".
Proof.
  induction a as [|x a IH]; [done|].
  rewrite string_app_cons. cbn [pystr.lstrip].
  destruct (Ascii.eqb x "/"); [exact IH|done].
Qed.

Lemma all_slashes_app_slash (a : string) :
  posixpath.all_slashes (a +:+ "/") = posixpath.all_slashes a.
Proof.
  unfold posixpath.all_slashes.
  destruct (String.eqb_spec (pystr.lstrip "/" a) "") as [Ha|Ha];
    destruct (String.eqb_spec (pystr.lstrip "/" (a +:+ "/")) "") as [Hb|Hb];
    try done.
  - exfalso. apply Hb. by apply lstrip_app_slash.
  - exfalso. apply Ha. by apply lstrip_app_slash.
Qed.

Lemma rstrip_app_slash (a : string) :
  pystr.rstrip "/" (a +:+ "/") = pystr.rstrip "/" a.
Proof.
  induction a as [|x a IH]; [done|].
  rewrite string_app_cons. cbn [pystr.rstrip]. by rewrite IH.
Qed.

Lemma rstrip_app_name (a n : string) :
  n <> "" -> pystr.contains "/" n = false ->
  pystr.rstrip "/" (a +:+ n) = a +:+ n.
Proof.
  intros Hne Hn.
  assert (Hbase : pystr.rstrip "/" n = n).
  { clear Hne. induction n as [|x n IH]; [done|].
    rewrite contains_cons in Hn. apply orb_false_iff in Hn as [Hx Hn].
    cbn [pystr.rstrip]. rewrite (IH Hn). destruct n; [by rewrite Hx|done]. }
  induction a as [|x a IH]; [by rewrite string_app_nil_l|].
  rewrite string_app_cons. cbn [pystr.rstrip]. rewrite IH.
  destruct (a +:+ n) eqn:E; [|done]. by destruct a, n.
Qed.

Lemma all_slashes_app_name (a n : string) :
  n <> "" -> pystr.contains "/" n = false ->
  posixpath.all_slashes (a +:+ n) = false.
Proof.
  intros Hne Hn. unfold posixpath.all_slashes. apply String.eqb_neq.
  intros H. apply rstrip_empty_iff in H.
  rewrite (rstrip_app_name a n Hne Hn) in H. by destruct a, n.
Qed.

(** A path of slashes that is not empty ends with a slash. *)
Lemma all_slashes_endswith (a : string) :
  a <> "" -> posixpath.all_slashes a = true -> pystr.endswith a "/" = true.
Proof.
  intros Ha Hall. unfold posixpath.all_slashes in Hall.
  apply String.eqb_eq in Hall.
  assert (exists a', a = a' +:+ "/") as [a' ->]; [|apply endswith_app_slash].
  induction a as [|x a IH]; [done|]. cbn [pystr.lstrip] in Hall.
  destruct (Ascii.eqb_spec x "/") as [->|]; [|done].
  destruct a as [|y a]; [by exists ""|].
  destruct IH as [a' Ha']; [done|done|]. exists (String "/" a').
  by rewrite string_app_cons, <- Ha'.
Qed.

(** [join] of a path that is not empty with a relative one. *)
Lemma join_relative (top p : string) :
  top <> "" -> pystr.startswith p "/" = false ->
  posixpath.join top p = top +:+ separator top +:+ p.
Proof.
  intros Htop Hp. unfold posixpath.join, separator. rewrite Hp.
  apply String.eqb_neq in Htop. rewrite Htop. cbn [orb].
  by destruct (pystr.endswith top "/").
Qed.

(** What [split] makes of a path joined with a name: the path without its
    trailing slashes, and the name. *)
Lemma split_join_name (top n : string) :
  top <> "" -> n <> "" -> pystr.contains "/" n = false ->
  posixpath.split (posixpath.join top n) = (os.strip_trailing top, n).
Proof.
  intros Htop Hne Hn.
  rewrite (join_relative top n Htop (startswith_name n Hne Hn)).
  assert (exists a, top +:+ separator top = a +:+ "/") as [a Ha].
  { unfold separator. destruct (pystr.endswith top "/") eqn:E.
    - rewrite string_app_nil_r. by apply endswith_slash_inv.
    - by exists top. }
  rewrite <- string_app_assoc, Ha.
  unfold posixpath.split.
  rewrite string_app_assoc. change ("/" +:+ n) with (String "/" n).
  rewrite (rfind_app_name "/" a n Hn).
  change (a +:+ String "/" n) with (a +:+ "/" +:+ n).
  rewrite <- string_app_assoc.
  replace (S (String.length a)) with (String.length (a +:+ "/"))
    by (rewrite string_length_app; cbn; lia).
  rewrite slice_to_length_app, slice_from_length_app. f_equal.
  rewrite <- Ha. unfold os.strip_trailing.
  assert (Hall : posixpath.all_slashes (top +:+ separator top)
                 = posixpath.all_slashes top).
  { unfold separator. destruct (pystr.endswith top "/").
    - by rewrite string_app_nil_r.
    - apply all_slashes_app_slash. }
  rewrite Hall.
  destruct (String.eqb_spec (top +:+ separator top) "") as [He|_].
  { by destruct top. }
  cbn [negb andb].
  destruct (posixpath.all_slashes top) eqn:Hs; cbn [negb].
  - unfold separator. rewrite (all_slashes_endswith top Htop Hs).
    by rewrite string_app_nil_r.
  - unfold separator. destruct (pystr.endswith top "/").
    + by rewrite string_app_nil_r.
    + apply rstrip_app_slash.
Qed.

Lemma strip_trailing_join_name (top n : string) :
  top <> "" -> n <> "" -> pystr.contains "/" n = false ->
  os.strip_trailing (posixpath.join top n) = posixpath.join top n.
Proof.
  intros Htop Hne Hn.
  rewrite (join_relative top n Htop (startswith_name n Hne Hn)).
  rewrite <- string_app_assoc. unfold os.strip_trailing.
  rewrite (all_slashes_app_name _ n Hne Hn).
  by apply rstrip_app_name.
Qed.

Lemma join_name_nonempty (top n : string) :
  n <> "" -> posixpath.join top n <> "".
Proof.
  intros Hne. unfold posixpath.join.
  destruct (pystr.startswith n "/"); [done|].
  destruct (_ || _); destruct top, n; done.
Qed.

(** ** Paths below a directory *)

Lemma namei_name (f : gmap (list string) inode) (k : list string) (n : string) :
  valid_name n = true ->
  os.namei f k [n]
  = match f !! k with
    | Some Dir => inr (k ++ [n])
    | Some (File _) => inl errno.ENOTDIR
    | None => inl errno.ENOENT
    end.
Proof.
  intros (Hne & Hdot & Hdotdot & _)%valid_name_spec. cbn [os.namei].
  apply String.eqb_neq in Hne, Hdot, Hdotdot.
  by rewrite Hne, Hdot, Hdotdot.
Qed.

(** The lookup of a path joined with a name goes on from where the lookup
    of the path has ended. *)
Lemma resolve_join (w : World) (t n : string) :
  t <> "" -> valid_name n = true ->
  os.resolve w (posixpath.join t n)
  = match os.resolve w t with
    | inr k => os.namei (nodes w) k [n]
    | inl e => inl e
    end.
Proof.
  intros Ht Hn. pose proof Hn as (Hne & _ & _ & Hslash)%valid_name_spec.
  rewrite (join_name t n Ht Hne Hslash). unfold os.resolve.
  apply String.eqb_neq in Ht as Ht'. rewrite Ht'.
  destruct (pystr.endswith t "/") eqn:Hend.
  - apply endswith_slash_inv in Hend as [a ->].
    rewrite string_app_assoc. change ("/" +:+ n) with (String "/" n).
    rewrite !components_app_slash, (components_no_slash n Hslash).
    change (os.components "") with [""].
    destruct (String.eqb_spec (a +:+ String "/" n) "") as [He|_].
    { by destruct a. }
    assert (pystr.startswith (a +:+ String "/" n) "/"
            = pystr.startswith (a +:+ "/") "/") as ->.
    { destruct a as [|x a].
      - by rewrite !string_app_nil_l, !startswith_slash_cons.
      - by rewrite !string_app_cons, !startswith_slash_cons. }
    rewrite !namei_app.
    destruct (os.namei (nodes w) _ (os.components a)) as [e|k']; [done|].
    rewrite (namei_name _ k' _ Hn).
    change (os.namei (nodes w) k' [""])
      with (match nodes w !! k' with
            | Some Dir => @inr Z _ k'
            | Some (File _) => inl errno.ENOTDIR
            | None => inl errno.ENOENT
            end).
    destruct (nodes w !! k') as [[|]|] eqn:Hk'; try done.
    by rewrite (namei_name _ k' _ Hn), Hk'.
  - change (t +:+ "/" +:+ n) with (t +:+ String "/" n).
    rewrite components_app_slash, (components_no_slash n Hslash).
    destruct (String.eqb_spec (t +:+ String "/" n) "") as [He|_].
    { by destruct t. }
    by rewrite (startswith_app_nonempty t _ Ht), namei_app.
Qed.

Lemma joins_nonempty (top : string) (l : list string) :
  top <> "" -> Forall (fun n => valid_name n = true) l -> joins top l <> "".
Proof.
  intros Htop Hall. destruct l as [|n l _] using rev_ind; [done|].
  apply Forall_app in Hall as [_ Hn]. apply Forall_cons in Hn as [Hn _].
  apply valid_name_spec in Hn as (Hne & _).
  rewrite joins_snoc. by apply join_name_nonempty.
Qed.

Lemma app_snoc_inv {A} (init l1 l2 : list A) (n : A) :
  init ++ [n] = l1 ++ l2 ->
  (l2 = [] /\ l1 = init ++ [n])
  \/ exists l2', l2 = l2' ++ [n] /\ init = l1 ++ l2'.
Proof.
  destruct l2 as [|x l2 _] using rev_ind.
  - rewrite app_nil_r. intros <-. by left.
  - rewrite app_assoc. intros [-> ->]%app_inj_tail. right. eauto.
Qed.

Section Below.

Context (w : World) (top : string) (k : list string).
Context (Htop : os.resolve w top = inr k).

Lemma resolve_nonempty : top <> "".
Proof using Htop. intros ->. by unfold os.resolve in Htop. Qed.

(** A path made of names leads, if anywhere, to the place of these names. *)
Lemma resolve_joins_key (l k' : list string) :
  Forall (fun n => valid_name n = true) l ->
  os.resolve w (joins top l) = inr k' -> k' = k ++ l.
Proof using Htop.
  revert k'. induction l as [|n l IH] using rev_ind; intros k' Hall.
  { cbn. rewrite app_nil_r. congruence. }
  apply Forall_app in Hall as [Hl Hn]. apply Forall_cons in Hn as [Hn _].
  rewrite joins_snoc, (resolve_join w _ n (joins_nonempty _ _ resolve_nonempty Hl) Hn).
  destruct (os.resolve w (joins top l)) as [e|k1] eqn:Hres; [done|].
  rewrite (IH k1 Hl eq_refl), (namei_name _ _ _ Hn).
  destruct (nodes w !! (k ++ l)) as [[|]|]; try done.
  rewrite app_assoc. congruence.
Qed.

(** Through directories, it leads there. *)
Lemma resolve_joins_dirs (l : list string) :
  Forall (fun n => valid_name n = true) l ->
  (forall l1 l2, l = l1 ++ l2 -> l2 <> [] -> nodes w !! (k ++ l1) = Some Dir) ->
  os.resolve w (joins top l) = inr (k ++ l).
Proof using Htop.
  induction l as [|n l IH] using rev_ind; intros Hall Hdirs.
  { cbn. by rewrite app_nil_r. }
  apply Forall_app in Hall as [Hl Hn]. apply Forall_cons in Hn as [Hn _].
  rewrite joins_snoc, (resolve_join w _ n (joins_nonempty _ _ resolve_nonempty Hl) Hn).
  rewrite IH; [|done|].
  - rewrite (namei_name _ _ _ Hn), (Hdirs l [n]); [|done|done].
    by rewrite app_assoc.
  - intros l1 l2 -> Hl2. apply (Hdirs l1 (l2 ++ [n])); [by rewrite app_assoc|].
    by destruct l2.
Qed.

Lemma resolve_joins_present (l : list string) (x : inode) :
  wf_fs (nodes w) = true -> nodes w !! k = Some Dir ->
  nodes w !! (k ++ l) = Some x ->
  os.resolve w (joins top l) = inr (k ++ l).
Proof using Htop.
  intros Hwf Hk Hx. apply resolve_joins_dirs.
  - by apply (wf_names_valid (nodes w) k l x).
  - intros l1 l2 -> Hl2. apply (wf_above _ Hwf (k ++ l1) l2 x Hl2).
    by rewrite <- app_assoc.
Qed.

(** The path without its trailing slashes names the same directory. *)
Lemma resolve_strip_trailing_dir :
  os.resolve w (os.strip_trailing top) = inr k.
Proof using Htop.
  destruct (resolve_strip_trailing top) as [n Hn]. rewrite Hn in Htop.
  destruct (os.resolve w (os.strip_trailing top)) as [e|k']; [done|].
  by apply namei_empty_components_key in Htop as ->.
Qed.

End Below.

(** ** [mkdir] and [makedirs] *)

Lemma set_nodes_set_nodes (f f' : gmap (list string) inode) (w : World) :
  set_nodes f (set_nodes f' w) = set_nodes f w.
Proof. reflexivity. Qed.

Lemma set_nodes_nodes (w : World) : set_nodes (nodes w) w = w.
Proof. by destruct w. Qed.

(** [mkdir] of a new name in a directory. *)
Lemma mkdir_join_name (w : World) (t n : string) (k : list string) :
  os.resolve w t = inr k -> nodes w !! k = Some Dir ->
  valid_name n = true -> nodes w !! (k ++ [n]) = None ->
  os.mkdir (posixpath.join t n) w
  = (set_nodes (<[k ++ [n] := Dir]> (nodes w)) w, inr tt).
Proof.
  intros Hres Hk Hn Hnew.
  pose proof Hn as (Hne & _ & _ & Hslash)%valid_name_spec.
  pose proof (resolve_nonempty w t k Hres) as Ht.
  unfold os.mkdir, os.sys_call, os.mkdir_at.
  rewrite (strip_trailing_join_name t n Ht Hne Hslash).
  rewrite (resolve_join_name w t n k Hres Hk Hn), Hnew.
  unfold os.create. rewrite removelast_last, Hk. by destruct k.
Qed.

Lemma makedirs_fuel_eq (n : nat) (name : string) :
  os.makedirs_fuel n name
  = (let '(head, tail) := posixpath.split name in
     let '(head, tail) :=
       if String.eqb tail "" then posixpath.split head else (head, tail) in
     fl <- (if negb (String.eqb head "") && negb (String.eqb tail "") then
              ex <- os.path_exists head ;;
              if negb ex then
                match n with
                | O => ret Next
                | S n' =>
                    r <- catch (os.makedirs_fuel n' head) ;;
                    match r with
                    | inl (OSError e) =>
                        if negb (e =? errno.EEXIST) then raise (OSError e)
                        else ret tt
                    | inl e => raise e
                    | inr _ => ret tt
                    end ;;
                    if String.eqb tail "." then ret Return else ret Next
                end
              else ret Next
            else ret Next) ;;
     match fl with
     | Return => ret tt
     | Next => os.mkdir name
     end).
Proof. destruct n; reflexivity. Qed.

(** One step of [makedirs] on a path that ends with a name. *)
Lemma makedirs_fuel_join (fuel : nat) (p n : string) (w : World) :
  p <> "" -> valid_name n = true ->
  os.makedirs_fuel fuel (posixpath.join p n) w
  = if os.exists_at w (os.strip_trailing p) then os.mkdir (posixpath.join p n) w
    else
      match fuel with
      | O => os.mkdir (posixpath.join p n) w
      | S fuel' =>
          match os.makedirs_fuel fuel' (os.strip_trailing p) w with
          | (w1, inr _) => os.mkdir (posixpath.join p n) w1
          | (w1, inl (OSError e)) =>
              if negb (e =? errno.EEXIST) then (w1, inl (OSError e))
              else os.mkdir (posixpath.join p n) w1
          | (w1, inl e) => (w1, inl e)
          end
      end.
Proof.
  intros Hp Hn. pose proof Hn as (Hne & Hdot & _ & Hslash)%valid_name_spec.
  rewrite makedirs_fuel_eq, (split_join_name p n Hp Hne Hslash).
  apply String.eqb_neq in Hne as Hne', Hdot as Hdot'. rewrite Hne'.
  cbn beta iota. rewrite Hne'.
  destruct (String.eqb_spec (os.strip_trailing p) "") as [He|_].
  { by apply strip_trailing_empty in He. }
  cbn [negb andb]. unfold os.path_exists. unfold_monad.
  destruct (os.exists_at w (os.strip_trailing p)); cbn [negb]; [done|].
  destruct fuel as [|fuel']; [done|].
  destruct (os.makedirs_fuel fuel' (os.strip_trailing p) w) as [w1 [e|[]]].
  - destruct e; try done. destruct (negb (code =? errno.EEXIST)); [done|].
    by rewrite Hdot'.
  - by rewrite Hdot'.
Qed.

Section Makedirs.

Context (w : World) (top : string) (k : list string).
Context (Hwf : wf_fs (nodes w) = true).
Context (Htop : os.resolve w top = inr k).
Context (Hk : nodes w !! k = Some Dir).

Lemma exists_at_strip_trailing_top : os.exists_at w (os.strip_trailing top) = true.
Proof using Htop Hk.
  unfold os.exists_at, os.stat.
  by rewrite (resolve_strip_trailing_dir w top k Htop), Hk.
Qed.

Lemma prefix_key_ne (init l1 l2 : list string) (n : string) :
  init = l1 ++ l2 -> k ++ init ++ [n] <> k ++ l1.
Proof.
  intros -> H. apply app_inv_head in H. apply (f_equal List.length) in H.
  rewrite !length_app in H. cbn in H. lia.
Qed.

(** [makedirs] makes the directories that are missing on the way down from
    an existing directory, and nothing else. *)
Lemma makedirs_fuel_names (l : list string) :
  forall fuel,
    l <> [] -> Forall (fun n => valid_name n = true) l ->
    (forall l1 l2 data, l = l1 ++ l2 -> nodes w !! (k ++ l1) <> Some (File data)) ->
    nodes w !! (k ++ l) = None ->
    (List.length l <= fuel)%nat ->
    exists f',
      os.makedirs_fuel fuel (joins top l) w = (set_nodes f' w, inr tt)
      /\ (forall l1 l2, l = l1 ++ l2 -> f' !! (k ++ l1) = Some Dir)
      /\ (forall k', (forall l1 l2, l = l1 ++ l2 -> k' <> k ++ l1) ->
                     f' !! k' = nodes w !! k')
      /\ (forall k' x, nodes w !! k' = Some x -> f' !! k' = Some x).
Proof using Hwf Htop Hk.
  pose proof (resolve_nonempty w top k Htop) as Hne_top.
  induction l as [|n init IH] using rev_ind; [done|].
  intros fuel _ Hall Hnofile Hnew Hfuel.
  apply Forall_app in Hall as [Hinit Hn]. apply Forall_cons in Hn as [Hn _].
  pose proof (joins_nonempty top init Hne_top Hinit) as HP.
  rewrite joins_snoc, (makedirs_fuel_join fuel _ n w HP Hn).
  (* the last step, in a world where the parent is a directory *)
  assert (Hlast : forall w1 f1,
            w1 = set_nodes f1 w ->
            os.resolve w1 (joins top init) = inr (k ++ init) ->
            f1 !! (k ++ init) = Some Dir ->
            f1 !! (k ++ init ++ [n]) = None ->
            (forall l1 l2, init = l1 ++ l2 -> f1 !! (k ++ l1) = Some Dir) ->
            (forall k', (forall l1 l2, init = l1 ++ l2 -> k' <> k ++ l1) ->
                        f1 !! k' = nodes w !! k') ->
            (forall k' x, nodes w !! k' = Some x -> f1 !! k' = Some x) ->
            exists f',
              os.mkdir (posixpath.join (joins top init) n) w1
              = (set_nodes f' w, inr tt)
              /\ (forall l1 l2, init ++ [n] = l1 ++ l2 -> f' !! (k ++ l1) = Some Dir)
              /\ (forall k', (forall l1 l2, init ++ [n] = l1 ++ l2 -> k' <> k ++ l1) ->
                             f' !! k' = nodes w !! k')
              /\ (forall k' x, nodes w !! k' = Some x -> f' !! k' = Some x)).
  { intros w1 f1 -> Hres Hparent Hfresh Ha Hb Hc.
    exists (<[(k ++ init) ++ [n] := Dir]> f1).
    rewrite (mkdir_join_name (set_nodes f1 w) _ n (k ++ init) Hres Hparent Hn)
      by (by rewrite <- app_assoc).
    split; [done|]. rewrite <- app_assoc. split; [|split].
    - intros l1 l2 [[-> ->]|(l2' & -> & Hi)]%app_snoc_inv.
      + by rewrite lookup_insert_eq.
      + rewrite lookup_insert_ne by by eapply prefix_key_ne. by eapply Ha.
    - intros k' Hk'.
      rewrite lookup_insert_ne.
      + apply Hb. intros l1 l2 ->. apply (Hk' l1 (l2 ++ [n])).
        by rewrite app_assoc.
      + intros <-. apply (Hk' (init ++ [n]) []); by rewrite ?app_nil_r.
    - intros k' x Hx. rewrite lookup_insert_ne; [by apply Hc|].
      intros <-. congruence. }
  destruct init as [|n' init' _] using rev_ind.
  - (* the directory lies in [top] itself *)
    cbn [joins fold_left]. rewrite exists_at_strip_trailing_top.
    cbn [app] in *. rewrite app_nil_r in Hlast.
    apply (Hlast w (nodes w)); try done.
    + by rewrite set_nodes_nodes.
    + intros l1 l2 Hl. symmetry in Hl. apply app_eq_nil in Hl as [-> _].
      by rewrite app_nil_r.
  - (* the parent is a path of names itself *)
    set (init := init' ++ [n']) in *.
    assert (Hstrip : os.strip_trailing (joins top init) = joins top init).
    { unfold init. rewrite joins_snoc.
      apply Forall_app in Hinit as [Hinit' Hn']. apply Forall_cons in Hn' as [Hn' _].
      apply valid_name_spec in Hn' as (Hne' & _ & _ & Hslash').
      apply strip_trailing_join_name; [|done|done].
      by apply joins_nonempty. }
    rewrite Hstrip.
    assert (Hpre : forall x, nodes w !! (k ++ init) = Some x ->
              forall l1 l2, init = l1 ++ l2 -> nodes w !! (k ++ l1) = Some Dir).
    { intros x Hx l1 l2 Hi. destruct l2 as [|y l2].
      - rewrite app_nil_r in Hi. subst l1.
        destruct x as [data|]; [|done].
        exfalso. apply (Hnofile init [n] data); [done|done].
      - apply (wf_above _ Hwf (k ++ l1) (y :: l2) x); [done|].
        by rewrite <- app_assoc, <- Hi. }
    destruct (os.exists_at w (joins top init)) eqn:Hex.
    + (* the parent exists: it is a directory *)
      unfold os.exists_at, os.stat in Hex.
      destruct (os.resolve w (joins top init)) as [e|k1] eqn:Hres; [done|].
      apply (resolve_joins_key w top k Htop init k1 Hinit) in Hres as Hk1.
      subst k1.
      destruct (nodes w !! (k ++ init)) as [x|] eqn:Hx; [|done].
      apply (Hlast w (nodes w)); try done.
      * by rewrite set_nodes_nodes.
      * by apply (Hpre x eq_refl init []); rewrite ?app_nil_r.
      * by apply (Hpre x eq_refl).
    + (* the parent is missing: it is made first *)
      assert (Hmissing : nodes w !! (k ++ init) = None).
      { destruct (nodes w !! (k ++ init)) as [x|] eqn:Hx; [|done].
        unfold os.exists_at, os.stat in Hex.
        by rewrite (resolve_joins_present w top k Htop init x Hwf Hk Hx), Hx in Hex. }
      destruct fuel as [|fuel'].
      { unfold init in Hfuel. rewrite !length_app in Hfuel. cbn in Hfuel. lia. }
      destruct (IH fuel') as (f1 & Hrun & Ha & Hb & Hc); try done.
      * by destruct init'.
      * intros l1 l2 data Hi. apply (Hnofile l1 (l2 ++ [n])).
        by rewrite Hi, app_assoc.
      * rewrite !length_app in *. cbn in *. lia.
      * rewrite Hrun. apply (Hlast (set_nodes f1 w) f1); try done.
        -- apply resolve_joins_dirs; [|done|].
           ++ revert Htop. unfold os.resolve. cbn [nodes cwd set_nodes].
              destruct (String.eqb top ""); [done|].
              apply namei_mono. intros d Hd. by apply Hc.
           ++ intros l1 l2 Hi _. by apply (Ha l1 l2).
        -- by apply (Ha init []); rewrite ?app_nil_r.
        -- rewrite Hb; [done|]. intros l1 l2 Hi. by eapply prefix_key_ne.
Qed.

End Makedirs.

(** ** [put] on a connected repository *)

Lemma joins_length (top : string) (l : list string) :
  top <> "" -> Forall (fun n => valid_name n = true) l ->
  (List.length l <= String.length (joins top l))%nat.
Proof.
  intros Htop. induction l as [|n l IH] using rev_ind; intros Hall.
  { cbn. lia. }
  apply Forall_app in Hall as [Hl Hn]. apply Forall_cons in Hn as [Hn _].
  apply valid_name_spec in Hn as (Hne & _ & _ & Hslash).
  rewrite joins_snoc, length_app.
  rewrite (join_name _ n (joins_nonempty top l Htop Hl) Hne Hslash).
  specialize (IH Hl). destruct n as [|x n]; [done|].
  destruct (pystr.endswith _ _); rewrite !string_length_app; cbn; lia.
Qed.

Lemma join_concat_names (top : string) (l : list string) :
  top <> "" -> l <> [] -> Forall (fun n => valid_name n = true) l ->
  posixpath.join top (String.concat "/" l) = joins top l.
Proof.
  intros Htop Hl Hall.
  destruct (concat_names_nonempty l Hl Hall) as [_ Hstart].
  by rewrite (join_relative top _ Htop Hstart), (joins_names top l Htop Hl Hall).
Qed.

(** [open(p, 'w')] of a name in a directory. *)
Lemma open_write_join_name (w : World) (t n content : string) (k : list string) :
  os.resolve w t = inr k -> nodes w !! k = Some Dir ->
  valid_name n = true -> nodes w !! (k ++ [n]) <> Some Dir ->
  os.open_write (posixpath.join t n) content w
  = (set_nodes (<[k ++ [n] := File content]> (nodes w)) w, inr tt).
Proof.
  intros Hres Hk Hn Hnd.
  unfold os.open_write, os.sys_call, os.write_at.
  rewrite (resolve_join_name w t n k Hres Hk Hn).
  destruct (nodes w !! (k ++ [n])) as [[|]|]; [done|done|].
  unfold os.create. rewrite removelast_last, Hk. by destruct k.
Qed.

(** On a well-formed file system, in a repository whose root is a
    directory, [put] of an identifier made of names stores the content,
    having made the directories that were missing, unless a file is in the
    way of a directory or a directory in the place of the file. *)
Lemma put_stores (s : State) (id content : string) (r names : list string) :
  wf_fs (nodes (world s)) = true ->
  os.resolve (world s) (root (self s)) = inr r ->
  nodes (world s) !! r = Some Dir ->
  names <> [] -> Forall (fun n => valid_name n = true) names ->
  id = String.concat "/" names ->
  (forall l1 l2 data, names = l1 ++ l2 -> l2 <> [] ->
     nodes (world s) !! (r ++ l1) <> Some (File data)) ->
  nodes (world s) !! (r ++ names) <> Some Dir ->
  exists f',
    put id content s = (mkState (self s) (set_nodes f' (world s)), inr tt)
    /\ f' !! (r ++ names) = Some (File content)
    /\ (forall l1 l2, names = l1 ++ l2 -> l2 <> [] -> f' !! (r ++ l1) = Some Dir)
    /\ (forall k', (forall l1 l2, names = l1 ++ l2 -> k' <> r ++ l1) ->
                   f' !! k' = nodes (world s) !! k').
Proof.
  intros Hwf Hroot Hr Hnames Hall -> Hnofile Hnotdir.
  pose proof (resolve_nonempty _ _ _ Hroot) as Hne_root.
  destruct names as [|n init _] using rev_ind; [done|]. clear Hnames.
  pose proof Hall as Hall'.
  apply Forall_app in Hall' as [Hinit Hn]. apply Forall_cons in Hn as [Hn _].
  pose proof Hn as (Hne & _ & _ & Hslash)%valid_name_spec.
  pose proof (joins_nonempty _ init Hne_root Hinit) as HP.
  assert (Hnn : init ++ [n] <> []) by (by destruct init).
  unfold put. unfold bind at 1. unfold gets at 1. cbn beta iota.
  rewrite (join_concat_names _ _ Hne_root Hnn Hall).
  rewrite joins_snoc. unfold posixpath.dirname.
  rewrite (split_join_name _ n HP Hne Hslash). cbn [fst].
  (* the write, in a world where the parent is a directory *)
  assert (Hlast : forall s1 f1,
            s1 = mkState (self s) (set_nodes f1 (world s)) ->
            os.resolve (set_nodes f1 (world s)) (joins (root (self s)) init)
            = inr (r ++ init) ->
            (forall l1 l2, init = l1 ++ l2 -> f1 !! (r ++ l1) = Some Dir) ->
            (forall k', (forall l1 l2, init = l1 ++ l2 -> k' <> r ++ l1) ->
                        f1 !! k' = nodes (world s) !! k') ->
            exists f',
              reraising
                (lift (os.open_write
                         (posixpath.join (joins (root (self s)) init) n) content))
                s1
              = (mkState (self s) (set_nodes f' (world s)), inr tt)
              /\ f' !! (r ++ init ++ [n]) = Some (File content)
              /\ (forall l1 l2, init ++ [n] = l1 ++ l2 -> l2 <> [] ->
                                f' !! (r ++ l1) = Some Dir)
              /\ (forall k', (forall l1 l2, init ++ [n] = l1 ++ l2 -> k' <> r ++ l1) ->
                             f' !! k' = nodes (world s) !! k')).
  { intros s1 f1 -> Hres Ha Hb.
    assert (Hparent : f1 !! (r ++ init) = Some Dir).
    { by apply (Ha init []); rewrite ?app_nil_r. }
    assert (Hsame : f1 !! (r ++ init ++ [n]) = nodes (world s) !! (r ++ init ++ [n])).
    { apply Hb. intros l1 l2 Hi. by eapply prefix_key_ne. }
    exists (<[(r ++ init) ++ [n] := File content]> f1).
    rewrite reraising_id. unfold lift. cbn [self world].
    rewrite (open_write_join_name _ _ n content (r ++ init) Hres Hparent Hn)
      by (rewrite <- app_assoc; cbn [nodes set_nodes]; by rewrite Hsame).
    split; [done|]. rewrite <- app_assoc. split; [|split].
    - by rewrite lookup_insert_eq.
    - intros l1 l2 [[-> ->]|(l2' & -> & Hi)]%app_snoc_inv Hl2; [done|].
      rewrite lookup_insert_ne by by eapply prefix_key_ne. by eapply Ha.
    - intros k' Hk'. rewrite lookup_insert_ne.
      + apply Hb. intros l1 l2 ->. apply (Hk' l1 (l2 ++ [n])).
        by rewrite app_assoc.
      + intros <-. apply (Hk' (init ++ [n]) []); by rewrite ?app_nil_r. }
  assert (Hhere : forall l1 l2, init = l1 ++ l2 ->
            (exists x, nodes (world s) !! (r ++ init) = Some x) ->
            nodes (world s) !! (r ++ l1) = Some Dir).
  { intros l1 l2 Hi [x Hx]. destruct l2 as [|y l2].
    - rewrite app_nil_r in Hi. subst l1. destruct x as [data|]; [|done].
      exfalso. by apply (Hnofile init [n] data).
    - apply (wf_above _ Hwf (r ++ l1) (y :: l2) x); [done|].
      by rewrite <- app_assoc, <- Hi. }
  unfold bind at 1. unfold lift at 1, os.path_exists, gets.
  destruct init as [|n' init' _] using rev_ind.
  - (* the file lies in the root itself *)
    cbn [joins fold_left] in *.
    rewrite (exists_at_strip_trailing_top _ _ _ Hroot Hr). cbn [negb].
    unfold bind at 1, ret at 1.
    apply (Hlast _ (nodes (world s))).
    + by rewrite set_nodes_nodes; destruct s.
    + by rewrite set_nodes_nodes, app_nil_r.
    + intros l1 l2 Hl. symmetry in Hl. apply app_eq_nil in Hl as [-> _].
      by rewrite app_nil_r.
    + done.
  - set (init := init' ++ [n']) in *.
    assert (Hstrip : os.strip_trailing (joins (root (self s)) init)
                     = joins (root (self s)) init).
    { unfold init. rewrite joins_snoc.
      apply Forall_app in Hinit as [Hinit' Hn']. apply Forall_cons in Hn' as [Hn' _].
      apply valid_name_spec in Hn' as (Hne' & _ & _ & Hslash').
      apply strip_trailing_join_name; [|done|done].
      by apply joins_nonempty. }
    rewrite Hstrip. cbn [self world].
    destruct (os.exists_at (world s) (joins (root (self s)) init)) eqn:Hex;
      cbn [negb].
    + (* the directory of the file exists *)
      unfold bind at 1, ret at 1.
      unfold os.exists_at, os.stat in Hex.
      destruct (os.resolve (world s) (joins (root (self s)) init))
        as [e|k1] eqn:Hres; [done|].
      apply (resolve_joins_key _ _ r Hroot init k1 Hinit) in Hres as Hk1.
      subst k1.
      destruct (nodes (world s) !! (r ++ init)) as [x|] eqn:Hx; [|done].
      apply (Hlast _ (nodes (world s))).
      * by rewrite set_nodes_nodes; destruct s.
      * by rewrite set_nodes_nodes.
      * intros l1 l2 Hi. apply (Hhere l1 l2 Hi). eauto.
      * done.
    + (* the directory of the file is made *)
      assert (Hmissing : nodes (world s) !! (r ++ init) = None).
      { destruct (nodes (world s) !! (r ++ init)) as [x|] eqn:Hx; [|done].
        unfold os.exists_at, os.stat in Hex.
        by rewrite (resolve_joins_present _ _ r Hroot init x Hwf Hr Hx), Hx in Hex. }
      destruct (makedirs_fuel_names (world s) (root (self s)) r Hwf Hroot Hr init
                  (String.length (joins (root (self s)) init)))
        as (f1 & Hrun & Ha & Hb & Hc).
      * by destruct init'.
      * done.
      * intros l1 l2 data Hi. apply (Hnofile l1 (l2 ++ [n])).
        -- by rewrite Hi, app_assoc.
        -- by destruct l2.
      * done.
      * by apply joins_length.
      * unfold bind at 1, lift at 1, os.makedirs. cbn [self world].
        rewrite Hrun.
        apply (Hlast _ f1); [done| |done|done].
        apply resolve_joins_dirs; [|done|].
        -- revert Hroot. unfold os.resolve. cbn [nodes cwd set_nodes].
           destruct (String.eqb (root (self s)) ""); [done|].
           apply namei_mono. intros d Hd. by apply Hc.
        -- intros l1 l2 Hi _. by apply (Ha l1 l2).
Qed.

(** C9: [put(id, content)] followed by [get(id)] returns exactly [content].
    Whenever [put] has stored the content, [get] returns it and changes
    nothing; and in a connected repository (the root is a directory of a
    well-formed file system) [put] of an identifier made of names does
    store it, making the directories that are missing, unless a file is in
    the way of a directory or a directory in the place of the file. *)
Theorem put_get_roundtrip (s : State) (id content : string) :
  (forall s', put id content s = (s', inr tt) -> get id s' = (s', inr content))
  /\ (forall r names,
        wf_fs (nodes (world s)) = true ->
        os.resolve (world s) (root (self s)) = inr r ->
        nodes (world s) !! r = Some Dir ->
        names <> [] -> Forall (fun n => valid_name n = true) names ->
        id = String.concat "/" names ->
        (forall l1 l2 data, names = l1 ++ l2 -> l2 <> [] ->
           nodes (world s) !! (r ++ l1) <> Some (File data)) ->
        nodes (world s) !! (r ++ names) <> Some Dir ->
        exists s',
          put id content s = (s', inr tt)
          /\ get id s' = (s', inr content)
          /\ nodes (world s') !! (r ++ names) = Some (File content)).
Proof.
  split; [intros s'; apply (put_then_get s)|].
  intros r names Hwf Hroot Hr Hnames Hall Hid Hnofile Hnotdir.
  destruct (put_stores s id content r names Hwf Hroot Hr Hnames Hall Hid
              Hnofile Hnotdir) as (f' & Hput & Hfile & _).
  eexists. split; [exact Hput|].
  split; [exact (put_then_get s _ id content Hput)|exact Hfile].
Qed.

(** ** The bound of [makedirs] *)

Lemma slice_length (i : nat) (s : string) :
  (String.length (pystr.slice_to i s) + String.length (pystr.slice_from i s)
   = String.length s)%nat.
Proof.
  revert s. induction i as [|i IH]; intros s; [done|].
  destruct s as [|a s]; [done|]. cbn. by rewrite IH.
Qed.

Lemma rstrip_length (c : ascii) (s : string) :
  (String.length (pystr.rstrip c s) <= String.length s)%nat.
Proof.
  induction s as [|a s IH]; [done|]. cbn [pystr.rstrip].
  destruct (pystr.rstrip c s); [destruct (Ascii.eqb a c)|]; cbn in *; lia.
Qed.

Lemma split_length (p : string) :
  (String.length (fst (posixpath.split p))
   + String.length (snd (posixpath.split p)) <= String.length p)%nat.
Proof.
  unfold posixpath.split. cbn [fst snd].
  set (i := match pystr.rfind "/" p with Some k => S k | None => O end).
  pose proof (slice_length i p) as Hlen.
  pose proof (rstrip_length "/" (pystr.slice_to i p)) as Hr.
  destruct (_ && _); lia.
Qed.

(** Every recursive call of [makedirs] is on a strictly shorter name, so
    any bound from the length of the name on gives the same result. *)
Lemma makedirs_fuel_enough (n : nat) :
  forall m name w,
    (String.length name <= n)%nat -> (String.length name <= m)%nat ->
    os.makedirs_fuel n name w = os.makedirs_fuel m name w.
Proof.
  induction n as [|n IH]; intros m name w Hn Hm.
  - destruct name; [|cbn in Hn; lia]. by destruct m.
  - rewrite (makedirs_fuel_eq _ name), (makedirs_fuel_eq m name).
    pose proof (split_length name) as Hlen.
    destruct (posixpath.split name) as [h t] eqn:Hs. cbn [fst snd] in Hlen.
    assert (Hshort : forall h2 t2,
              (if String.eqb t "" then posixpath.split h else (h, t)) = (h2, t2) ->
              t2 <> "" -> (String.length h2 < String.length name)%nat).
    { intros h2 t2 Hs2 Ht2. destruct (String.eqb t "").
      - pose proof (split_length h) as Hlen2. rewrite Hs2 in Hlen2.
        cbn [fst snd] in Hlen2. destruct t2; [done|]. cbn in Hlen2. lia.
      - injection Hs2 as -> ->. destruct t2; [done|]. cbn in Hlen. lia. }
    destruct (if String.eqb t "" then posixpath.split h else (h, t))
      as [h2 t2] eqn:Hs2.
    specialize (Hshort h2 t2 eq_refl).
    destruct (String.eqb_spec t2 "") as [->|Ht2].
    { by rewrite andb_false_r. }
    specialize (Hshort Ht2).
    destruct (negb (String.eqb h2 "")); cbn [negb andb]; [|done].
    unfold os.path_exists. unfold_monad.
    destruct (os.exists_at w h2); cbn [negb]; [done|].
    destruct m as [|m]; [lia|].
    by rewrite (IH m h2 w) by lia.
Qed.

(** ** The bound of [os.walk] *)

Lemma flat_map_agree {A B} (g h : A -> list B) (l : list A) :
  (forall x, In x l -> g x = h x) -> flat_map g l = flat_map h l.
Proof.
  induction l as [|a l IH]; intros Hgh; [done|]. cbn [flat_map].
  rewrite (Hgh a) by by left. rewrite IH; [done|].
  intros x Hx. apply Hgh. by right.
Qed.

(** On a well-formed file system the walk ends within the bound: any larger
    bound gives the same triples. *)
Lemma walk_fuel_enough (w : World) (n : nat) :
  wf_fs (nodes w) = true ->
  forall m top k,
    os.resolve w top = inr k -> nodes w !! k = Some Dir ->
    (os.depth (nodes w) < n + List.length k)%nat ->
    (os.depth (nodes w) < m + List.length k)%nat ->
    os.walk_fuel n w top = os.walk_fuel m w top.
Proof.
  intros Hwf. induction n as [|n IH]; intros m top k Hres Hk Hn Hm.
  { apply depth_bound in Hk. lia. }
  destruct m as [|m].
  { apply depth_bound in Hk. lia. }
  cbn [os.walk_fuel]. rewrite (listdir_at_dir w top k Hres Hk).
  f_equal. apply flat_map_agree. intros d Hd.
  apply filter_In in Hd as [Hd Hdir]. apply list_elem_of_In in Hd.
  destruct (isdir_at_child w Hwf top d k Hres Hk Hd) as [Hj Hiff].
  apply Hiff in Hdir.
  apply (IH m _ (k ++ [d]) Hj Hdir); rewrite length_app; cbn; lia.
Qed.

(** ** The operations on a small repository *)

Lemma itemlist_lists_files_witness :
  exists l,
    itemlist "pkgsinfo" s_items = (s_items, inr l)
    /\ "apps/Firefox-52.0.plist" ∈ l
    /\ "site_default" ∉ l.
Proof.
  destruct (itemlist_lists_files s_items "pkgsinfo") as (l & Hrun & _ & _ & Hwf).
  destruct Hwf as (Hchar & _ & _); [vm_compute; reflexivity|].
  exists l. split; [exact Hrun|].
  specialize (Hchar ["tmp"; "repo"; "pkgsinfo"]).
  assert (Hres : os.resolve (world s_items)
                   (posixpath.join (root (self s_items)) "pkgsinfo")
                 = inr ["tmp"; "repo"; "pkgsinfo"]) by (vm_compute; reflexivity).
  assert (Hdir : nodes (world s_items) !! ["tmp"; "repo"; "pkgsinfo"] = Some Dir)
    by (vm_compute; reflexivity).
  specialize (Hchar Hres Hdir). split.
  - apply Hchar. exists ["apps"; "Firefox-52.0.plist"], "<plist/>".
    split; [discriminate|]. split; vm_compute; reflexivity.
  - intros Hin. apply Hchar in Hin as (names & data & Hne & Hfile & Hrel).
    destruct names as [|a [|b names]]; [done| |].
    + cbn in Hrel. subst a. vm_compute in Hfile. discriminate Hfile.
    + change (String.concat "/" (a :: b :: names))
        with (a +:+ "/" +:+ String.concat "/" (b :: names)) in Hrel.
      apply (wf_names_valid fs_items ["tmp"; "repo"; "pkgsinfo"] _ _
               ltac:(vm_compute; reflexivity)) in Hfile.
      apply Forall_cons in Hfile as [Ha _].
      apply valid_name_spec in Ha as (_ & _ & _ & Hslash).
      assert (pystr.contains "/" "site_default" = false) as Hno
          by (vm_compute; reflexivity).
      rewrite Hrel in Hno. clear -Hno Hslash.
      induction a as [|x a IH].
      * rewrite string_app_nil_l in Hno. vm_compute in Hno. discriminate Hno.
      * rewrite string_app_cons, contains_cons in Hno.
        rewrite contains_cons in Hslash.
        apply orb_false_iff in Hno as [_ Hno].
        apply orb_false_iff in Hslash as [_ Hslash]. by apply IH.
Defined.

Lemma put_get_roundtrip_witness :
  exists s',
    put "manifests/site_default" "{...}" s_repo = (s', inr tt)
    /\ get "manifests/site_default" s' = (s', inr "{...}")
    /\ nodes (world s') !! ["tmp"; "repo"; "manifests"; "site_default"]
       = Some (File "{...}").
Proof.
  apply (proj2 (put_get_roundtrip s_repo "manifests/site_default" "{...}")
           ["tmp"; "repo"] ["manifests"; "site_default"]).
  - vm_compute. reflexivity.
  - vm_compute. reflexivity.
  - vm_compute. reflexivity.
  - discriminate.
  - repeat constructor.
  - reflexivity.
  - intros l1 l2 data Hl Hl2.
    destruct l1 as [|a [|b [|c l1]]].
    + vm_compute. discriminate.
    + injection Hl as <- _. vm_compute. discriminate.
    + injection Hl as <- <- Hl. by destruct l2.
    + injection Hl as _ _ Hl. discriminate Hl.
  - vm_compute. discriminate.
Defined.

(** The scenario of the specification: the repository at [file:///tmp/repo],
    [connect], [put] of a manifest, [itemlist] and [get]. *)
Example scenario_file_repo :
  __init__ "file:///tmp/repo" = inr repo_file
  /\ snd (connect (host_without_netfs 1) s_repo) = inr tt
  /\ snd (itemlist "manifests"
            (fst (put "manifests/site_default" "{...}" s_repo)))
     = inr ["site_default"]
  /\ snd (get "manifests/site_default"
            (fst (put "manifests/site_default" "{...}" s_repo)))
     = inr "{...}"
  /\ snd (get "manifests/site_default"
            (fst (delete "manifests/site_default"
                    (fst (put "manifests/site_default" "{...}" s_repo)))))
     = inl (IOError errno.ENOENT).
Proof. repeat split; vm_compute; reflexivity. Qed.

(** * Further properties *)

(** ** [mount_share_with_credentials] *)

(** X1: [mount_share_with_credentials] makes one native call, with the
    user name and the password it was given. Result 0 returns the first
    mount point reported; every other result, the authentication codes
    too, raises [ShareMountException] with the URL, the error string of
    the platform and the number in the message. *)
Theorem mount_share_with_credentials_classifies (host : Host)
    (share_url username password : string) (w : World)
    (result : Z) (mountpoints : list string) (f' : gmap (list string) inode) :
  NetFSMountURLSync host w share_url (Some username) (Some password)
  = (result, mountpoints, f') ->
  let w' := set_nodes f'
              (log (EvNetFSMountURLSync share_url (Some username) (Some password))
                   w) in
  (result = 0 -> forall m rest, mountpoints = m :: rest ->
     mount_share_with_credentials host share_url username password w
     = (w', inr m))
  /\ (result <> 0 ->
        exists msg,
          mount_share_with_credentials host share_url username password w
          = (w', inl (ShareMountException msg))
          /\ includes share_url msg
          /\ includes (os_strerror host result) msg
          /\ includes (pretty result) msg).
Proof.
  intros Hcall w'.
  unfold mount_share_with_credentials, call_NetFSMountURLSync, bind.
  rewrite Hcall. fold w'. split.
  - intros -> m rest ->. reflexivity.
  - intros Hnz. exists (mount_error_message host share_url result).
    split; [|apply mount_error_message_includes].
    apply Z.eqb_neq in Hnz. by rewrite Hnz.
Qed.

Lemma mount_share_with_credentials_classifies_witness :
  exists msg,
    mount_share_with_credentials (host_netfs (-6600) 80) "smb://server/share"
      "admin" "wrong" w_volumes
    = (set_nodes fs_volumes
         (log (EvNetFSMountURLSync "smb://server/share" (Some "admin")
                 (Some "wrong")) w_volumes),
       inl (ShareMountException msg))
    /\ includes "smb://server/share" msg
    /\ includes "Unknown error" msg
    /\ includes "80" msg.
Proof.
  destruct (mount_share_with_credentials_classifies (host_netfs (-6600) 80)
              "smb://server/share" "admin" "wrong" w_volumes 80 [] fs_volumes
              eq_refl) as [_ Hother].
  apply Hother. discriminate.
Defined.

(** ** The ways through [connect] *)

Section Connect_ways.

Context (host : Host) (s : State).

Lemma state_eta : mkState (self s) (world s) = s.
Proof. by destruct s. Qed.

Lemma self_eta :
  mkNewFileRepo (baseurl (self s)) (url_scheme (self s)) (root (self s))
    (we_mounted_repo (self s)) = self s.
Proof. by destruct (self s). Qed.

(** No mount is tried: [connect] is its closing check. *)
Lemma connect_without_mount :
  os.exists_at (world s) (root (self s)) = true
  \/ String.eqb (url_scheme (self s)) "file" = true ->
  connect host s
  = (s, if os.exists_at (world s) (root (self s)) then inr tt
        else inl SomeSortOfError).
Proof.
  intros Hskip.
  assert (negb (os.exists_at (world s) (root (self s)))
          && negb (String.eqb (url_scheme (self s)) "file") = false) as Hcond.
  { destruct Hskip as [-> | ->]; [done|]. by rewrite andb_false_r. }
  unfold connect, connect_mount, os.path_exists. unfold_monad.
  cbn [self world]. rewrite Hcond. cbn [self world]. rewrite state_eta.
  by destruct (os.exists_at (world s) (root (self s))).
Qed.

(** The native mount returns a mount point. *)
Lemma connect_native_mounted (w1 : World) (mountpoint : string) :
  os.exists_at (world s) (root (self s)) = false ->
  String.eqb (url_scheme (self s)) "file" = false ->
  NETFSMOUNTURLSYNC_AVAILABLE host = true ->
  mount_share_url host (baseurl (self s)) (log (attempt_line s) (world s))
  = (w1, inr mountpoint) ->
  connect host s
  = (mkState (mkNewFileRepo (baseurl (self s)) (url_scheme (self s))
                mountpoint true) w1,
     if os.exists_at w1 mountpoint then inr tt else inl SomeSortOfError).
Proof.
  intros Hmissing Hscheme Havail Hmount.
  unfold connect, connect_mount, os.path_exists, print, set_root,
    set_we_mounted_repo.
  unfold_monad. cbn [self world].
  rewrite Hmissing, Hscheme, Havail. cbn [andb negb self world].
  unfold attempt_line in Hmount. rewrite Hmount.
  cbn [self world baseurl url_scheme root we_mounted_repo].
  by destruct (os.exists_at w1 mountpoint).
Qed.

(** The native mount raises: the error leaves [connect], and were it a
    [ShareMountException], the handler would raise on looking up [sys]. *)
Lemma connect_native_raised (w1 : World) (err : exn) :
  os.exists_at (world s) (root (self s)) = false ->
  String.eqb (url_scheme (self s)) "file" = false ->
  NETFSMOUNTURLSYNC_AVAILABLE host = true ->
  mount_share_url host (baseurl (self s)) (log (attempt_line s) (world s))
  = (w1, inl err) ->
  connect host s
  = (mkState (self s) w1,
     inl (if is_ShareMountException err then NameError "sys" else err)).
Proof.
  intros Hmissing Hscheme Havail Hmount.
  unfold connect, connect_mount, os.path_exists, print, set_root,
    set_we_mounted_repo.
  unfold_monad. cbn [self world].
  rewrite Hmissing, Hscheme, Havail. cbn [andb negb self world].
  unfold attempt_line in Hmount. rewrite Hmount. cbn [self world].
  by destruct (is_ShareMountException err).
Qed.

(** The mount directory cannot be made. *)
Lemma connect_mkdir_failed (e : Z) :
  os.exists_at (world s) (root (self s)) = false ->
  String.eqb (url_scheme (self s)) "file" = false ->
  NETFSMOUNTURLSYNC_AVAILABLE host = false ->
  os.mkdir_at (world s) (root (self s)) = inl e ->
  connect host s
  = (mkState (self s) (log (attempt_line s) (world s)), inl (OSError e)).
Proof.
  intros Hmissing Hscheme Havail Hmkdir.
  unfold connect, connect_mount, os.path_exists, print, os.mkdir, os.sys_call.
  unfold_monad. cbn [self world].
  rewrite Hmissing, Hscheme, Havail. cbn [andb negb self world].
  rewrite mkdir_at_log, Hmkdir. reflexivity.
Qed.

End Connect_ways.
(** X2: if the root exists, or if the scheme is [file], [connect] tries no
    mount: it calls nothing, prints nothing and changes neither the
    instance nor the file system. It returns if the root exists and raises
    [SomeSortOfError] if not. *)
Theorem connect_no_mount (host : Host) (s : State) :
  os.exists_at (world s) (root (self s)) = true
  \/ url_scheme (self s) = "file" ->
  fst (connect host s) = s
  /\ (os.exists_at (world s) (root (self s)) = true ->
      snd (connect host s) = inr tt)
  /\ (os.exists_at (world s) (root (self s)) = false ->
      snd (connect host s) = inl SomeSortOfError).
Proof.
  intros Hskip. rewrite connect_without_mount.
  - split; [done|]. split; intros ->; done.
  - destruct Hskip as [H|H]; [by left|right; by rewrite H].
Qed.

Lemma connect_no_mount_witness :
  fst (connect (host_netfs 1 1) s_repo) = s_repo
  /\ snd (connect (host_netfs 1 1) s_repo) = inr tt.
Proof.
  destruct (connect_no_mount (host_netfs 1 1) s_repo) as (Hst & Hok & _).
  - right. reflexivity.
  - split; [exact Hst|]. apply Hok. vm_compute. reflexivity.
Defined.

(** X3: [connect] is idempotent: once it has returned, a second [connect]
    returns too and changes nothing, whatever the host would answer. *)
Theorem connect_idempotent (host host' : Host) (s s' : State) :
  connect host s = (s', inr tt) ->
  connect host' s' = (s', inr tt).
Proof.
  intros Hconnect.
  pose proof (connect_returned_present host s s' Hconnect) as Hpresent.
  rewrite connect_without_mount by by left. by rewrite Hpresent.
Qed.

Lemma connect_idempotent_witness :
  connect (host_netfs 1 1)
    (fst (connect (host_netfs 0 0) (mkState repo_smb w_volumes)))
  = (fst (connect (host_netfs 0 0) (mkState repo_smb w_volumes)), inr tt).
Proof.
  apply (connect_idempotent (host_netfs 0 0) (host_netfs 1 1)
           (mkState repo_smb w_volumes)).
  vm_compute. reflexivity.
Defined.

(** X4: when the root is missing, the scheme is not [file] and the
    interactive native mount returns a mount point, [connect] makes that
    mount point the root and sets [we_mounted_repo]; [baseurl] and
    [url_scheme] stay. It then returns if the mount point exists and
    raises [SomeSortOfError] if not. *)
Theorem connect_native_success (host : Host) (s : State) (w1 : World)
    (mountpoint : string) :
  os.exists_at (world s) (root (self s)) = false ->
  url_scheme (self s) <> "file" ->
  NETFSMOUNTURLSYNC_AVAILABLE host = true ->
  mount_share_url host (baseurl (self s)) (log (attempt_line s) (world s))
  = (w1, inr mountpoint) ->
  fst (connect host s)
  = mkState (mkNewFileRepo (baseurl (self s)) (url_scheme (self s))
               mountpoint true) w1
  /\ (os.exists_at w1 mountpoint = true -> snd (connect host s) = inr tt)
  /\ (os.exists_at w1 mountpoint = false ->
      snd (connect host s) = inl SomeSortOfError).
Proof.
  intros Hmissing Hscheme%String.eqb_neq Havail Hmount.
  rewrite (connect_native_mounted host s w1 mountpoint Hmissing Hscheme Havail
             Hmount).
  split; [done|]. split; intros ->; done.
Qed.

Lemma connect_native_success_witness :
  fst (connect (host_netfs 0 0) (mkState repo_smb w_volumes))
  = mkState (mkNewFileRepo "smb://server/share" "smb" "/Volumes/share" true)
      (set_nodes (<[["Volumes"; "share"] := Dir]> fs_volumes)
         (log (EvNetFSMountURLSync "smb://server/share" None None)
            (log (attempt_line (mkState repo_smb w_volumes)) w_volumes))).
Proof.
  apply (connect_native_success (host_netfs 0 0) (mkState repo_smb w_volumes)).
  - vm_compute. reflexivity.
  - discriminate.
  - reflexivity.
  - vm_compute. reflexivity.
Defined.

(** X5: after [connect], [we_mounted_repo] is true exactly if it was true
    before or the mount attempt of this call reported success (the native
    mount returned a mount point, or the mount command exited with 0),
    whether [connect] then returns or raises. *)
Theorem we_mounted_repo_after_connect (host : Host) (s : State) :
  we_mounted_repo (self (fst (connect host s)))
  = we_mounted_repo (self s) || mount_succeeds host s.
Proof.
  unfold mount_succeeds.
  destruct (os.exists_at (world s) (root (self s))) eqn:Hmissing.
  { rewrite connect_without_mount by by left. cbn. by rewrite orb_false_r. }
  destruct (String.eqb (url_scheme (self s)) "file") eqn:Hscheme.
  { rewrite connect_without_mount by by right. cbn. by rewrite orb_false_r. }
  cbn [negb andb].
  destruct (NETFSMOUNTURLSYNC_AVAILABLE host) eqn:Havail.
  - destruct (mount_share_url host (baseurl (self s))
                (log (attempt_line s) (world s))) as [w1 [err|mp]] eqn:Hmount.
    + rewrite (connect_native_raised host s w1 err Hmissing Hscheme Havail Hmount).
      cbn. by rewrite orb_false_r.
    + rewrite (connect_native_mounted host s w1 mp Hmissing Hscheme Havail Hmount).
      cbn. by rewrite orb_true_r.
  - destruct (os.mkdir_at (world s) (root (self s))) as [e|f1] eqn:Hmkdir.
    { rewrite (connect_mkdir_failed host s e Hmissing Hscheme Havail Hmkdir).
      cbn. by rewrite orb_false_r. }
    assert (Hfb : in_fallback host s f1) by done.
    destruct (mount_command (baseurl (self s)) (root (self s))) as [cmd|] eqn:Hcmd.
    + destruct (subprocess_call host (fallback_world s f1) cmd)
        as [retcode f2] eqn:Hcall.
      rewrite (connect_fallback host s f1 Hfb cmd retcode f2 Hcmd Hcall).
      cbn [fst]. destruct (retcode =? 0).
      * cbn. by rewrite orb_true_r.
      * rewrite orb_false_r. by destruct (os.rmdir_at _ _).
    + rewrite (connect_unsupported_url host s f1 Hfb Hcmd). cbn.
      by rewrite orb_false_r.
Qed.

(** X6: the only errors [connect] raises are the [NameError] of one of
    the unbound names [errno] (a native mount with a result other than 0),
    [sys] (no mount command for the URL) and [SomeSortOfError] (the root is
    missing at the end), an [OSError] of [os.mkdir] or [os.rmdir], and
    [IndexError] (a native mount that reports success without a mount
    point). A [ShareMountException] never leaves [connect]. *)
Theorem connect_errors (host : Host) (s : State) (e : exn) :
  snd (connect host s) = inl e ->
  (e = NameError "errno" \/ e = NameError "sys" \/ e = SomeSortOfError
   \/ (exists code, e = OSError code) \/ e = IndexError)
  /\ is_ShareMountException e = false.
Proof.
  intros Herr.
  assert (e = NameError "errno" \/ e = NameError "sys" \/ e = SomeSortOfError
          \/ (exists code, e = OSError code) \/ e = IndexError)
    as Hkind; [|split; [exact Hkind|]].
  2: { destruct Hkind as [->|[->|[->|[[code ->]| ->]]]]; reflexivity. }
  revert Herr.
  destruct (os.exists_at (world s) (root (self s))) eqn:Hmissing.
  { rewrite connect_without_mount by by left. by rewrite Hmissing. }
  destruct (String.eqb (url_scheme (self s)) "file") eqn:Hscheme.
  { rewrite connect_without_mount by by right. rewrite Hmissing.
    intros [= <-]. auto. }
  destruct (NETFSMOUNTURLSYNC_AVAILABLE host) eqn:Havail.
  - destruct (mount_share_url host (baseurl (self s))
                (log (attempt_line s) (world s))) as [w1 [err|mp]] eqn:Hmount.
    + rewrite (connect_native_raised host s w1 err Hmissing Hscheme Havail Hmount).
      cbn [snd]. intros [= <-].
      destruct (mount_share_url_errors host (baseurl (self s))
                  (log (attempt_line s) (world s)) err) as [-> | ->];
        [by rewrite Hmount|cbn; auto..].
    + rewrite (connect_native_mounted host s w1 mp Hmissing Hscheme Havail Hmount).
      destruct (os.exists_at w1 mp); [discriminate|]. intros [= <-]. auto.
  - destruct (os.mkdir_at (world s) (root (self s))) as [code|f1] eqn:Hmkdir.
    { rewrite (connect_mkdir_failed host s code Hmissing Hscheme Havail Hmkdir).
      intros [= <-]. eauto 6. }
    assert (Hfb : in_fallback host s f1) by done.
    destruct (mount_command (baseurl (self s)) (root (self s))) as [cmd|] eqn:Hcmd.
    + destruct (subprocess_call host (fallback_world s f1) cmd)
        as [retcode f2] eqn:Hcall.
      rewrite (connect_fallback host s f1 Hfb cmd retcode f2 Hcmd Hcall).
      destruct (retcode =? 0).
      * destruct (os.exists_at (set_nodes f2 _) _); [discriminate|].
        intros [= <-]. auto.
      * destruct (os.rmdir_at (set_nodes f2 _) _); cbn [snd]; intros [= <-];
          eauto 6.
    + rewrite (connect_unsupported_url host s f1 Hfb Hcmd).
      intros [= <-]. auto.
Qed.

Lemma connect_errors_witness :
  snd (connect (host_netfs 13 0) (mkState repo_smb w_volumes))
  = inl (NameError "errno")
  /\ is_ShareMountException (NameError "errno") = false.
Proof.
  split; [vm_compute; reflexivity|].
  apply (connect_errors (host_netfs 13 0) (mkState repo_smb w_volumes)).
  vm_compute. reflexivity.
Defined.

Lemma mount_command_none (url r : string) :
  pystr.startswith url "afp:" = false ->
  pystr.startswith url "smb:" = false ->
  pystr.startswith url "nfs://" = false ->
  mount_command url r = None.
Proof. intros Ha Hs Hn. unfold mount_command. by rewrite Ha, Hs, Hn. Qed.

Lemma mount_command_shape (url r : string) (cmd : list string) :
  mount_command url r = Some cmd ->
  List.last cmd "" = r
  /\ (hd "" cmd = "/sbin/mount_afp" \/ hd "" cmd = "/sbin/mount_smbfs"
      \/ hd "" cmd = "/sbin/mount_nfs").
Proof.
  unfold mount_command.
  destruct (pystr.startswith url "afp:"); [intros [= <-]; cbn; auto|].
  destruct (pystr.startswith url "smb:"); [intros [= <-]; cbn; auto|].
  destruct (pystr.startswith url "nfs://"); [intros [= <-]; cbn; auto|done].
Qed.

(** X7: without the native call, for a base URL that starts with none of
    [afp:], [smb:] and [nfs://], [connect] makes the mount directory and
    then raises [NameError]: the statement that is to write "Unsupported
    filesystem URL!" to the standard error looks up [sys], which the module
    never imports. Nothing is written, no mount command is called, the
    directory it made stays behind, and the fields are as before. *)
Theorem connect_unsupported_scheme (host : Host) (s : State)
    (f1 : gmap (list string) inode) :
  in_fallback host s f1 ->
  pystr.startswith (baseurl (self s)) "afp:" = false ->
  pystr.startswith (baseurl (self s)) "smb:" = false ->
  pystr.startswith (baseurl (self s)) "nfs://" = false ->
  connect host s
  = (mkState (self s)
       (mkWorld f1 (cwd (world s)) (attempt_line s :: trace (world s))),
     inl (NameError "sys"))
  /\ os.isdir_at (world (fst (connect host s))) (root (self s)) = true.
Proof.
  intros Hfb Ha Hs Hn.
  pose proof (mount_command_none _ (root (self s)) Ha Hs Hn) as Hcmd.
  rewrite (connect_unsupported_url host s f1 Hfb Hcmd). split; [done|].
  destruct Hfb as (_ & _ & _ & Hmkdir). cbn [fst world].
  apply mkdir_at_stat in Hmkdir. unfold os.isdir_at.
  change (os.stat (fallback_world s f1) ?p)
    with (os.stat (set_nodes f1 (world s)) p).
  by rewrite Hmkdir.
Qed.

Lemma connect_unsupported_scheme_witness :
  connect (host_without_netfs 0) (mkState repo_ftp w_volumes)
  = (mkState repo_ftp
       (mkWorld (<[["share"] := Dir]> fs_volumes) []
          [EvPrint ["Attempting to mount fileshare ftp://server/share:"]]),
     inl (NameError "sys")).
Proof.
  apply (connect_unsupported_scheme (host_without_netfs 0)
           (mkState repo_ftp w_volumes) (<[["share"] := Dir]> fs_volumes)).
  - unfold in_fallback. repeat split; vm_compute; reflexivity.
  - reflexivity.
  - reflexivity.
  - reflexivity.
Defined.

(** X8: without the native call, if the mount directory cannot be made
    (its parent is missing, say), [connect] raises the [OSError] of
    [os.mkdir] at once: no mount command is called, and nothing is changed
    but for the line printed before. *)
Theorem connect_mkdir_error (host : Host) (s : State) (code : Z) :
  os.exists_at (world s) (root (self s)) = false ->
  url_scheme (self s) <> "file" ->
  NETFSMOUNTURLSYNC_AVAILABLE host = false ->
  os.mkdir_at (world s) (root (self s)) = inl code ->
  connect host s
  = (mkState (self s)
       (mkWorld (nodes (world s)) (cwd (world s))
          (attempt_line s :: trace (world s))),
     inl (OSError code)).
Proof.
  intros Hmissing Hscheme%String.eqb_neq Havail Hmkdir.
  by rewrite (connect_mkdir_failed host s code Hmissing Hscheme Havail Hmkdir).
Qed.

Lemma connect_mkdir_error_witness :
  __init__ "smb://server/share/subdir" = inr repo_smb_subdir
  /\ connect (host_without_netfs 0) (mkState repo_smb_subdir w_volumes)
     = (mkState repo_smb_subdir
          (mkWorld fs_volumes []
             [EvPrint ["Attempting to mount fileshare smb://server/share/subdir:"]]),
        inl (OSError errno.ENOENT)).
Proof.
  split; [vm_compute; reflexivity|].
  apply (connect_mkdir_error (host_without_netfs 0)
           (mkState repo_smb_subdir w_volumes) errno.ENOENT).
  - vm_compute. reflexivity.
  - discriminate.
  - reflexivity.
  - vm_compute. reflexivity.
Defined.

(** X9: whenever [connect] calls a mount command, it is one of
    [/sbin/mount_afp], [/sbin/mount_smbfs] and [/sbin/mount_nfs], it is the
    only call made, its last argument is the root, and the root names a
    directory at the time of the call. *)
Theorem mount_command_finds_directory (host : Host) (s : State)
    (f1 : gmap (list string) inode) (cmd : list string) :
  in_fallback host s f1 ->
  mount_command (baseurl (self s)) (root (self s)) = Some cmd ->
  invoked host s cmd
  /\ List.last cmd "" = root (self s)
  /\ (hd "" cmd = "/sbin/mount_afp" \/ hd "" cmd = "/sbin/mount_smbfs"
      \/ hd "" cmd = "/sbin/mount_nfs")
  /\ os.isdir_at (fallback_world s f1) (root (self s)) = true.
Proof.
  intros Hfb Hcmd. split; [by apply (connect_fallback_trace host s f1)|].
  destruct (mount_command_shape _ _ _ Hcmd) as [Hlast Htool].
  split; [exact Hlast|]. split; [exact Htool|].
  destruct Hfb as (_ & _ & _ & Hmkdir).
  apply mkdir_at_stat in Hmkdir. unfold os.isdir_at, fallback_world.
  change (os.stat (set_nodes f1 (log ?e ?w)) ?p)
    with (os.stat (set_nodes f1 w) p).
  by rewrite Hmkdir.
Qed.

Lemma mount_command_finds_directory_witness :
  os.isdir_at
    (fallback_world (mkState repo_smb_host w_volumes)
       (<[["share"] := Dir]> fs_volumes))
    "/share" = true.
Proof.
  apply (mount_command_finds_directory (host_without_netfs 0)
           (mkState repo_smb_host w_volumes) (<[["share"] := Dir]> fs_volumes)
           ["/sbin/mount_smbfs"; "//host/share"; "/share"]).
  - unfold in_fallback. repeat split; vm_compute; reflexivity.
  - vm_compute. reflexivity.
Defined.

(** ** Well-formedness is kept *)

Lemma wf_fs_intro (f : gmap (list string) inode) :
  f !! [] = Some Dir ->
  (forall k n x, f !! (k ++ [n]) = Some x ->
     valid_name n = true /\ f !! k = Some Dir) ->
  wf_fs f = true.
Proof.
  intros Hroot Hentries. unfold wf_fs.
  apply andb_true_iff. split; [by apply bool_decide_eq_true|].
  apply forallb_forall. intros k' Hin.
  apply list_elem_of_In, list_elem_of_fmap in Hin as ([k'' x] & -> & Hin).
  apply elem_of_map_to_list in Hin. cbn [fst].
  destruct k'' as [|n k _] using rev_ind; [done|].
  destruct (Hentries k n x Hin) as [Hn Hk].
  unfold wf_key. destruct (k ++ [n]) as [|a l] eqn:E; [done|].
  rewrite <- E, last_last, removelast_last, Hn.
  cbn [andb]. by apply bool_decide_eq_true.
Qed.

Section Wf_kept.

Context (f : gmap (list string) inode).
Context (Hwf : wf_fs f = true).

Lemma wf_root_not_file (k : list string) (d : string) :
  f !! k = Some (File d) -> k <> [].
Proof using Hwf. intros Hk ->. by rewrite (wf_root f Hwf) in Hk. Qed.

(** A new object under a valid name in a directory. *)
Lemma wf_insert_new (k : list string) (n : string) (x : inode) :
  f !! (k ++ [n]) = None -> valid_name n = true -> f !! k = Some Dir ->
  wf_fs (<[k ++ [n] := x]> f) = true.
Proof using Hwf.
  intros Hnew Hn Hk. apply wf_fs_intro.
  - rewrite lookup_insert_ne by by destruct k. by apply wf_root.
  - intros a m y Hy.
    assert (Hdir : forall d, f !! d = Some Dir -> <[k ++ [n] := x]> f !! d = Some Dir).
    { intros d Hd. rewrite lookup_insert_ne; [done|]. intros <-. congruence. }
    destruct (decide (k ++ [n] = a ++ [m])) as [[-> ->]%app_inj_tail|Hne].
    + split; [done|]. by apply Hdir.
    + rewrite lookup_insert_ne in Hy by done.
      destruct (wf_entry f Hwf a m y Hy) as [Hm Ha]. split; [done|by apply Hdir].
Qed.

(** A regular file with new content. *)
Lemma wf_insert_file (k : list string) (d d' : string) :
  f !! k = Some (File d) -> wf_fs (<[k := File d']> f) = true.
Proof using Hwf.
  intros Hk. apply wf_fs_intro.
  - rewrite lookup_insert_ne by by apply (wf_root_not_file k d).
    by apply wf_root.
  - intros a m y Hy.
    assert (exists y', f !! (a ++ [m]) = Some y') as [y' Hy'].
    { destruct (decide (k = a ++ [m])) as [Heq|Hne].
      - rewrite <- Heq. eauto.
      - rewrite lookup_insert_ne in Hy by done. eauto. }
    destruct (wf_entry f Hwf a m y' Hy') as [Hm Ha]. split; [done|].
    rewrite lookup_insert_ne; [done|]. intros <-. congruence.
Qed.

(** A regular file removed. *)
Lemma wf_delete_file (k : list string) (d : string) :
  f !! k = Some (File d) -> wf_fs (base.delete k f) = true.
Proof using Hwf.
  intros Hk. apply wf_fs_intro.
  - rewrite lookup_delete_ne by by apply (wf_root_not_file k d).
    by apply wf_root.
  - intros a m y Hy.
    assert (f !! (a ++ [m]) = Some y) as Hy'.
    { destruct (decide (k = a ++ [m])) as [Heq|Hne].
      - by rewrite <- Heq, lookup_delete_eq in Hy.
      - by rewrite lookup_delete_ne in Hy. }
    destruct (wf_entry f Hwf a m y Hy') as [Hm Ha]. split; [done|].
    rewrite lookup_delete_ne; [done|]. intros <-. congruence.
Qed.

(** An empty directory removed. *)
Lemma wf_delete_empty_dir (k : list string) :
  k <> [] -> os.children f k = [] -> wf_fs (base.delete k f) = true.
Proof using Hwf.
  intros Hk Hempty. apply wf_fs_intro.
  - rewrite lookup_delete_ne by done. by apply wf_root.
  - intros a m y Hy.
    assert (f !! (a ++ [m]) = Some y) as Hy'.
    { destruct (decide (k = a ++ [m])) as [Heq|Hne].
      - by rewrite <- Heq, lookup_delete_eq in Hy.
      - by rewrite lookup_delete_ne in Hy. }
    destruct (wf_entry f Hwf a m y Hy') as [Hm Ha]. split; [done|].
    rewrite lookup_delete_ne; [done|]. intros <-.
    assert (m ∈ os.children f k) as Hin by (apply elem_of_children; eauto).
    rewrite Hempty in Hin. by apply not_elem_of_nil in Hin.
Qed.

(** Where a path leads: to an object that exists, or to a valid new name in
    a directory. *)
Lemma namei_lands (cur cs k : list string) :
  Forall (fun c => pystr.contains "/" c = false) cs ->
  os.namei f cur cs = inr k ->
  k = cur \/ is_Some (f !! k)
  \/ exists k' c, k = k' ++ [c] /\ valid_name c = true /\ f !! k' = Some Dir.
Proof using Hwf.
  revert cur. induction cs as [|c cs IH]; intros cur Hcs.
  { cbn. intros [= <-]. by left. }
  apply Forall_cons in Hcs as [Hc Hcs]. cbn [os.namei].
  destruct (f !! cur) as [[|]|] eqn:Hcur; try done.
  destruct (String.eqb c "" || String.eqb c ".") eqn:Hskip.
  { intros [->|H]%(IH _ Hcs); [right; left; eauto|by right]. }
  destruct (String.eqb c "..") eqn:Hup.
  { intros [->|H]%(IH _ Hcs); [|by right]. right. left.
    destruct cur as [|n cur _] using rev_ind; [cbn; eauto|].
    rewrite removelast_last. destruct (wf_entry f Hwf _ _ _ Hcur). eauto. }
  intros [->|H]%(IH _ Hcs); [|by right]. right. right.
  exists cur, c. split; [done|]. split; [|done].
  apply orb_false_iff in Hskip as [H1 H2].
  unfold valid_name. by rewrite H1, H2, Hup, Hc.
Qed.

End Wf_kept.

Lemma components_no_slashes (p : string) :
  Forall (fun c => pystr.contains "/" c = false) (os.components p).
Proof.
  induction p as [|a p IH]; [by repeat constructor|]. cbn [os.components].
  destruct (Ascii.eqb a "/") eqn:Ea; [by constructor|].
  destruct (os.components p) as [|c cs].
  { constructor; [|constructor]. by rewrite contains_cons, Ea. }
  apply Forall_cons in IH as [Hc Hcs]. constructor; [|done].
  by rewrite contains_cons, Ea, Hc.
Qed.

Section Wf_calls.

Context (w : World).
Context (Hwf : wf_fs (nodes w) = true).

Lemma resolve_lands (p : string) (k : list string) :
  os.resolve w p = inr k ->
  is_Some (nodes w !! k)
  \/ exists k' c, k = k' ++ [c] /\ valid_name c = true /\ nodes w !! k' = Some Dir.
Proof using Hwf.
  unfold os.resolve. destruct (String.eqb p ""); [done|].
  pose proof (components_no_slashes p) as Hcs.
  pose proof (components_nonempty p) as Hne.
  destruct (os.components p) as [|c cs]; [done|].
  generalize (if pystr.startswith p "/" then [] else cwd w). intros cur Hres.
  destruct (namei_lands (nodes w) Hwf cur (c :: cs) k Hcs Hres) as [Heq|H];
    [|exact H].
  left. subst k. cbn [os.namei] in Hres.
  by destruct (nodes w !! cur) as [[|]|].
Qed.

Lemma create_wf (k : list string) (x : inode) (f' : gmap (list string) inode) :
  (is_Some (nodes w !! k)
   \/ exists k' c, k = k' ++ [c] /\ valid_name c = true /\ nodes w !! k' = Some Dir) ->
  nodes w !! k = None ->
  os.create (nodes w) k x = inr f' -> wf_fs f' = true.
Proof using Hwf.
  intros [[y Hy]|(k' & c & -> & Hc & Hk')] Hnew; [congruence|].
  assert (os.create (nodes w) (k' ++ [c]) x = inr (<[k' ++ [c] := x]> (nodes w)))
    as ->.
  { unfold os.create. rewrite removelast_last, Hk'. by destruct k'. }
  intros [= <-]. by apply wf_insert_new.
Qed.

Lemma mkdir_at_wf (p : string) (f' : gmap (list string) inode) :
  os.mkdir_at w p = inr f' -> wf_fs f' = true.
Proof using Hwf.
  unfold os.mkdir_at.
  destruct (os.resolve w (os.strip_trailing p)) as [e|k] eqn:Hres; [done|].
  destruct (nodes w !! k) eqn:Hk; [done|].
  apply create_wf; [by eapply resolve_lands|done].
Qed.

Lemma write_at_wf (p content : string) (f' : gmap (list string) inode) :
  os.write_at w p content = inr f' -> wf_fs f' = true.
Proof using Hwf.
  unfold os.write_at.
  destruct (os.resolve w p) as [e|k] eqn:Hres; [done|].
  destruct (nodes w !! k) as [[d|]|] eqn:Hk; [|done|].
  - intros [= <-]. by apply (wf_insert_file _ Hwf k d).
  - apply create_wf; [by eapply resolve_lands|done].
Qed.

Lemma remove_at_wf (p : string) (f' : gmap (list string) inode) :
  os.remove_at w p = inr f' -> wf_fs f' = true.
Proof using Hwf.
  unfold os.remove_at.
  destruct (os.resolve w p) as [e|k]; [done|].
  destruct (nodes w !! k) as [[d|]|] eqn:Hk; try done.
  intros [= <-]. by apply (wf_delete_file _ Hwf k d).
Qed.

Lemma rmdir_at_wf (p : string) (f' : gmap (list string) inode) :
  os.rmdir_at w p = inr f' -> wf_fs f' = true.
Proof using Hwf.
  unfold os.rmdir_at.
  destruct (os.resolve w (os.strip_trailing p)) as [e|k]; [done|].
  destruct (nodes w !! k) as [[d|]|] eqn:Hk; try done.
  destruct (String.eqb _ "."); [done|].
  destruct k as [|k0 k']; [done|].
  destruct (os.children (nodes w) (k0 :: k')) eqn:Hc; [|done].
  intros [= <-]. by apply wf_delete_empty_dir.
Qed.

End Wf_calls.

(** ** How the file operations run *)

Lemma dirs_added_refl (f : gmap (list string) inode) : dirs_added f f.
Proof. split; eauto. Qed.

Lemma dirs_added_trans (f1 f2 f3 : gmap (list string) inode) :
  dirs_added f1 f2 -> dirs_added f2 f3 -> dirs_added f1 f3.
Proof.
  intros [H12 H21] [H23 H32]. split; [eauto|].
  intros k x [H|[-> H]]%H32.
  - by apply H21.
  - destruct (f1 !! k) as [y|] eqn:Hy; [|by right].
    apply H12 in Hy. congruence.
Qed.

Lemma dirs_added_files (f f' : gmap (list string) inode) (k : list string)
    (d : string) :
  dirs_added f f' -> f' !! k = Some (File d) <-> f !! k = Some (File d).
Proof.
  intros [Hkeep Hnew]. split; [|by apply Hkeep].
  by intros [H|[? _]]%Hnew.
Qed.

Lemma write_at_inv (w : World) (p content : string)
    (f' : gmap (list string) inode) :
  os.write_at w p content = inr f' ->
  exists k, os.resolve w p = inr k /\ nodes w !! k <> Some Dir
            /\ f' = <[k := File content]> (nodes w).
Proof.
  unfold os.write_at.
  destruct (os.resolve w p) as [e|k]; [done|].
  intros H. exists k. split; [done|]. revert H.
  destruct (nodes w !! k) as [[|]|] eqn:Hk; try done.
  - intros [= <-]. done.
  - unfold os.create. destruct k; [done|].
    destruct (nodes w !! removelast _) as [[|]|]; try done.
    intros [= <-]. done.
Qed.

Lemma remove_at_inv (w : World) (p : string) (f' : gmap (list string) inode) :
  os.remove_at w p = inr f' ->
  exists k d, os.resolve w p = inr k /\ nodes w !! k = Some (File d)
              /\ f' = base.delete k (nodes w).
Proof.
  unfold os.remove_at.
  destruct (os.resolve w p) as [e|k]; [done|].
  destruct (nodes w !! k) as [[d|]|] eqn:Hk; try done.
  intros [= <-]. eauto.
Qed.

Lemma read_at_inv (w : World) (p data : string) :
  os.read_at w p = inr data <->
  exists k, os.resolve w p = inr k /\ nodes w !! k = Some (File data).
Proof.
  unfold os.read_at. destruct (os.resolve w p) as [e|k].
  - split; [done|]. by intros (k & ? & _).
  - split.
    + destruct (nodes w !! k) as [[d|]|] eqn:Hk; try done.
      intros [= ->]. eauto.
    + intros (k' & [= <-] & ->). done.
Qed.

(** A lookup that succeeds does so alike after files have been written,
    removed or directories added. *)
Lemma resolve_mono (w : World) (f' : gmap (list string) inode) (p : string)
    (k : list string) :
  (forall d, nodes w !! d = Some Dir -> f' !! d = Some Dir) ->
  os.resolve w p = inr k -> os.resolve (set_nodes f' w) p = inr k.
Proof.
  intros Hdirs. unfold os.resolve. cbn [nodes cwd set_nodes].
  destruct (String.eqb p ""); [done|]. by apply namei_mono.
Qed.

Lemma mkdir_run (p : string) (w w' : World) (r : exn + unit) :
  os.mkdir p w = (w', r) ->
  cwd w' = cwd w /\ trace w' = trace w
  /\ dirs_added (nodes w) (nodes w')
  /\ (wf_fs (nodes w) = true -> wf_fs (nodes w') = true).
Proof.
  unfold os.mkdir, os.sys_call.
  destruct (os.mkdir_at w p) as [e|f'] eqn:Hmk; intros [= <- <-].
  { repeat split; eauto. }
  split; [done|]. split; [done|]. split.
  - revert Hmk. unfold os.mkdir_at.
    destruct (os.resolve w (os.strip_trailing p)) as [e|k]; [done|].
    destruct (nodes w !! k) eqn:Hk; [done|].
    unfold os.create. destruct k as [|k0 k1]; [done|].
    destruct (nodes w !! removelast _) as [[|]|]; try done.
    intros [= <-]. cbn [nodes set_nodes]. split.
    + intros k' x Hx. rewrite lookup_insert_ne; [done|]. intros <-. congruence.
    + intros k' x. destruct (decide (k0 :: k1 = k')) as [<-|Hne].
      * rewrite lookup_insert_eq. intros [= <-]. by right.
      * rewrite lookup_insert_ne by done. by left.
  - intros Hwf. by apply (mkdir_at_wf w Hwf p).
Qed.

(** [makedirs] adds directories and does nothing else, also when it
    fails. *)
Lemma makedirs_fuel_run (n : nat) :
  forall name w w' r,
    os.makedirs_fuel n name w = (w', r) ->
    cwd w' = cwd w /\ trace w' = trace w
    /\ dirs_added (nodes w) (nodes w')
    /\ (wf_fs (nodes w) = true -> wf_fs (nodes w') = true).
Proof.
  induction n as [|n IH]; intros name w w' r; rewrite makedirs_fuel_eq;
    destruct (posixpath.split name) as [h t];
    destruct (if String.eqb t "" then posixpath.split h else (h, t)) as [h2 t2];
    unfold os.path_exists; unfold_monad;
    (destruct (negb (String.eqb h2 "") && negb (String.eqb t2 ""));
     [destruct (os.exists_at w h2); cbn [negb]|]);
    try apply mkdir_run.
  destruct (os.makedirs_fuel n h2 w) as [w1 r1] eqn:Hrec.
  destruct (IH h2 w w1 r1 Hrec) as (Hc1 & Ht1 & Hd1 & Hw1).
  assert (Hthen : forall w2 r2,
            os.mkdir name w1 = (w2, r2) ->
            cwd w2 = cwd w /\ trace w2 = trace w
            /\ dirs_added (nodes w) (nodes w2)
            /\ (wf_fs (nodes w) = true -> wf_fs (nodes w2) = true)).
  { intros w2 r2 (Hc2 & Ht2 & Hd2 & Hw2)%mkdir_run.
    split; [congruence|]. split; [congruence|].
    split; [by eapply dirs_added_trans|auto]. }
  assert (Hstop : forall r2, (w1, r2) = (w', r) ->
            cwd w' = cwd w /\ trace w' = trace w
            /\ dirs_added (nodes w) (nodes w')
            /\ (wf_fs (nodes w) = true -> wf_fs (nodes w') = true)).
  { intros r2 [= <- <-]. done. }
  destruct r1 as [e|[]].
  - destruct e; try apply Hstop.
    destruct (negb (code =? errno.EEXIST)); [apply Hstop|].
    destruct (String.eqb t2 "."); [apply Hstop|apply Hthen].
  - destruct (String.eqb t2 "."); [apply Hstop|apply Hthen].
Qed.


Lemma ensure_dir_run (dir_path : string) (w w1 : World) (r1 : exn + unit) :
  ensure_dir dir_path w = (w1, r1) ->
  cwd w1 = cwd w /\ trace w1 = trace w
  /\ dirs_added (nodes w) (nodes w1)
  /\ (wf_fs (nodes w) = true -> wf_fs (nodes w1) = true).
Proof.
  unfold ensure_dir. destruct (os.exists_at w dir_path).
  - intros [= <- <-]. repeat split; eauto.
  - apply makedirs_fuel_run.
Qed.

Lemma copyfile_run (src dst : string) (w : World) :
  shutil.copyfile src dst w
  = if shutil._samefile w src dst then
      (w, inl (shutil_Error
                 ("`" +:+ src +:+ "` and `" +:+ dst +:+ "` are the same file")))
    else
      match os.read_at w src with
      | inl e => (w, inl (IOError e))
      | inr data =>
          match os.write_at w dst data with
          | inl e => (w, inl (IOError e))
          | inr f' => (set_nodes f' w, inr tt)
          end
      end.
Proof.
  unfold shutil.copyfile, os.open_read, os.open_write, os.sys_call.
  unfold_monad. destruct (shutil._samefile w src dst); [done|].
  destruct (os.read_at w src) as [e|data]; [done|].
  by destruct (os.write_at w dst data).
Qed.

Section Item_runs.

Context (s : State).

Lemma get_run (id : string) :
  get id s
  = match os.read_at (world s) (posixpath.join (root (self s)) id) with
    | inl e => (s, inl (IOError e))
    | inr data => (s, inr data)
    end.
Proof.
  unfold get. unfold bind at 1. unfold gets at 1. rewrite reraising_id.
  unfold lift, os.open_read.
  destruct (os.read_at _ _); by rewrite state_eta.
Qed.

Lemma delete_run (id : string) :
  delete id s
  = match os.remove_at (world s) (posixpath.join (root (self s)) id) with
    | inl e => (s, inl (OSError e))
    | inr f' => (mkState (self s) (set_nodes f' (world s)), inr tt)
    end.
Proof.
  unfold delete. unfold bind at 1. unfold gets at 1. rewrite reraising_id.
  unfold lift, os.remove, os.sys_call.
  destruct (os.remove_at _ _); [by rewrite state_eta|done].
Qed.

Lemma get_to_local_file_run (id local_file_path : string) :
  get_to_local_file id local_file_path s
  = let '(w', r) :=
      shutil.copyfile (posixpath.join (root (self s)) id) local_file_path
        (world s) in
    (mkState (self s) w', r).
Proof.
  unfold get_to_local_file. unfold bind at 1. unfold gets at 1.
  rewrite reraising_id. reflexivity.
Qed.

Lemma put_run (id content : string) :
  put id content s
  = match ensure_dir
            (posixpath.dirname (posixpath.join (root (self s)) id)) (world s) with
    | (w1, inl e) => (mkState (self s) w1, inl e)
    | (w1, inr _) =>
        match os.write_at w1 (posixpath.join (root (self s)) id) content with
        | inl e => (mkState (self s) w1, inl (IOError e))
        | inr f' => (mkState (self s) (set_nodes f' w1), inr tt)
        end
    end.
Proof.
  unfold put, ensure_dir. unfold bind at 1. unfold gets at 1. cbn beta iota.
  set (p := posixpath.join (root (self s)) id).
  unfold bind at 1, lift at 1, os.path_exists, gets.
  destruct (os.exists_at (world s) (posixpath.dirname p)); cbn [negb self world].
  - unfold bind at 1, ret at 1. rewrite reraising_id.
    unfold lift, os.open_write, os.sys_call. cbn [self world].
    by destruct (os.write_at (world s) p content).
  - unfold bind at 1, lift at 1. cbn [self world].
    destruct (os.makedirs (posixpath.dirname p) (world s)) as [w1 [e|[]]]; [done|].
    rewrite reraising_id. unfold lift, os.open_write, os.sys_call.
    cbn [self world]. by destruct (os.write_at w1 p content).
Qed.

Lemma put_from_local_file_run (id local_file_path : string) :
  put_from_local_file id local_file_path s
  = match ensure_dir
            (posixpath.dirname (posixpath.join (root (self s)) id)) (world s) with
    | (w1, inl e) => (mkState (self s) w1, inl e)
    | (w1, inr _) =>
        let '(w2, r) :=
          shutil.copyfile local_file_path (posixpath.join (root (self s)) id)
            w1 in
        (mkState (self s) w2, r)
    end.
Proof.
  unfold put_from_local_file, ensure_dir. unfold bind at 1. unfold gets at 1.
  cbn beta iota. set (p := posixpath.join (root (self s)) id).
  unfold bind at 1, lift at 1, os.path_exists, gets.
  destruct (os.exists_at (world s) (posixpath.dirname p)); cbn [negb self world].
  - unfold bind at 1, ret at 1. rewrite reraising_id. reflexivity.
  - unfold bind at 1, lift at 1. cbn [self world].
    destruct (os.makedirs (posixpath.dirname p) (world s)) as [w1 [e|[]]]; [done|].
    rewrite reraising_id. reflexivity.
Qed.

End Item_runs.

Lemma mkdir_raises (p : string) (w w' : World) (e : exn) :
  os.mkdir p w = (w', inl e) -> exists code, e = OSError code.
Proof.
  unfold os.mkdir, os.sys_call.
  destruct (os.mkdir_at w p) as [c|f']; [|done]. intros [= <- <-]. eauto.
Qed.

Lemma makedirs_fuel_raises (n : nat) :
  forall name w w' e,
    os.makedirs_fuel n name w = (w', inl e) -> exists code, e = OSError code.
Proof.
  induction n as [|n IH]; intros name w w' e; rewrite makedirs_fuel_eq;
    destruct (posixpath.split name) as [h t];
    destruct (if String.eqb t "" then posixpath.split h else (h, t)) as [h2 t2];
    unfold os.path_exists; unfold_monad;
    (destruct (negb (String.eqb h2 "") && negb (String.eqb t2 ""));
     [destruct (os.exists_at w h2); cbn [negb]|]);
    try apply mkdir_raises.
  destruct (os.makedirs_fuel n h2 w) as [w1 r1] eqn:Hrec.
  destruct r1 as [e1|[]].
  - destruct (IH _ _ _ _ Hrec) as [code ->].
    destruct (negb (code =? errno.EEXIST)); [intros [= <- <-]; eauto|].
    destruct (String.eqb t2 "."); [done|apply mkdir_raises].
  - destruct (String.eqb t2 "."); [done|apply mkdir_raises].
Qed.

Lemma ensure_dir_raises (dir_path : string) (w w1 : World) (e : exn) :
  ensure_dir dir_path w = (w1, inl e) -> exists code, e = OSError code.
Proof.
  unfold ensure_dir. destruct (os.exists_at w dir_path); [done|].
  apply makedirs_fuel_raises.
Qed.

Lemma resolve_mono_worlds (w w' : World) (p : string) (k : list string) :
  cwd w' = cwd w ->
  (forall d, nodes w !! d = Some Dir -> nodes w' !! d = Some Dir) ->
  os.resolve w p = inr k -> os.resolve w' p = inr k.
Proof.
  intros Hcwd Hdirs. unfold os.resolve. rewrite Hcwd.
  destruct (String.eqb p ""); [done|]. by apply namei_mono.
Qed.

Lemma insert_file_dirs (f : gmap (list string) inode) (k : list string)
    (content : string) :
  f !! k <> Some Dir ->
  forall d, f !! d = Some Dir -> <[k := File content]> f !! d = Some Dir.
Proof.
  intros Hk d Hd. rewrite lookup_insert_ne; [done|]. by intros <-.
Qed.

Lemma delete_file_dirs (f : gmap (list string) inode) (k : list string)
    (data : string) :
  f !! k = Some (File data) ->
  forall d, f !! d = Some Dir -> base.delete k f !! d = Some Dir.
Proof.
  intros Hk d Hd. rewrite lookup_delete_ne; [done|]. intros <-. congruence.
Qed.

Lemma copyfile_wf (src dst : string) (w w' : World) (r : exn + unit) :
  wf_fs (nodes w) = true ->
  shutil.copyfile src dst w = (w', r) -> wf_fs (nodes w') = true.
Proof.
  intros Hwf. rewrite copyfile_run.
  destruct (shutil._samefile w src dst); [by intros [= <- <-]|].
  destruct (os.read_at w src) as [e|data]; [by intros [= <- <-]|].
  destruct (os.write_at w dst data) as [e|f'] eqn:Hwrite; intros [= <- <-];
    [done|].
  by apply (write_at_wf w Hwf dst data).
Qed.

(** X10: [get] changes nothing. It returns the data exactly when the path
    of the resource leads to a regular file that holds them; every other
    outcome is an [IOError], with [EISDIR] for a directory and [ENOENT]
    where nothing is. *)
Theorem get_outcome (s : State) (id : string) :
  fst (get id s) = s
  /\ (forall data,
        snd (get id s) = inr data
        <-> exists k,
              os.resolve (world s) (posixpath.join (root (self s)) id) = inr k
              /\ nodes (world s) !! k = Some (File data))
  /\ (forall e, snd (get id s) = inl e -> exists code, e = IOError code)
  /\ (forall k,
        os.resolve (world s) (posixpath.join (root (self s)) id) = inr k ->
        (nodes (world s) !! k = Some Dir ->
         snd (get id s) = inl (IOError errno.EISDIR))
        /\ (nodes (world s) !! k = None ->
            snd (get id s) = inl (IOError errno.ENOENT))).
Proof.
  rewrite get_run. split; [|split; [|split]].
  - by destruct (os.read_at _ _).
  - intros data. rewrite <- read_at_inv.
    destruct (os.read_at _ _) as [e|d]; cbn [snd]; split; congruence.
  - intros e. destruct (os.read_at _ _) as [c|d]; cbn [snd]; [|done].
    intros [= <-]. eauto.
  - intros k Hres. unfold os.read_at. rewrite Hres.
    split; intros ->; reflexivity.
Qed.

Lemma get_outcome_witness :
  get "manifests/site_default" s_items = (s_items, inr "{...}")
  /\ snd (get "pkgsinfo" s_items) = inl (IOError errno.EISDIR).
Proof.
  destruct (get_outcome s_items "manifests/site_default")
    as (Hsame & Hdata & _).
  destruct (get_outcome s_items "pkgsinfo") as (_ & _ & _ & Hdir).
  split.
  - rewrite (surjective_pairing (get _ _)). apply pair_equal_spec.
    split; [exact Hsame|].
    apply Hdata. exists ["tmp"; "repo"; "manifests"; "site_default"].
    split; vm_compute; reflexivity.
  - apply (Hdir ["tmp"; "repo"; "pkgsinfo"]); vm_compute; reflexivity.
Defined.

(** X11: after [delete] of a resource has succeeded, [get] of the same
    resource raises [IOError] with [ENOENT], and changes nothing. *)
Theorem delete_then_get (s s' : State) (id : string) :
  delete id s = (s', inr tt) -> get id s' = (s', inl (IOError errno.ENOENT)).
Proof.
  rewrite delete_run, get_run.
  destruct (os.remove_at _ _) as [e|f'] eqn:Hrm; [done|].
  intros [= <-]. cbn [self world].
  apply remove_at_inv in Hrm as (k & d & Hres & Hk & ->).
  unfold os.read_at.
  rewrite (resolve_mono _ _ _ k (delete_file_dirs _ _ _ Hk) Hres).
  cbn [nodes set_nodes]. by rewrite lookup_delete_eq.
Qed.

Lemma delete_then_get_witness :
  get "manifests/site_default" (fst (delete "manifests/site_default" s_items))
  = (fst (delete "manifests/site_default" s_items),
     inl (IOError errno.ENOENT)).
Proof.
  apply (delete_then_get s_items). vm_compute. reflexivity.
Defined.

(** X12: [delete] keeps the instance, the working directory and the trace.
    When it succeeds, the path of the resource led to a regular file and
    exactly that entry is gone from the file system. When it fails, nothing
    has changed, the exception is an [OSError], and the path did not lead
    to a regular file. *)
Theorem delete_outcome (s s' : State) (id : string) (r : exn + unit) :
  delete id s = (s', r) ->
  self s' = self s
  /\ cwd (world s') = cwd (world s)
  /\ trace (world s') = trace (world s)
  /\ match r with
     | inr _ =>
         exists k d,
           os.resolve (world s) (posixpath.join (root (self s)) id) = inr k
           /\ nodes (world s) !! k = Some (File d)
           /\ nodes (world s') = base.delete k (nodes (world s))
     | inl e =>
         s' = s
         /\ (exists code, e = OSError code)
         /\ ~ (exists k d,
                 os.resolve (world s) (posixpath.join (root (self s)) id)
                 = inr k
                 /\ nodes (world s) !! k = Some (File d))
     end.
Proof.
  rewrite delete_run.
  destruct (os.remove_at _ _) as [e|f'] eqn:Hrm; intros [= <- <-].
  - repeat split; eauto.
    intros (k & d & Hres & Hk). revert Hrm. unfold os.remove_at.
    by rewrite Hres, Hk.
  - apply remove_at_inv in Hrm as (k & d & Hres & Hk & ->).
    repeat split; eauto.
Qed.

Lemma delete_outcome_witness :
  nodes (world (fst (delete "manifests/site_default" s_items)))
  !! ["tmp"; "repo"; "manifests"; "site_default"] = None
  /\ fst (delete "manifests" s_items) = s_items.
Proof.
  split.
  - destruct (delete_outcome s_items
                (fst (delete "manifests/site_default" s_items))
                "manifests/site_default" (inr tt))
      as (_ & _ & _ & k & d & Hres & _ & ->); [vm_compute; reflexivity|].
    assert (k = ["tmp"; "repo"; "manifests"; "site_default"]) as ->.
    { revert Hres. vm_compute. congruence. }
    apply lookup_delete_eq.
  - by destruct (delete_outcome s_items (fst (delete "manifests" s_items))
                   "manifests" (inl (OSError errno.EPERM)))
      as (_ & _ & _ & -> & _); [vm_compute; reflexivity|].
Defined.

(** X13: when [get_to_local_file] succeeds, the local file holds what [get]
    of the resource returned before, and [get] of the resource still
    returns it. When it fails, nothing has changed. *)
Theorem get_to_local_file_outcome (s s' : State) (id local_file_path : string)
    (r : exn + unit) :
  get_to_local_file id local_file_path s = (s', r) ->
  match r with
  | inr _ =>
      exists data,
        get id s = (s, inr data)
        /\ os.read_at (world s') local_file_path = inr data
        /\ get id s' = (s', inr data)
        /\ self s' = self s
  | inl _ => s' = s
  end.
Proof.
  rewrite get_to_local_file_run, copyfile_run.
  destruct (shutil._samefile _ _ _) eqn:Hsame.
  { intros [= <- <-]. apply state_eta. }
  destruct (os.read_at _ _) as [e|data] eqn:Hread.
  { intros [= <- <-]. apply state_eta. }
  destruct (os.write_at _ _ _) as [e|f'] eqn:Hwrite.
  { intros [= <- <-]. apply state_eta. }
  intros [= <- <-]. exists data.
  apply write_at_inv in Hwrite as (kd & Hresd & Hnd & ->).
  pose proof Hread as (ks & Hress & Hks)%read_at_inv.
  pose proof (insert_file_dirs _ kd data Hnd) as Hdirs.
  assert (Hne : kd <> ks).
  { intros ->. revert Hsame. unfold shutil._samefile, os.stat.
    rewrite Hress, Hresd, Hks. by rewrite bool_decide_eq_true_2. }
  split; [by rewrite get_run, Hread|]. cbn [self world]. split; [|split; [|done]].
  - apply read_at_inv. exists kd. split; [by apply resolve_mono|].
    cbn [nodes set_nodes]. by rewrite lookup_insert_eq.
  - rewrite get_run. cbn [self world].
    assert (os.read_at (set_nodes (<[kd:=File data]> (nodes (world s))) (world s))
              (posixpath.join (root (self s)) id) = inr data) as ->; [|done].
    apply read_at_inv. exists ks. split; [by apply resolve_mono|].
    cbn [nodes set_nodes]. by rewrite lookup_insert_ne.
Qed.

Lemma get_to_local_file_outcome_witness :
  os.read_at
    (world (fst (get_to_local_file "manifests/site_default" "/tmp/copy"
                   s_items)))
    "/tmp/copy"
  = inr "{...}"
  /\ fst (get_to_local_file "manifests/missing" "/tmp/copy" s_items) = s_items.
Proof.
  split.
  - destruct (get_to_local_file_outcome s_items
                (fst (get_to_local_file "manifests/site_default" "/tmp/copy"
                        s_items))
                "manifests/site_default" "/tmp/copy" (inr tt))
      as (data & Hget & -> & _); [vm_compute; reflexivity|].
    assert (Hdata : snd (get "manifests/site_default" s_items) = inr data)
      by (by rewrite Hget).
    vm_compute in Hdata. injection Hdata as <-. reflexivity.
  - apply (get_to_local_file_outcome s_items
             (fst (get_to_local_file "manifests/missing" "/tmp/copy" s_items))
             "manifests/missing" "/tmp/copy" (inl (IOError errno.ENOENT))).
    vm_compute. reflexivity.
Defined.

(** X14: when [put_from_local_file] succeeds, [get] of the resource returns
    what the local file holds, and the local file holds what it held
    before. *)
Theorem put_from_local_file_then_get (s s' : State)
    (id local_file_path : string) :
  put_from_local_file id local_file_path s = (s', inr tt) ->
  exists data,
    os.read_at (world s') local_file_path = inr data
    /\ get id s' = (s', inr data)
    /\ (forall d, os.read_at (world s) local_file_path = inr d -> d = data).
Proof.
  rewrite put_from_local_file_run.
  destruct (ensure_dir _ (world s)) as [w1 [e|[]]] eqn:Hdir; [done|].
  apply ensure_dir_run in Hdir as (Hcwd & _ & Hadd & _).
  rewrite copyfile_run.
  destruct (shutil._samefile _ _ _); [done|].
  destruct (os.read_at _ _) as [e|data] eqn:Hread; [done|].
  destruct (os.write_at _ _ _) as [e|f'] eqn:Hwrite; [done|].
  intros [= <-]. exists data.
  apply write_at_inv in Hwrite as (kp & Hresp & Hnp & ->).
  apply read_at_inv in Hread as (kl & Hresl & Hkl).
  pose proof (insert_file_dirs _ kp data Hnp) as Hdirs.
  cbn [self world]. split; [|split].
  - apply read_at_inv. exists kl. split; [by apply resolve_mono|].
    cbn [nodes set_nodes]. destruct (decide (kp = kl)) as [->|Hne].
    + by rewrite lookup_insert_eq.
    + by rewrite lookup_insert_ne.
  - rewrite get_run. cbn [self world].
    assert (os.read_at (set_nodes (<[kp:=File data]> (nodes w1)) w1)
              (posixpath.join (root (self s)) id) = inr data) as ->; [|done].
    apply read_at_inv. exists kp. split; [by apply resolve_mono|].
    cbn [nodes set_nodes]. by rewrite lookup_insert_eq.
  - intros d (k & Hres & Hk)%read_at_inv.
    apply (resolve_mono_worlds _ w1) in Hres; [|done|].
    + rewrite Hresl in Hres. injection Hres as <-.
      apply (proj1 Hadd) in Hk. congruence.
    + intros k' Hk'. by apply (proj1 Hadd).
Qed.

Lemma put_from_local_file_then_get_witness :
  snd (get "manifests/copy"
         (fst (put_from_local_file "manifests/copy"
                 "/tmp/repo/manifests/site_default" s_items)))
  = inr "{...}".
Proof.
  destruct (put_from_local_file_then_get s_items
              (fst (put_from_local_file "manifests/copy"
                      "/tmp/repo/manifests/site_default" s_items))
              "manifests/copy" "/tmp/repo/manifests/site_default")
    as (data & _ & -> & Hsame); [vm_compute; reflexivity|].
  cbn [snd]. f_equal. symmetry. apply Hsame. vm_compute. reflexivity.
Defined.

(** X15: [put] keeps the instance, the working directory, the trace and
    every directory, whether it succeeds or fails. When it succeeds, one
    regular file holds the content and every other regular file is as it
    was. When it fails, the exception is an [OSError] (of [makedirs]) or an
    [IOError] (of [open]), no regular file has been touched, and at most
    directories have been added. *)
Theorem put_frame (s s' : State) (id content : string) (r : exn + unit) :
  put id content s = (s', r) ->
  self s' = self s
  /\ cwd (world s') = cwd (world s)
  /\ trace (world s') = trace (world s)
  /\ (forall k, nodes (world s) !! k = Some Dir ->
                nodes (world s') !! k = Some Dir)
  /\ match r with
     | inr _ =>
         exists k,
           nodes (world s') !! k = Some (File content)
           /\ same_files_but k (nodes (world s)) (nodes (world s'))
     | inl e =>
         dirs_added (nodes (world s)) (nodes (world s'))
         /\ exists code, e = OSError code \/ e = IOError code
     end.
Proof.
  rewrite put_run.
  destruct (ensure_dir _ (world s)) as [w1 r1] eqn:Hdir.
  pose proof (ensure_dir_run _ _ _ _ Hdir) as (Hcwd & Htr & Hadd & _).
  destruct r1 as [e|[]].
  { intros [= <- <-]. cbn [self world].
    apply ensure_dir_raises in Hdir as [code ->].
    repeat split; try done; [intros k; apply Hadd|apply Hadd..|eauto]. }
  destruct (os.write_at _ _ _) as [e|f'] eqn:Hwrite; intros [= <- <-];
    cbn [self world].
  { repeat split; try done; [intros k; apply Hadd|apply Hadd..|eauto]. }
  apply write_at_inv in Hwrite as (kp & Hresp & Hnp & ->).
  cbn [nodes set_nodes cwd trace].
  split; [done|]. split; [done|]. split; [done|]. split.
  - intros k Hk. apply insert_file_dirs; [done|]. by apply Hadd.
  - exists kp. split; [by rewrite lookup_insert_eq|].
    intros k' d Hne. rewrite lookup_insert_ne by done.
    by apply dirs_added_files.
Qed.

Lemma put_frame_witness :
  nodes (world (fst (put "manifests/new/default" "{}" s_items)))
  !! ["tmp"; "repo"; "pkgsinfo"; "apps"; "Firefox-52.0.plist"]
  = Some (File "<plist/>")
  /\ nodes (world (fst (put "manifests/site_default/x" "{}" s_items)))
     !! ["tmp"; "repo"; "manifests"; "site_default"]
     = Some (File "{...}").
Proof.
  split.
  - destruct (put_frame s_items
                (fst (put "manifests/new/default" "{}" s_items))
                "manifests/new/default" "{}" (inr tt))
      as (_ & _ & _ & _ & k & Hk & Hsame); [vm_compute; reflexivity|].
    apply Hsame; [|vm_compute; reflexivity].
    intros <-. revert Hk. vm_compute. discriminate.
  - destruct (put_frame s_items
                (fst (put "manifests/site_default/x" "{}" s_items))
                "manifests/site_default/x" "{}" (inl (IOError errno.ENOTDIR)))
      as (_ & _ & _ & _ & Hadd & _); [vm_compute; reflexivity|].
    apply (proj1 Hadd). vm_compute. reflexivity.
Defined.

(** X16: the operations that write keep the file system well-formed:
    after [put], [put_from_local_file], [get_to_local_file] and [delete],
    whether they succeed or fail, every object still has a valid name and
    lies in a directory. *)
Theorem item_operations_keep_wf (s : State) :
  wf_fs (nodes (world s)) = true ->
  (forall id content,
     wf_fs (nodes (world (fst (put id content s)))) = true)
  /\ (forall id local_file_path,
        wf_fs (nodes (world (fst (put_from_local_file id local_file_path s))))
        = true)
  /\ (forall id local_file_path,
        wf_fs (nodes (world (fst (get_to_local_file id local_file_path s))))
        = true)
  /\ (forall id, wf_fs (nodes (world (fst (delete id s)))) = true).
Proof.
  intros Hwf. split; [|split; [|split]].
  - intros id content. rewrite put_run.
    destruct (ensure_dir _ (world s)) as [w1 r1] eqn:Hdir.
    apply ensure_dir_run in Hdir as (_ & _ & _ & Hwf1).
    destruct r1 as [e|[]]; [by apply Hwf1|].
    destruct (os.write_at _ _ _) as [e|f'] eqn:Hwrite; [by apply Hwf1|].
    cbn [fst world nodes set_nodes].
    by apply (write_at_wf w1 (Hwf1 Hwf) _ _ _ Hwrite).
  - intros id local_file_path. rewrite put_from_local_file_run.
    destruct (ensure_dir _ (world s)) as [w1 r1] eqn:Hdir.
    apply ensure_dir_run in Hdir as (_ & _ & _ & Hwf1).
    destruct r1 as [e|[]]; [by apply Hwf1|].
    destruct (shutil.copyfile _ _ w1) as [w2 r2] eqn:Hcopy.
    by apply (copyfile_wf _ _ _ _ _ (Hwf1 Hwf) Hcopy).
  - intros id local_file_path. rewrite get_to_local_file_run.
    destruct (shutil.copyfile _ _ (world s)) as [w2 r2] eqn:Hcopy.
    by apply (copyfile_wf _ _ _ _ _ Hwf Hcopy).
  - intros id. rewrite delete_run.
    destruct (os.remove_at _ _) as [e|f'] eqn:Hrm; [done|].
    by apply (remove_at_wf _ Hwf _ _ Hrm).
Qed.

Lemma item_operations_keep_wf_witness :
  wf_fs (nodes (world (fst (put "catalogs/all" "[]" s_items)))) = true
  /\ wf_fs (nodes (world (fst (delete "manifests/site_default" s_items))))
     = true.
Proof.
  destruct (item_operations_keep_wf s_items) as (Hput & _ & _ & Hdel);
    [vm_compute; reflexivity|].
  split; [apply Hput|apply Hdel].
Defined.

(** X17: [put] of one resource leaves the others as they were: a resource
    that [get] returned before is returned alike after [put] of another,
    whether the [put] succeeds or fails. Only when both identifiers lead to
    the same file does [get] return the new content. *)
Theorem put_keeps_other_resources (s s' : State) (id content other data : string)
    (r : exn + unit) :
  get other s = (s, inr data) ->
  put id content s = (s', r) ->
  (get other s' = (s', inr data)
   \/ (r = inr tt /\ get other s' = (s', inr content)))
  /\ (os.resolve (world s') (posixpath.join (root (self s')) other)
      <> os.resolve (world s') (posixpath.join (root (self s')) id) ->
      get other s' = (s', inr data)).
Proof.
  rewrite get_run, put_run.
  destruct (os.read_at _ _) as [e|d] eqn:Hread; [done|]. intros [= ->].
  apply read_at_inv in Hread as (ko & Hreso & Hko).
  destruct (ensure_dir _ (world s)) as [w1 r1] eqn:Hdir.
  apply ensure_dir_run in Hdir as (Hcwd & _ & Hadd & _).
  assert (Hreso1 : os.resolve w1 (posixpath.join (root (self s)) other)
                   = inr ko).
  { apply (resolve_mono_worlds (world s)); [done| |done].
    intros k Hk. by apply Hadd. }
  assert (Hko1 : nodes w1 !! ko = Some (File data)) by by apply Hadd.
  assert (Hget1 : get other (mkState (self s) w1)
                  = (mkState (self s) w1, inr data)).
  { rewrite get_run. cbn [self world].
    assert (os.read_at w1 (posixpath.join (root (self s)) other) = inr data)
      as ->; [|done].
    apply read_at_inv. eauto. }
  destruct r1 as [e|[]]; [intros [= <- <-]; split; auto|].
  destruct (os.write_at _ _ _) as [e|f'] eqn:Hwrite;
    [intros [= <- <-]; split; auto|].
  intros [= <- <-].
  apply write_at_inv in Hwrite as (kp & Hresp & Hnp & ->).
  pose proof (insert_file_dirs _ kp content Hnp) as Hdirs.
  assert (Hget2 : forall c,
            <[kp:=File content]> (nodes w1) !! ko = Some (File c) ->
            get other
              (mkState (self s) (set_nodes (<[kp:=File content]> (nodes w1)) w1))
            = (mkState (self s) (set_nodes (<[kp:=File content]> (nodes w1)) w1),
               inr c)).
  { intros c Hc. rewrite get_run. cbn [self world].
    assert (os.read_at (set_nodes (<[kp:=File content]> (nodes w1)) w1)
              (posixpath.join (root (self s)) other) = inr c) as ->; [|done].
    apply read_at_inv. exists ko. split; [by apply resolve_mono|done]. }
  split.
  - destruct (decide (kp = ko)) as [->|Hne].
    + right. split; [done|]. apply Hget2. by rewrite lookup_insert_eq.
    + left. apply Hget2. by rewrite lookup_insert_ne.
  - cbn [self world]. intros Hdiff. apply Hget2.
    rewrite lookup_insert_ne; [done|]. intros ->. apply Hdiff.
    by rewrite !(resolve_mono _ _ _ ko Hdirs).
Qed.

Lemma put_keeps_other_resources_witness :
  get "pkgsinfo/apps/Firefox-52.0.plist"
    (fst (put "manifests/site_default" "{}" s_items))
  = (fst (put "manifests/site_default" "{}" s_items), inr "<plist/>").
Proof.
  apply (proj2 (put_keeps_other_resources s_items
                  (fst (put "manifests/site_default" "{}" s_items))
                  "manifests/site_default" "{}"
                  "pkgsinfo/apps/Firefox-52.0.plist" "<plist/>" (inr tt)
                  ltac:(vm_compute; reflexivity)
                  ltac:(vm_compute; reflexivity))).
  vm_compute. discriminate.
Defined.

(** X18: [delete] of one resource leaves the others as they were: a
    resource that [get] returned before is returned alike after [delete] of
    another, whether the [delete] succeeds or fails; when both identifiers
    lead to the same file and it has been removed, [get] raises [IOError]
    with [ENOENT]. *)
Theorem delete_keeps_other_resources (s s' : State) (id other data : string)
    (r : exn + unit) :
  get other s = (s, inr data) ->
  delete id s = (s', r) ->
  (get other s' = (s', inr data)
   \/ (r = inr tt /\ get other s' = (s', inl (IOError errno.ENOENT))))
  /\ (os.resolve (world s) (posixpath.join (root (self s)) other)
      <> os.resolve (world s) (posixpath.join (root (self s)) id) ->
      get other s' = (s', inr data)).
Proof.
  intros Hget. pose proof Hget as Hget0. revert Hget.
  rewrite get_run, delete_run.
  destruct (os.read_at _ _) as [e|d] eqn:Hread; [done|]. intros [= ->].
  apply read_at_inv in Hread as (ko & Hreso & Hko).
  destruct (os.remove_at _ _) as [e|f'] eqn:Hrm; intros [= <- <-];
    [split; auto|].
  apply remove_at_inv in Hrm as (kd & d & Hresd & Hkd & ->).
  pose proof (delete_file_dirs _ _ _ Hkd) as Hdirs.
  assert (Hread2 : os.read_at (set_nodes (base.delete kd (nodes (world s)))
                                 (world s))
                     (posixpath.join (root (self s)) other)
                   = match decide (kd = ko) with
                     | left _ => inl errno.ENOENT
                     | right _ => inr data
                     end).
  { unfold os.read_at. rewrite (resolve_mono _ _ _ ko Hdirs Hreso).
    cbn [nodes set_nodes]. destruct (decide (kd = ko)) as [->|Hne].
    - by rewrite lookup_delete_eq.
    - by rewrite lookup_delete_ne, Hko. }
  rewrite get_run. cbn [self world]. rewrite Hread2. split.
  - destruct (decide (kd = ko)); auto.
  - intros Hdiff. destruct (decide (kd = ko)) as [->|Hne]; [|done].
    exfalso. apply Hdiff. congruence.
Qed.

Lemma delete_keeps_other_resources_witness :
  get "pkgsinfo/apps/Firefox-52.0.plist"
    (fst (delete "manifests/site_default" s_items))
  = (fst (delete "manifests/site_default" s_items), inr "<plist/>").
Proof.
  apply (proj2 (delete_keeps_other_resources s_items
                  (fst (delete "manifests/site_default" s_items))
                  "manifests/site_default"
                  "pkgsinfo/apps/Firefox-52.0.plist" "<plist/>" (inr tt)
                  ltac:(vm_compute; reflexivity)
                  ltac:(vm_compute; reflexivity))).
  vm_compute. discriminate.
Defined.

(** ** What [itemlist] shows after [put] and [delete] *)

(** On a well-formed file system the list of [itemlist] holds the relative
    paths of the regular files below [root/kind], also when that is no
    directory: then there are none. *)
Lemma itemlist_members (s : State) (kind : string) (k : list string) :
  wf_fs (nodes (world s)) = true ->
  os.resolve (world s) (posixpath.join (root (self s)) kind) = inr k ->
  exists l,
    itemlist kind s = (s, inr l)
    /\ forall rel,
         rel ∈ l
         <-> exists names data,
               names <> []
               /\ nodes (world s) !! (k ++ names) = Some (File data)
               /\ rel = String.concat "/" names.
Proof.
  intros Hwf Hres. rewrite itemlist_run.
  set (top := posixpath.join (root (self s)) kind) in *.
  eexists. split; [reflexivity|]. intros rel.
  assert (Htop : top <> "").
  { intros E. rewrite E in Hres. by unfold os.resolve in Hres. }
  destruct (decide (nodes (world s) !! k = Some Dir)) as [Hk|Hk].
  - change (List.map ?g ?l) with (g <$> l). rewrite list_elem_of_fmap. split.
    + intros (abs & -> & Hin).
      apply (walk_files_spec _ Hwf top k Hres Hk)
        in Hin as (names & nm & data & Hfile & ->).
      exists (names ++ [nm]), data. split; [by destruct names|].
      split; [done|]. rewrite <- joins_snoc.
      apply relative_path; [done|by destruct names|].
      by apply (wf_names_valid _ k _ _ Hwf Hfile).
    + intros (names & data & Hne & Hfile & ->).
      destruct names as [|n names _] using rev_ind; [done|].
      exists (posixpath.join (joins top names) n). split.
      * rewrite <- joins_snoc. symmetry.
        apply relative_path; [done|by destruct names|].
        by apply (wf_names_valid _ k _ _ Hwf Hfile).
      * apply (walk_files_spec _ Hwf top k Hres Hk). eauto.
  - rewrite (walk_not_dir (world s) top).
    + split; [by intros Hin%not_elem_of_nil|].
      intros (names & data & Hne & Hfile & _). exfalso. apply Hk.
      by apply (wf_above _ Hwf k names (File data)).
    + unfold os.isdir_at, os.stat. rewrite Hres.
      by destruct (nodes (world s) !! k) as [[d|]|].
Qed.

Lemma put_wf (s : State) (id content : string) :
  wf_fs (nodes (world s)) = true ->
  wf_fs (nodes (world (fst (put id content s)))) = true.
Proof.
  intros Hwf. rewrite put_run.
  destruct (ensure_dir _ (world s)) as [w1 r1] eqn:Hdir.
  apply ensure_dir_run in Hdir as (_ & _ & _ & Hwf1).
  destruct r1 as [e|[]]; [by apply Hwf1|].
  destruct (os.write_at _ _ _) as [e|f'] eqn:Hwrite; [by apply Hwf1|].
  cbn [fst world nodes set_nodes].
  by apply (write_at_wf w1 (Hwf1 Hwf) _ _ _ Hwrite).
Qed.

Lemma put_keeps_dirs (s s' : State) (id content : string) (r : exn + unit) :
  put id content s = (s', r) ->
  forall k, nodes (world s) !! k = Some Dir -> nodes (world s') !! k = Some Dir.
Proof.
  rewrite put_run.
  destruct (ensure_dir _ (world s)) as [w1 r1] eqn:Hdir.
  apply ensure_dir_run in Hdir as (_ & _ & Hadd & _).
  destruct r1 as [e|[]]; [intros [= <- <-] k; apply Hadd|].
  destruct (os.write_at _ _ _) as [e|f'] eqn:Hwrite; intros [= <- <-] k Hk;
    [by apply Hadd|].
  apply write_at_inv in Hwrite as (kp & _ & Hnp & ->).
  cbn [world nodes set_nodes]. apply insert_file_dirs; [done|]. by apply Hadd.
Qed.

(** X19: in a connected repository on a well-formed file system, [put] of
    the identifier [kind/names...] succeeds (unless a file is in the way of
    a directory or a directory in the place of the file), and [itemlist] of
    [kind] then lists what it listed before and the relative path of the
    new resource, and nothing else. *)
Theorem put_then_itemlist (s : State) (kind content : string)
    (r rest : list string) :
  wf_fs (nodes (world s)) = true ->
  os.resolve (world s) (root (self s)) = inr r ->
  nodes (world s) !! r = Some Dir ->
  valid_name kind = true ->
  rest <> [] -> Forall (fun n => valid_name n = true) rest ->
  (forall l1 l2 data, kind :: rest = l1 ++ l2 -> l2 <> [] ->
     nodes (world s) !! (r ++ l1) <> Some (File data)) ->
  nodes (world s) !! (r ++ kind :: rest) <> Some Dir ->
  exists s' l l',
    put (String.concat "/" (kind :: rest)) content s = (s', inr tt)
    /\ itemlist kind s = (s, inr l)
    /\ itemlist kind s' = (s', inr l')
    /\ forall rel, rel ∈ l' <-> rel = String.concat "/" rest \/ rel ∈ l.
Proof.
  intros Hwf Hroot Hr Hkind Hrest Hall Hnofile Hnotdir.
  destruct (put_stores s _ content r (kind :: rest) Hwf Hroot Hr
              ltac:(done) ltac:(by constructor) eq_refl Hnofile Hnotdir)
    as (f' & Hput & Hfile & Hdirs & Hsame).
  pose proof (put_wf s (String.concat "/" (kind :: rest)) content Hwf) as Hwf'.
  rewrite Hput in Hwf'. cbn [fst world nodes set_nodes] in Hwf'.
  assert (Hother : forall k', k' <> r ++ kind :: rest ->
            (forall data, f' !! k' = Some (File data)
                          \/ nodes (world s) !! k' = Some (File data) ->
                          f' !! k' = nodes (world s) !! k')).
  { intros k' Hne data Hk'. apply Hsame. intros l1 l2 Hl ->.
    destruct l2 as [|x l2].
    - rewrite app_nil_r in Hl. by subst l1.
    - destruct Hk' as [Hk'|Hk'].
      + rewrite (Hdirs l1 (x :: l2)) in Hk'; done.
      + by apply (Hnofile l1 (x :: l2) data). }
  assert (Hkeep : forall d, nodes (world s) !! d = Some Dir ->
                            f' !! d = Some Dir).
  { intros d Hd. by apply (put_keeps_dirs _ _ _ _ _ Hput). }
  assert (Hres : os.resolve (world s) (posixpath.join (root (self s)) kind)
                 = inr (r ++ [kind])) by by apply resolve_join_name.
  assert (Hres' : os.resolve (set_nodes f' (world s))
                    (posixpath.join (root (self s)) kind)
                  = inr (r ++ [kind])).
  { apply resolve_join_name; [by apply resolve_mono| |done].
    cbn [nodes set_nodes]. by apply Hkeep. }
  destruct (itemlist_members s kind _ Hwf Hres) as (l & Hl & Hchar).
  destruct (itemlist_members (mkState (self s) (set_nodes f' (world s))) kind
              (r ++ [kind]) Hwf' Hres') as (l' & Hl' & Hchar').
  cbn [self world nodes set_nodes] in Hchar'.
  exists (mkState (self s) (set_nodes f' (world s))), l, l'.
  split; [done|]. split; [done|]. split; [done|].
  assert (Hkey : forall names, (r ++ [kind]) ++ names = r ++ kind :: rest ->
                               names = rest).
  { intros names Hn. rewrite <- app_assoc in Hn.
    apply app_inv_head in Hn. by injection Hn. }
  intros rel. rewrite Hchar', Hchar. split.
  - intros (names & data & Hne & Hf & ->).
    destruct (decide (names = rest)) as [->|Hnr]; [by left|].
    right. exists names, data. split; [done|]. split; [|done].
    rewrite <- (Hother ((r ++ [kind]) ++ names)) with (data := data); auto.
  - intros [->|(names & data & Hne & Hf & ->)].
    + exists rest, content. split; [done|]. split; [|done].
      by rewrite <- app_assoc.
    + destruct (decide (names = rest)) as [->|Hnr].
      * exists rest, content. split; [done|]. split; [|done].
        by rewrite <- app_assoc.
      * exists names, data. split; [done|]. split; [|done].
        rewrite (Hother ((r ++ [kind]) ++ names)) with (data := data); auto.
Qed.

Lemma put_then_itemlist_witness :
  exists s' l',
    put "manifests/site_default" "{...}" s_repo = (s', inr tt)
    /\ itemlist "manifests" s' = (s', inr l')
    /\ forall rel, rel ∈ l' <-> rel = "site_default".
Proof.
  destruct (put_then_itemlist s_repo "manifests" "{...}" ["tmp"; "repo"]
              ["site_default"])
    as (s' & l & l' & Hput & Hl & Hl' & Hchar).
  - vm_compute. reflexivity.
  - vm_compute. reflexivity.
  - vm_compute. reflexivity.
  - reflexivity.
  - discriminate.
  - repeat constructor.
  - intros l1 l2 data Hl Hl2.
    destruct l1 as [|a [|b [|c l1]]].
    + vm_compute. discriminate.
    + injection Hl as <- _. vm_compute. discriminate.
    + injection Hl as <- <- Hl. by destruct l2.
    + injection Hl as _ _ Hl. discriminate Hl.
  - vm_compute. discriminate.
  - exists s', l'. split; [exact Hput|]. split; [exact Hl'|].
    intros rel. rewrite Hchar. split; [|by left].
    intros [Hrel|Hrel]; [exact Hrel|].
    assert (l = []) as ->; [|by apply not_elem_of_nil in Hrel].
    revert Hl. vm_compute. congruence.
Defined.

(** X20: on a well-formed file system, after [delete] of a resource has
    succeeded, [itemlist] of a kind lists what it listed before, but for
    the relative path of the removed file if that lay below [root/kind]. *)
Theorem delete_then_itemlist (s s' : State) (kind id : string)
    (k : list string) :
  wf_fs (nodes (world s)) = true ->
  os.resolve (world s) (posixpath.join (root (self s)) kind) = inr k ->
  delete id s = (s', inr tt) ->
  exists kd l l',
    os.resolve (world s) (posixpath.join (root (self s)) id) = inr kd
    /\ itemlist kind s = (s, inr l)
    /\ itemlist kind s' = (s', inr l')
    /\ forall rel,
         rel ∈ l'
         <-> rel ∈ l
             /\ forall names, kd = k ++ names ->
                              rel <> String.concat "/" names.
Proof.
  intros Hwf Hres. rewrite delete_run.
  destruct (os.remove_at _ _) as [e|f'] eqn:Hrm; [done|]. intros [= <-].
  pose proof (remove_at_wf _ Hwf _ _ Hrm) as Hwf'.
  apply remove_at_inv in Hrm as (kd & d & Hresd & Hkd & ->).
  destruct (itemlist_members s kind k Hwf Hres) as (l & Hl & Hchar).
  destruct (itemlist_members
              (mkState (self s)
                 (set_nodes (base.delete kd (nodes (world s))) (world s)))
              kind k Hwf')
    as (l' & Hl' & Hchar').
  { cbn [self world]. apply resolve_mono; [|done].
    by apply (delete_file_dirs _ _ d). }
  cbn [self world nodes set_nodes] in Hchar'.
  exists kd, l, l'. split; [done|]. split; [done|]. split; [done|].
  intros rel. rewrite Hchar', Hchar. split.
  - intros (names & data & Hne & Hf & ->).
    apply lookup_delete_Some in Hf as [Hdiff Hf].
    split; [by eauto 6|].
    intros names' -> Heq. apply Hdiff. f_equal.
    pose proof (wf_names_valid _ k _ _ Hwf Hf) as Hv.
    pose proof (wf_names_valid _ k _ _ Hwf Hkd) as Hv'.
    assert (Hne' : names' <> []).
    { intros ->. rewrite app_nil_r in Hkd.
      pose proof (wf_above _ Hwf k names _ Hne Hf). congruence. }
    rewrite <- (components_concat_names names' Hne' Hv').
    rewrite <- (components_concat_names names Hne Hv). by rewrite Heq.
  - intros [(names & data & Hne & Hf & ->) Hnot].
    exists names, data. split; [done|]. split; [|done].
    rewrite lookup_delete_ne; [done|].
    intros ->. by apply (Hnot names).
Qed.

Lemma delete_then_itemlist_witness :
  exists l',
    itemlist "manifests" (fst (delete "manifests/site_default" s_items))
    = (fst (delete "manifests/site_default" s_items), inr l')
    /\ "site_default" ∉ l'.
Proof.
  destruct (delete_then_itemlist s_items
              (fst (delete "manifests/site_default" s_items))
              "manifests" "manifests/site_default" ["tmp"; "repo"; "manifests"])
    as (kd & l & l' & Hkd & _ & Hl' & Hchar).
  - vm_compute. reflexivity.
  - vm_compute. reflexivity.
  - vm_compute. reflexivity.
  - exists l'. split; [exact Hl'|].
    intros [_ Hnot]%Hchar. apply (Hnot ["site_default"]); [|reflexivity].
    revert Hkd. vm_compute. congruence.
Defined.

(** ** Copies *)

(** X21: a copy of a resource onto itself is refused and the resource keeps
    its content. When the local path leads to the file of the resource,
    [get_to_local_file] raises [shutil.Error] and changes nothing;
    [put_from_local_file] raises [shutil.Error] too (or the [OSError] of
    [makedirs]), and [get] still returns the content. *)
Theorem copy_onto_itself_refused (s : State) (id local_file_path data : string) :
  get id s = (s, inr data) ->
  os.resolve (world s) local_file_path
  = os.resolve (world s) (posixpath.join (root (self s)) id) ->
  get_to_local_file id local_file_path s
  = (s, inl (shutil_Error
               ("`" +:+ posixpath.join (root (self s)) id +:+ "` and `"
                +:+ local_file_path +:+ "` are the same file")))
  /\ exists s' e,
       put_from_local_file id local_file_path s = (s', inl e)
       /\ get id s' = (s', inr data)
       /\ (e = shutil_Error
                 ("`" +:+ local_file_path +:+ "` and `"
                  +:+ posixpath.join (root (self s)) id
                  +:+ "` are the same file")
           \/ exists code, e = OSError code).
Proof.
  rewrite get_run.
  destruct (os.read_at _ _) as [e|d] eqn:Hread; [done|]. intros [= ->].
  apply read_at_inv in Hread as (k & Hres & Hk). intros Hlocal.
  rewrite Hres in Hlocal. split.
  - rewrite get_to_local_file_run, copyfile_run.
    unfold shutil._samefile, os.stat. rewrite Hres, Hlocal, Hk.
    rewrite bool_decide_eq_true_2 by done. by rewrite state_eta.
  - rewrite put_from_local_file_run.
    destruct (ensure_dir _ (world s)) as [w1 r1] eqn:Hdir.
    pose proof (ensure_dir_run _ _ _ _ Hdir) as (Hcwd & _ & Hadd & _).
    assert (Hmono : forall p, os.resolve (world s) p = inr k ->
                              os.resolve w1 p = inr k).
    { intros p. apply resolve_mono_worlds; [done|].
      intros d Hd. by apply Hadd. }
    assert (Hk1 : nodes w1 !! k = Some (File data)) by by apply Hadd.
    assert (Hget1 : get id (mkState (self s) w1)
                    = (mkState (self s) w1, inr data)).
    { rewrite get_run. cbn [self world].
      assert (os.read_at w1 (posixpath.join (root (self s)) id) = inr data)
        as ->; [|done].
      apply read_at_inv. eauto. }
    destruct r1 as [e|[]].
    + apply ensure_dir_raises in Hdir as [code ->]. eauto 7.
    + rewrite copyfile_run. unfold shutil._samefile, os.stat.
      rewrite (Hmono _ Hres), (Hmono _ Hlocal), Hk1.
      rewrite bool_decide_eq_true_2 by done. eauto 7.
Qed.

Lemma copy_onto_itself_refused_witness :
  fst (get_to_local_file "manifests/site_default"
         "/tmp/repo/pkgsinfo/../manifests/site_default" s_items)
  = s_items
  /\ exists msg,
       snd (get_to_local_file "manifests/site_default"
              "/tmp/repo/pkgsinfo/../manifests/site_default" s_items)
       = inl (shutil_Error msg).
Proof.
  destruct (copy_onto_itself_refused s_items "manifests/site_default"
              "/tmp/repo/pkgsinfo/../manifests/site_default" "{...}")
    as [-> _].
  - vm_compute. reflexivity.
  - vm_compute. reflexivity.
  - split; [reflexivity|]. eexists. reflexivity.
Defined.

(** X22: [put_from_local_file] keeps the instance, the working directory,
    the trace and every directory, whether it succeeds or fails. When it
    succeeds, one regular file has been written and every other regular
    file is as it was. When it fails, no regular file has been touched, at
    most directories have been added, and the exception is an [OSError]
    (of [makedirs]), an [IOError] (of [open]) or a [shutil.Error]. *)
Theorem put_from_local_file_frame (s s' : State) (id local_file_path : string)
    (r : exn + unit) :
  put_from_local_file id local_file_path s = (s', r) ->
  self s' = self s
  /\ cwd (world s') = cwd (world s)
  /\ trace (world s') = trace (world s)
  /\ (forall k, nodes (world s) !! k = Some Dir ->
                nodes (world s') !! k = Some Dir)
  /\ match r with
     | inr _ =>
         exists k data,
           nodes (world s') !! k = Some (File data)
           /\ same_files_but k (nodes (world s)) (nodes (world s'))
     | inl e =>
         dirs_added (nodes (world s)) (nodes (world s'))
         /\ ((exists code, e = OSError code \/ e = IOError code)
             \/ exists msg, e = shutil_Error msg)
     end.
Proof.
  rewrite put_from_local_file_run.
  destruct (ensure_dir _ (world s)) as [w1 r1] eqn:Hdir.
  pose proof (ensure_dir_run _ _ _ _ Hdir) as (Hcwd & Htr & Hadd & _).
  assert (Hfail : forall e,
            ((exists code, e = OSError code \/ e = IOError code)
             \/ exists msg, e = shutil_Error msg) ->
            self (mkState (self s) w1) = self s
            /\ cwd (world (mkState (self s) w1)) = cwd (world s)
            /\ trace (world (mkState (self s) w1)) = trace (world s)
            /\ (forall k, nodes (world s) !! k = Some Dir ->
                          nodes (world (mkState (self s) w1)) !! k = Some Dir)
            /\ dirs_added (nodes (world s)) (nodes (world (mkState (self s) w1)))
               /\ ((exists code, e = OSError code \/ e = IOError code)
                   \/ exists msg, e = shutil_Error msg)).
  { intros e He. cbn [self world]. repeat split; try done;
      [intros k; apply Hadd|apply Hadd..]. }
  destruct r1 as [e|[]].
  { intros [= <- <-]. apply Hfail.
    apply ensure_dir_raises in Hdir as [code ->]. eauto. }
  rewrite copyfile_run.
  destruct (shutil._samefile _ _ _); [intros [= <- <-]; apply Hfail; eauto|].
  destruct (os.read_at _ _) as [e|data]; [intros [= <- <-]; apply Hfail; eauto|].
  destruct (os.write_at _ _ _) as [e|f'] eqn:Hwrite;
    [intros [= <- <-]; apply Hfail; eauto|].
  intros [= <- <-].
  apply write_at_inv in Hwrite as (kp & Hresp & Hnp & ->).
  cbn [self world nodes set_nodes cwd trace].
  split; [done|]. split; [done|]. split; [done|]. split.
  - intros k Hk. apply insert_file_dirs; [done|]. by apply Hadd.
  - exists kp, data. split; [by rewrite lookup_insert_eq|].
    intros k' d Hne. rewrite lookup_insert_ne by done.
    by apply dirs_added_files.
Qed.

Lemma put_from_local_file_frame_witness :
  nodes (world (fst (put_from_local_file "icons/missing.png" "/tmp/nothing"
                       s_items)))
  !! ["tmp"; "repo"; "manifests"; "site_default"]
  = Some (File "{...}")
  /\ nodes (world (fst (put_from_local_file "icons/missing.png" "/tmp/nothing"
                          s_items)))
     !! ["tmp"; "repo"; "icons"]
     = Some Dir.
Proof.
  destruct (put_from_local_file_frame s_items
              (fst (put_from_local_file "icons/missing.png" "/tmp/nothing"
                      s_items))
              "icons/missing.png" "/tmp/nothing" (inl (IOError errno.ENOENT)))
    as (_ & _ & _ & _ & Hadd & _); [vm_compute; reflexivity|].
  split.
  - apply (proj1 Hadd). vm_compute. reflexivity.
  - vm_compute. reflexivity.
Defined.
